(** * K-Menu command palette: a shallow embedding of
      [src/renderer/components/k-menu-palette.ts]

    The palette is a single class, [KMenuPalette], whose methods mutate the
    fields of [this].  The embedding keeps the fields in one record and turns
    every method into a function from record to record.  Calls into the host
    ([alert], [confirm], [postMessage], a command's [execute]) are recorded
    in logs carried by the record, answers coming back from the host
    (the reply to a request, the user's answer to [confirm]) are arguments.

    A JavaScript string is a sequence of UTF-16 code units.  It is
    modelled by [string], one [ascii] for one code unit: the strings
    modelled are those whose code units are all below 256 (the names,
    kinds and namespaces of Kubernetes, and what a Latin keyboard types),
    and on them [length], indexing, the white-space class and the change
    of case are those of JavaScript.  Two things leave that range: the
    upper case of two letters ([Str.toUpperCase]), and the marks that open
    some texts given to the dialogs of the host ([Palette.Text]).
    JavaScript numbers used as scores are modelled by [Q]: every score the
    code produces is a small integer or a quotient [n / n].

    Three smaller modules stand beside the palette: [Shortcut], the
    preferences and the test of the keyboard shortcut; [Navigation], the
    link the navigation service builds; [Frame], the listeners the
    renderer installs inside a cluster frame. *)

From Stdlib Require Import QArith ZArith Lia Ascii String List Sorted Permutation.
From stdpp Require Import gmap strings list.
Close Scope Q_scope.

(** ** Strings *)

Module Str.

(** [String.prototype.toLowerCase].  Below 256 the letters with a lower
    case are [A] to [Z] and the units 192 to 222 (capital A with grave to
    capital thorn) but 215, the multiplication sign; their lower case is
    32 further. *)
Definition lowerChar (c : ascii) : ascii :=
  let n := nat_of_ascii c in
  if ((65 <=? n) && (n <=? 90))
     || ((192 <=? n) && (n <=? 222) && negb (n =? 215))
  then ascii_of_nat (n + 32) else c.

Fixpoint toLowerCase (s : string) : string :=
  match s with
  | "" => ""
  | String c r => String (lowerChar c) (toLowerCase r)
  end.

(** [text.startsWith(pat)]. *)
Fixpoint startsWith (text pat : string) {struct pat} : bool :=
  match pat, text with
  | "", _ => true
  | String p pat', String c text' =>
      if ascii_dec c p then startsWith text' pat' else false
  | String _ _, "" => false
  end.

(** [text.includes(pat)]: some position of [text] starts with [pat]. *)
Fixpoint includes (text pat : string) : bool :=
  startsWith text pat ||
  match text with
  | "" => false
  | String _ text' => includes text' pat
  end.

(** The class [\s] of a regular expression, which is also what [trim]
    removes: tab, line feed, vertical tab, form feed, carriage return,
    space and the no-break space (160).  Its other members (U+1680,
    U+2000 to U+200A, U+2028, U+2029, U+202F, U+205F, U+3000, U+FEFF) are
    not below 256. *)
Definition isSpace (c : ascii) : bool :=
  let n := nat_of_ascii c in
  ((9 <=? n) && (n <=? 13)) || (n =? 32) || (n =? 160).

(** The class [\w]. *)
Definition isWord (c : ascii) : bool :=
  let n := nat_of_ascii c in
  ((48 <=? n) && (n <=? 57)) || ((65 <=? n) && (n <=? 90))
  || (n =? 95) || ((97 <=? n) && (n <=? 122)).

(** Line terminators, which [.] does not match; U+2028 and U+2029 are
    not below 256. *)
Definition isLineTerminator (c : ascii) : bool :=
  let n := nat_of_ascii c in (n =? 10) || (n =? 13).

Fixpoint dropWhile (p : ascii -> bool) (s : string) : string :=
  match s with
  | "" => ""
  | String c r => if p c then dropWhile p r else s
  end.

Fixpoint takeWhile (p : ascii -> bool) (s : string) : string :=
  match s with
  | "" => ""
  | String c r => if p c then String c (takeWhile p r) else ""
  end.

Fixpoint allChars (p : ascii -> bool) (s : string) : bool :=
  match s with
  | "" => true
  | String c r => p c && allChars p r
  end.

(** [s.split(/\s+/)]: the pieces between maximal runs of white space; a
    leading or trailing run leaves an empty piece at that end.  [cur] is
    the piece being read, reversed. *)
Fixpoint splitGo (cur : string) (inGap : bool) (s : string) : list string :=
  match s with
  | "" => [String.rev cur]
  | String c r =>
      if isSpace c then
        if inGap then splitGo cur true r
        else String.rev cur :: splitGo "" true r
      else splitGo (String c cur) false r
  end.

Definition splitSpaces (s : string) : list string := splitGo "" false s.

(** [s.split(/\s+/).filter(term => term.length > 0)]. *)
Definition searchTermsOf (s : string) : list string :=
  List.filter (fun term => 0 <? String.length term) (splitSpaces s).

(** [s.trim()]. *)
Definition trimStart (s : string) : string := dropWhile isSpace s.
Definition trim (s : string) : string :=
  String.rev (dropWhile isSpace (String.rev (trimStart s))).

(** [parts.join(sep)]. *)
Fixpoint join (sep : string) (parts : list string) : string :=
  match parts with
  | [] => ""
  | [p] => p
  | p :: rest => p +:+ sep +:+ join sep rest
  end.

(** [Array.prototype.sort()] without a comparator orders strings by their
    code units; the sort is stable.  Insertion from the right keeps equal
    keys in their order. *)
Fixpoint insertSorted (x : string) (l : list string) : list string :=
  match l with
  | [] => [x]
  | y :: l' => if String.leb x y then x :: l else y :: insertSorted x l'
  end.

Definition sort (l : list string) : list string :=
  foldr insertSorted [] l.

(** [Array.from(new Set(xs))]: the values in order of first occurrence. *)
Fixpoint uniqueGo (seen : list string) (xs : list string) : list string :=
  match xs with
  | [] => []
  | x :: xs' =>
      if bool_decide (x ∈ seen) then uniqueGo seen xs'
      else x :: uniqueGo (x :: seen) xs'
  end.

Definition unique (xs : list string) : list string := uniqueGo [] xs.

(** [arr.includes(x)] on an array of strings. *)
Definition arrayIncludes (arr : list string) (x : string) : bool :=
  existsb (String.eqb x) arr.

(** [String.prototype.toUpperCase].  Below 256 the letters with an upper
    case are [a] to [z] and the units 224 to 254 (small a with grave to
    small thorn) but 247, the division sign, whose upper case is 32
    before; the sharp s (223), whose upper case is the two letters [SS];
    the micro sign (181) and the small y with diaeresis (255), whose
    upper cases are U+039C and U+0178: no [string] holds them, and the
    result is [None]. *)
Definition upperChar (c : ascii) : option string :=
  let n := nat_of_ascii c in
  if ((97 <=? n) && (n <=? 122))
     || ((224 <=? n) && (n <=? 254) && negb (n =? 247))
  then Some (String (ascii_of_nat (n - 32)) "")
  else if n =? 223 then Some "SS"
  else if (n =? 181) || (n =? 255) then None
  else Some (String c "").

Fixpoint toUpperCase (s : string) : option string :=
  match s with
  | "" => Some ""
  | String c r =>
      match upperChar c, toUpperCase r with
      | Some upper, Some rest => Some (upper +:+ rest)
      | _, _ => None
      end
  end.


(** [s.split(sep)] for a separator of one character: the pieces between
    the separators, empty pieces included; the empty string gives one
    empty piece. *)
Fixpoint splitOn (sep : ascii) (s : string) : list string :=
  match s with
  | "" => [""]
  | String c r =>
      if Ascii.eqb c sep then "" :: splitOn sep r
      else
        match splitOn sep r with
        | piece :: pieces => String c piece :: pieces
        | [] => [String c ""]
        end
  end.

(** [text.endsWith(pat)]. *)
Definition endsWith (text pat : string) : bool :=
  startsWith (String.rev text) (String.rev pat).

(** [s.slice(0, -1)]: all but the last character. *)
Definition dropLast (s : string) : string :=
  String.substring 0 (String.length s - 1) s.

(** The two relations the specification speaks of. *)
Definition Substring (pat text : string) : Prop :=
  exists pre post, text = pre +:+ pat +:+ post.

(** [Subsequence q t]: the characters of [q] occur in [t] in order. *)
Inductive Subsequence : string -> string -> Prop :=
| subseq_empty t : Subsequence "" t
| subseq_take c q t : Subsequence q t -> Subsequence (String c q) (String c t)
| subseq_skip c q t : Subsequence q t -> Subsequence q (String c t).

(** A text split on white space.  [Words s ws]: [ws] are the maximal
    runs of characters of [s] that are not white space, in their order.
    Either [s] is white space throughout and has no word; or [s] is a gap
    of white space, then a word, which is not empty, holds no white space
    and ends where [s] ends or white space begins, then a rest with its
    own words. *)
Definition endsWord (rest : string) : bool :=
  match rest with
  | "" => true
  | String c _ => isSpace c
  end.

Inductive Words : string -> list string -> Prop :=
| words_none gap : allChars isSpace gap = true -> Words gap []
| words_more gap word rest ws :
    allChars isSpace gap = true ->
    word <> "" ->
    allChars (fun c => negb (isSpace c)) word = true ->
    endsWord rest = true ->
    Words rest ws ->
    Words (gap +:+ word +:+ rest) (word :: ws).

End Str.

(** ** Data model *)

(** [interface KubeResource]; [namespace] is optional. *)
Record KubeResource := {
  kind : string;
  name : string;
  namespace : option string;
  uid : string;
  apiVersion : string
}.

(** [interface SearchResult]. *)
Record SearchResult := {
  resource : KubeResource;
  displayText : string;
  matchScore : Q
}.

(** [Filter.type]. *)
Inductive FilterType := FKind | FNamespace | FNode.

(** [interface Filter]. *)
Record Filter := {
  ftype : FilterType;
  fvalue : string
}.

#[global] Instance FilterType_eq_dec : EqDecision FilterType.
Proof. solve_decision. Defined.

#[global] Instance Filter_eq_dec : EqDecision Filter.
Proof. solve_decision. Defined.

#[global] Instance KubeResource_eq_dec : EqDecision KubeResource.
Proof. solve_decision. Defined.

(** ** Fuzzy search *)

Module Search.
Import Str.

(** [getDisplayText]: a namespace that is absent or empty is falsy. *)
Definition getDisplayText (r : KubeResource) : string :=
  match namespace r with
  | Some ns =>
      if String.eqb ns "" then kind r +:+ "/" +:+ name r
      else kind r +:+ "/" +:+ ns +:+ "/" +:+ name r
  | None => kind r +:+ "/" +:+ name r
  end.

(** The loop of [fuzzyMatch]: [i] runs over [text] while
    [queryIndex < query.length]; the result is the pair
    [(score, queryIndex)] when the loop stops. *)
Fixpoint fuzzyLoop (text query : string) (score queryIndex : nat) : nat * nat :=
  match text with
  | "" => (score, queryIndex)
  | String c text' =>
      if queryIndex <? String.length query then
        if bool_decide (String.get queryIndex query = Some c)
        then fuzzyLoop text' query (S score) (S queryIndex)
        else fuzzyLoop text' query score queryIndex
      else (score, queryIndex)
  end.

(** [fuzzyMatch(text, query)].  For the empty query JavaScript returns
    [0 / 0], which is NaN; [Q] gives 0 there.  Both fail the test
    [fuzzyScore > 0] of the only caller, which passes non-empty terms. *)
Definition fuzzyMatch (text query : string) : Q :=
  let '(score, queryIndex) := fuzzyLoop text query 0 0 in
  if queryIndex =? String.length query
  then (inject_Z (Z.of_nat score) / inject_Z (Z.of_nat (String.length query)))%Q
  else 0%Q.

End Search.

(** ** The correlated message channel

    [requestResourcesFromIframe], [requestDeleteResourceFromIframe] and
    [requestLogsFromIframe] share one shape: the promise executor draws a
    request id, arms a 10000 ms timer, registers a [message] listener on
    [window] and posts the request.  Each call creates its own closure;
    [Request] holds the variables of one closure together with what the
    event loop knows about it: whether its listener is registered, whether
    its timer is armed, how its promise is settled. *)

Module Channel.

Inductive RequestKind := GetResources | DeleteResource | OpenLogs.

#[global] Instance RequestKind_eq_dec : EqDecision RequestKind.
Proof. solve_decision. Defined.

(** The [type] tag of the response a request waits for. *)
Definition responseType (k : RequestKind) : string :=
  match k with
  | GetResources => "k-menu-resources-response"
  | DeleteResource => "k-menu-delete-response"
  | OpenLogs => "k-menu-logs-response"
  end.

(** The message of the error the timer rejects with. *)
Definition timeoutMessage (k : RequestKind) : string :=
  match k with
  | GetResources => "Resource request timeout"
  | DeleteResource => "Delete request timeout"
  | OpenLogs => "Logs request timeout"
  end.

(** The delay given to [setTimeout], in milliseconds. *)
Definition TIMEOUT_MS : Z := 10000.

(** What [postMessage] sends to a cluster frame. *)
Inductive Outgoing :=
| MsgGetResources (requestId : string)
| MsgDeleteResource (requestId : string) (target : KubeResource)
| MsgOpenLogs (requestId : string) (target : KubeResource)
| MsgNavigateToResource (clusterId : string) (target : KubeResource).

(** [event.data] of a [message] event.  A frame may send anything; data
    without a [type] behaves like data of an unknown type. *)
Record MessageData := {
  msgType : string;
  msgRequestId : option string;
  msgError : option string;
  msgResources : option (list KubeResource);
  msgClusterId : option string
}.

(** How a promise stands.  [resolve] carries the resources (the empty
    list for the two requests that resolve with nothing). *)
Inductive Settlement :=
| Pending
| Resolved (value : list KubeResource)
| Rejected (message : string).

Record Request := {
  rkind : RequestKind;
  requestId : string;
  deadline : Z;            (* when the timer is due *)
  listening : bool;        (* [messageHandler] is registered on [window] *)
  timerArmed : bool;       (* the timeout has neither fired nor been cleared *)
  promise : Settlement;
  cleanups : nat           (* how often [cleanup] has run *)
}.

(** The part of [window] the channel uses: a clock, the closures of the
    requests made so far, and the messages posted to frames. *)
Record Window := {
  clock : Z;
  requests : list Request;
  posted : list (nat * Outgoing)
}.

Definition emptyWindow : Window :=
  {| clock := 0; requests := []; posted := [] |}.

(** [cleanup()]: [clearTimeout(timeout)] and [removeEventListener]. *)
Definition cleanup (r : Request) : Request :=
  {| rkind := rkind r; requestId := requestId r; deadline := deadline r;
     listening := false; timerArmed := false;
     promise := promise r; cleanups := S (cleanups r) |}.

(** [resolve] and [reject] settle a promise once; later calls do nothing. *)
Definition settle (o : Settlement) (r : Request) : Request :=
  match promise r with
  | Pending =>
      {| rkind := rkind r; requestId := requestId r; deadline := deadline r;
         listening := listening r; timerArmed := timerArmed r;
         promise := o; cleanups := cleanups r |}
  | _ => r
  end.

(** A JavaScript string is truthy when it is present and not empty. *)
Definition truthy (s : option string) : bool :=
  match s with
  | Some v => negb (String.eqb v "")
  | None => false
  end.

(** The test at the head of [messageHandler]. *)
Definition matches (r : Request) (data : option MessageData) : bool :=
  match data with
  | Some d =>
      String.eqb (msgType d) (responseType (rkind r))
      && bool_decide (msgRequestId d = Some (requestId r))
  | None => false
  end.

(** What a success resolves with: [event.data.resources || []] for a
    request for resources, nothing for the other two. *)
Definition resolvedValue (k : RequestKind) (resources : option (list KubeResource))
    : list KubeResource :=
  match k with
  | GetResources => default [] resources
  | DeleteResource | OpenLogs => []
  end.

(** [messageHandler(event)]. *)
Definition messageHandler (data : option MessageData) (r : Request) : Request :=
  match data with
  | Some d =>
      if matches r data then
        let k := rkind r in
        let r := cleanup r in
        if truthy (msgError d)
        then settle (Rejected (default "" (msgError d))) r
        else settle (Resolved (resolvedValue k (msgResources d))) r
      else r
  | None => r
  end.

(** The callback given to [setTimeout]. *)
Definition onTimeout (r : Request) : Request :=
  settle (Rejected (timeoutMessage (rkind r))) (cleanup r).

(** The body of the promise executor.  [requestId] stands for
    [Math.random().toString(36).substring(7)]. *)
Definition outgoingOf (k : RequestKind) (requestId : string)
    (target : option KubeResource) : option Outgoing :=
  match k, target with
  | GetResources, _ => Some (MsgGetResources requestId)
  | DeleteResource, Some t => Some (MsgDeleteResource requestId t)
  | OpenLogs, Some t => Some (MsgOpenLogs requestId t)
  | _, None => None
  end.

Definition newRequest (k : RequestKind) (requestId : string) (now : Z) : Request :=
  {| rkind := k; requestId := requestId; deadline := now + TIMEOUT_MS;
     listening := true; timerArmed := true; promise := Pending; cleanups := 0 |}.

Definition request (k : RequestKind) (requestId : string) (iframe : nat)
    (target : option KubeResource) (w : Window) : Window :=
  {| clock := clock w;
     requests := requests w ++ [newRequest k requestId (clock w)];
     posted := posted w ++
               match outgoingOf k requestId target with
               | Some m => [(iframe, m)]
               | None => []
               end |}.

(** A fire-and-forget [postMessage]. *)
Definition post (iframe : nat) (m : Outgoing) (w : Window) : Window :=
  {| clock := clock w; requests := requests w;
     posted := posted w ++ [(iframe, m)] |}.

(** What the event loop does.  A [message] event runs every registered
    listener; when time passes, the timers that are due run.  Timers are
    taken to fire as soon as they are due. *)
Inductive Event :=
| Message (data : option MessageData)
| Elapse (ms : Z).

Definition dispatchMessage (data : option MessageData) (w : Window) : Window :=
  {| clock := clock w;
     requests := map (fun r => if listening r then messageHandler data r else r)
                     (requests w);
     posted := posted w |}.

Definition elapse (ms : Z) (w : Window) : Window :=
  let now := (clock w + Z.max 0 ms)%Z in
  {| clock := now;
     requests := map (fun r => if timerArmed r && (deadline r <=? now)%Z
                               then onTimeout r else r)
                     (requests w);
     posted := posted w |}.

Definition step (e : Event) (w : Window) : Window :=
  match e with
  | Message data => dispatchMessage data w
  | Elapse ms => elapse ms w
  end.

Definition run (evs : list Event) (w : Window) : Window :=
  foldl (fun w e => step e w) w evs.

(** The listeners registered on [window]. *)
Definition registeredListeners (w : Window) : list Request :=
  List.filter listening (requests w).

(** The time that passes in a run of events. *)
Definition elapsed (evs : list Event) : Z :=
  foldr (fun e acc => match e with Elapse ms => Z.max 0 ms + acc | _ => acc end)%Z
        0%Z evs.

(** No event of the run is a response to request [r]. *)
Definition unanswered (r : Request) (evs : list Event) : Prop :=
  Forall (fun e => match e with
                   | Message data => matches r data = false
                   | Elapse _ => True
                   end) evs.

(** *** One request through a run of events *)

(** The clock after an event. *)
Definition advance (e : Event) (now : Z) : Z :=
  match e with
  | Message _ => now
  | Elapse ms => (now + Z.max 0 ms)%Z
  end.

(** What an event does to one request; [now] is the clock after it. *)
Definition stepRequest (e : Event) (now : Z) (r : Request) : Request :=
  match e with
  | Message data => if listening r then messageHandler data r else r
  | Elapse _ => if timerArmed r && (deadline r <=? now)%Z then onTimeout r else r
  end.

Fixpoint runRequest (evs : list Event) (now : Z) (r : Request) : Request :=
  match evs with
  | [] => r
  | e :: evs' => runRequest evs' (advance e now) (stepRequest e (advance e now) r)
  end.

(** A request is waiting: nothing has settled it, its listener and its
    timer are in place, [cleanup] has not run. *)
Definition waiting (r : Request) : Prop :=
  promise r = Pending /\ listening r = true /\ timerArmed r = true
  /\ cleanups r = 0.

(** A request is finished: it is settled, its listener and its timer are
    gone, [cleanup] has run once. *)
Definition finished (r : Request) : Prop :=
  promise r <> Pending /\ listening r = false /\ timerArmed r = false
  /\ cleanups r = 1.

(** A request has timed out. *)
Definition timedOut (r : Request) : Prop :=
  promise r = Rejected (timeoutMessage (rkind r)) /\ finished r.

(** Every request of the window is waiting with a timer that is not yet
    due and is due within the timeout, or finished. *)
Definition sound (w : Window) : Prop :=
  Forall (fun r => (waiting r
                    /\ (clock w < deadline r <= clock w + TIMEOUT_MS)%Z)
                   \/ finished r)
         (requests w).

(** The windows the palette can be in: requests are made and events
    happen, in any order. *)
Inductive reachable : Window -> Prop :=
| reachable_empty : reachable emptyWindow
| reachable_request k requestId iframe target w :
    reachable w -> reachable (request k requestId iframe target w)
| reachable_post iframe m w :
    reachable w -> reachable (post iframe m w)
| reachable_step e w :
    reachable w -> reachable (step e w).

(** A list of [n] requests for resources with ids of their own. *)
Definition manyRequests (n : nat) : list (RequestKind * string) :=
  map (fun i => (GetResources, string_of_list_ascii (repeat "r"%char (S i))))
      (seq 0 n).

(** Several requests made in a row. *)
Definition requestAll (reqs : list (RequestKind * string)) (iframe : nat)
    (target : option KubeResource) (w : Window) : Window :=
  foldl (fun w '(k, requestId) => request k requestId iframe target w) w reqs.

(** A response to a request: a success carrying resources, or an error. *)
Definition response (r : Request) (error : option string)
    (resources : option (list KubeResource)) : MessageData :=
  {| msgType := responseType (rkind r); msgRequestId := Some (requestId r);
     msgError := error; msgResources := resources; msgClusterId := None |}.

End Channel.

(** ** The keyboard shortcut

    The preferences of [src/common/store/preferences-store.ts], the field
    that records a shortcut in
    [src/renderer/preferences/k-menu-preference.tsx], and the test
    [matchesShortcut], which the palette and the renderer of a cluster
    frame both carry, word for word. *)

Module Shortcut.
Import Str.

(** The fields of a [KeyboardEvent] that are read. *)
Record KeyboardEvent := {
  key : string;
  metaKey : bool;
  ctrlKey : bool;
  altKey : bool;
  shiftKey : bool
}.

(** [interface KMenuPreferencesModel]. *)
Record KMenuPreferencesModel := {
  enabled : bool;
  keyboardShortcut : string
}.

(** The [defaults] of the store. *)
Definition defaults : KMenuPreferencesModel :=
  {| enabled := true; keyboardShortcut := "Cmd+K" |}.

(** [preferences.keyboardShortcut || "Cmd+K"]. *)
Definition shortcutOr (preferences : KMenuPreferencesModel) : string :=
  if String.eqb (keyboardShortcut preferences) "" then "Cmd+K"
  else keyboardShortcut preferences.

(** [shortcut.toLowerCase().split("+").map(p => p.trim())]. *)
Definition partsOf (shortcut : string) : list string :=
  map trim (splitOn "+" (toLowerCase shortcut)).

(** [parts[parts.length - 1]]; [split] gives at least one piece. *)
Definition keyOf (shortcut : string) : string :=
  List.last (partsOf shortcut) "".

(** [parts.slice(0, -1)]. *)
Definition modifiersOf (shortcut : string) : list string :=
  List.removelast (partsOf shortcut).

Definition hasCmd (shortcut : string) : bool :=
  arrayIncludes (modifiersOf shortcut) "cmd"
  || arrayIncludes (modifiersOf shortcut) "meta".

Definition hasCtrl (shortcut : string) : bool :=
  arrayIncludes (modifiersOf shortcut) "ctrl".

Definition hasAlt (shortcut : string) : bool :=
  arrayIncludes (modifiersOf shortcut) "alt".

Definition hasShift (shortcut : string) : bool :=
  arrayIncludes (modifiersOf shortcut) "shift".

(** [matchesShortcut(event, shortcut)]; every [if] of the source is one
    [if] here, in the same order. *)
Definition matchesShortcut (event : KeyboardEvent) (shortcut : string) : bool :=
  if negb (String.eqb (toLowerCase (key event)) (keyOf shortcut)) then false
  else
    let hasCmd := hasCmd shortcut in
    let hasCtrl := hasCtrl shortcut in
    let hasAlt := hasAlt shortcut in
    let hasShift := hasShift shortcut in
    let cmdPressed := metaKey event || (hasCtrl && ctrlKey event) in
    let ctrlPressed := ctrlKey event in
    let altPressed := altKey event in
    let shiftPressed := shiftKey event in
    if hasCmd && negb cmdPressed then false
    else if hasCtrl && negb ctrlPressed then false
    else if hasAlt && negb altPressed then false
    else if hasShift && negb shiftPressed then false
    else if negb hasCmd && (metaKey event || (ctrlKey event && negb hasCtrl))
    then false
    else if negb hasCtrl && ctrlKey event && negb cmdPressed then false
    else if negb hasAlt && altKey event then false
    else if negb hasShift && shiftKey event then false
    else true.

(** *** Recording a shortcut *)

(** The shortcut field of the preferences page: the stored preferences
    and the state [isRecording]. *)
Record ShortcutField := {
  preferences : KMenuPreferencesModel;
  isRecording : bool
}.

(** The modifiers [handleKeyDown] pushes, in its order. *)
Definition pressedModifiers (e : KeyboardEvent) : list string :=
  (if metaKey e then ["Cmd"] else [])
  ++ (if ctrlKey e then ["Ctrl"] else [])
  ++ (if altKey e then ["Alt"] else [])
  ++ (if shiftKey e then ["Shift"] else []).

(** [key.length === 1 ? key.toUpperCase() : key]; [key.length] counts
    code units.  [None] when the upper case is no [string]. *)
Definition formattedKey (key : string) : option string :=
  if String.length key =? 1 then toUpperCase key else Some key.

(** [[...modifiers, formattedKey].join("+")]. *)
Definition shortcutFor (e : KeyboardEvent) : option string :=
  match formattedKey (key e) with
  | Some formatted => Some (join "+" (pressedModifiers e ++ [formatted]))
  | None => None
  end.

(** [handleKeyDown] of [KMenuPreferenceInput]: outside a recording, and
    for a press of a modifier alone, nothing is stored.  [None] when the
    shortcut stored is no [string]. *)
Definition handleKeyDown (e : KeyboardEvent) (f : ShortcutField)
    : option ShortcutField :=
  if negb (isRecording f) then Some f
  else if arrayIncludes ["Meta"; "Control"; "Alt"; "Shift"] (key e) then Some f
  else
    match shortcutFor e with
    | Some shortcut =>
        Some {| preferences := {| enabled := enabled (preferences f);
                                  keyboardShortcut := shortcut |};
                isRecording := false |}
    | None => None
    end.

(** *** The host name of a cluster frame *)

(** The class of the characters [a] to [f] and [0] to [9]. *)
Definition isHexDigit (c : ascii) : bool :=
  let n := nat_of_ascii c in
  ((48 <=? n) && (n <=? 57)) || ((97 <=? n) && (n <=? 102)).

Definition clusterHostSuffix : string := ".renderer.freelens.app".

(** [hostname.match(...)] for the pattern that reads, from start to end,
    one or more characters of the class above and then
    [.renderer.freelens.app]: the group, when the pattern matches.  The
    dot is not in the class, so the run of the class is taken whole. *)
Definition matchClusterHost (hostname : string) : option string :=
  let clusterId := takeWhile isHexDigit hostname in
  let rest := dropWhile isHexDigit hostname in
  if String.eqb clusterId "" then None
  else if String.eqb rest clusterHostSuffix then Some clusterId
  else None.

End Shortcut.

(** ** The palette *)

Module Palette.
Import Str Search.

(** The closures stored in [Command.execute], one constructor per closure
    built by [buildNavigationCommands] and [initializeCommands]. *)
Inductive Effect :=
| SwitchCluster (clusterId clusterName : string)
| ViewLogs
| Describe
| Delete
| Refresh.

(** [interface Command]; an absent [requiresResource] is falsy. *)
Record Command := {
  id : string;
  label : string;
  description : string;
  requiresResource : bool;
  resourceTypes : option (list string);
  execute : Effect
}.

(** What the last render put into [resultsList]. *)
Inductive View :=
| VResults (items : list SearchResult) (selected : Z)
| VEmpty (text : string)
| VCommands (items : list Command) (selected : Z)
| VCommandResources (header : string) (items : list KubeResource) (selected : Z).

Inductive HostCall :=
| NavigateToCluster (clusterId : string)
| NavigateToResource (clusterId : string) (target : KubeResource).

(** Keys told apart by [handleKeyDown]. *)
Inductive Key := Tab | Escape | ArrowDown | ArrowUp | Enter | OtherKey.

(** What the host answers during one call: the user's answer to
    [confirm], the id drawn by [Math.random], the cluster id found in
    [window.location.hostname]. *)
Record Env := {
  confirmed : bool;
  freshId : string;
  hostCluster : option string
}.

(** A text given to [alert] or [confirm].  Some of these texts open, in
    the source, with a pictograph (a warning sign, a check mark, a
    cross), which no [string] holds: a text is its mark, when it has
    one, followed by the characters of [body]. *)
Inductive Mark := WarningSign | CheckMark | CrossMark.

Record Text := {
  mark : option Mark;
  body : string
}.

(** A text without a mark. *)
Definition unmarked (s : string) : Text := {| mark := None; body := s |}.

Coercion unmarked : string >-> Text.

Definition marked (m : Mark) (s : string) : Text :=
  {| mark := Some m; body := s |}.

Record Palette := {
  isOpen : bool;
  inputValue : string;   (* [this.input.value] *)
  selectedIndex : Z;
  results : list SearchResult;
  allResources : list KubeResource;
  activeFilters : list Filter;
  autocompleteSuggestions : list string;
  autocompleteSelectedIndex : Z;
  autocompleteFilterType : option FilterType;
  isCommandMode : bool;
  availableCommands : list Command;
  selectedCommandIndex : Z;
  activeCommand : option Command;
  commandSearchQuery : string;
  resourceCache : gmap string (list KubeResource);
  currentClusterId : option string;
  searchDebounceTimer : option Z;   (* when the pending search is due *)
  activeIframeSource : option nat;   (* the frame of the active cluster *)
  view : View;   (* what [resultsList] shows *)
  loadingShown : bool;   (* [loadingIndicator] shown, [resultsList] hidden *)
  window : Channel.Window;
  alerts : list Text;   (* texts passed to [alert] *)
  confirms : list Text;   (* texts passed to [confirm] *)
  invoked : list (Command * option KubeResource);   (* calls of [command.execute] *)
  hostCalls : list HostCall   (* calls of [NavigationService] *)
}.

(** Assignments to the fields of [this]. *)
Definition set_isOpen (v : bool) (st : Palette) : Palette :=
  let 'Build_Palette _ x1 x2 x3 x4 x5 x6 x7 x8 x9 x10 x11 x12 x13 x14 x15 x16 x17 x18 x19 x20 x21 x22 x23 x24 := st in
  Build_Palette v x1 x2 x3 x4 x5 x6 x7 x8 x9 x10 x11 x12 x13 x14 x15 x16 x17 x18 x19 x20 x21 x22 x23 x24.
Definition set_inputValue (v : string) (st : Palette) : Palette :=
  let 'Build_Palette x0 _ x2 x3 x4 x5 x6 x7 x8 x9 x10 x11 x12 x13 x14 x15 x16 x17 x18 x19 x20 x21 x22 x23 x24 := st in
  Build_Palette x0 v x2 x3 x4 x5 x6 x7 x8 x9 x10 x11 x12 x13 x14 x15 x16 x17 x18 x19 x20 x21 x22 x23 x24.
Definition set_selectedIndex (v : Z) (st : Palette) : Palette :=
  let 'Build_Palette x0 x1 _ x3 x4 x5 x6 x7 x8 x9 x10 x11 x12 x13 x14 x15 x16 x17 x18 x19 x20 x21 x22 x23 x24 := st in
  Build_Palette x0 x1 v x3 x4 x5 x6 x7 x8 x9 x10 x11 x12 x13 x14 x15 x16 x17 x18 x19 x20 x21 x22 x23 x24.
Definition set_results (v : list SearchResult) (st : Palette) : Palette :=
  let 'Build_Palette x0 x1 x2 _ x4 x5 x6 x7 x8 x9 x10 x11 x12 x13 x14 x15 x16 x17 x18 x19 x20 x21 x22 x23 x24 := st in
  Build_Palette x0 x1 x2 v x4 x5 x6 x7 x8 x9 x10 x11 x12 x13 x14 x15 x16 x17 x18 x19 x20 x21 x22 x23 x24.
Definition set_allResources (v : list KubeResource) (st : Palette) : Palette :=
  let 'Build_Palette x0 x1 x2 x3 _ x5 x6 x7 x8 x9 x10 x11 x12 x13 x14 x15 x16 x17 x18 x19 x20 x21 x22 x23 x24 := st in
  Build_Palette x0 x1 x2 x3 v x5 x6 x7 x8 x9 x10 x11 x12 x13 x14 x15 x16 x17 x18 x19 x20 x21 x22 x23 x24.
Definition set_activeFilters (v : list Filter) (st : Palette) : Palette :=
  let 'Build_Palette x0 x1 x2 x3 x4 _ x6 x7 x8 x9 x10 x11 x12 x13 x14 x15 x16 x17 x18 x19 x20 x21 x22 x23 x24 := st in
  Build_Palette x0 x1 x2 x3 x4 v x6 x7 x8 x9 x10 x11 x12 x13 x14 x15 x16 x17 x18 x19 x20 x21 x22 x23 x24.
Definition set_autocompleteSuggestions (v : list string) (st : Palette) : Palette :=
  let 'Build_Palette x0 x1 x2 x3 x4 x5 _ x7 x8 x9 x10 x11 x12 x13 x14 x15 x16 x17 x18 x19 x20 x21 x22 x23 x24 := st in
  Build_Palette x0 x1 x2 x3 x4 x5 v x7 x8 x9 x10 x11 x12 x13 x14 x15 x16 x17 x18 x19 x20 x21 x22 x23 x24.
Definition set_autocompleteSelectedIndex (v : Z) (st : Palette) : Palette :=
  let 'Build_Palette x0 x1 x2 x3 x4 x5 x6 _ x8 x9 x10 x11 x12 x13 x14 x15 x16 x17 x18 x19 x20 x21 x22 x23 x24 := st in
  Build_Palette x0 x1 x2 x3 x4 x5 x6 v x8 x9 x10 x11 x12 x13 x14 x15 x16 x17 x18 x19 x20 x21 x22 x23 x24.
Definition set_autocompleteFilterType (v : option FilterType) (st : Palette) : Palette :=
  let 'Build_Palette x0 x1 x2 x3 x4 x5 x6 x7 _ x9 x10 x11 x12 x13 x14 x15 x16 x17 x18 x19 x20 x21 x22 x23 x24 := st in
  Build_Palette x0 x1 x2 x3 x4 x5 x6 x7 v x9 x10 x11 x12 x13 x14 x15 x16 x17 x18 x19 x20 x21 x22 x23 x24.
Definition set_isCommandMode (v : bool) (st : Palette) : Palette :=
  let 'Build_Palette x0 x1 x2 x3 x4 x5 x6 x7 x8 _ x10 x11 x12 x13 x14 x15 x16 x17 x18 x19 x20 x21 x22 x23 x24 := st in
  Build_Palette x0 x1 x2 x3 x4 x5 x6 x7 x8 v x10 x11 x12 x13 x14 x15 x16 x17 x18 x19 x20 x21 x22 x23 x24.
Definition set_availableCommands (v : list Command) (st : Palette) : Palette :=
  let 'Build_Palette x0 x1 x2 x3 x4 x5 x6 x7 x8 x9 _ x11 x12 x13 x14 x15 x16 x17 x18 x19 x20 x21 x22 x23 x24 := st in
  Build_Palette x0 x1 x2 x3 x4 x5 x6 x7 x8 x9 v x11 x12 x13 x14 x15 x16 x17 x18 x19 x20 x21 x22 x23 x24.
Definition set_selectedCommandIndex (v : Z) (st : Palette) : Palette :=
  let 'Build_Palette x0 x1 x2 x3 x4 x5 x6 x7 x8 x9 x10 _ x12 x13 x14 x15 x16 x17 x18 x19 x20 x21 x22 x23 x24 := st in
  Build_Palette x0 x1 x2 x3 x4 x5 x6 x7 x8 x9 x10 v x12 x13 x14 x15 x16 x17 x18 x19 x20 x21 x22 x23 x24.
Definition set_activeCommand (v : option Command) (st : Palette) : Palette :=
  let 'Build_Palette x0 x1 x2 x3 x4 x5 x6 x7 x8 x9 x10 x11 _ x13 x14 x15 x16 x17 x18 x19 x20 x21 x22 x23 x24 := st in
  Build_Palette x0 x1 x2 x3 x4 x5 x6 x7 x8 x9 x10 x11 v x13 x14 x15 x16 x17 x18 x19 x20 x21 x22 x23 x24.
Definition set_commandSearchQuery (v : string) (st : Palette) : Palette :=
  let 'Build_Palette x0 x1 x2 x3 x4 x5 x6 x7 x8 x9 x10 x11 x12 _ x14 x15 x16 x17 x18 x19 x20 x21 x22 x23 x24 := st in
  Build_Palette x0 x1 x2 x3 x4 x5 x6 x7 x8 x9 x10 x11 x12 v x14 x15 x16 x17 x18 x19 x20 x21 x22 x23 x24.
Definition set_resourceCache (v : gmap string (list KubeResource)) (st : Palette) : Palette :=
  let 'Build_Palette x0 x1 x2 x3 x4 x5 x6 x7 x8 x9 x10 x11 x12 x13 _ x15 x16 x17 x18 x19 x20 x21 x22 x23 x24 := st in
  Build_Palette x0 x1 x2 x3 x4 x5 x6 x7 x8 x9 x10 x11 x12 x13 v x15 x16 x17 x18 x19 x20 x21 x22 x23 x24.
Definition set_currentClusterId (v : option string) (st : Palette) : Palette :=
  let 'Build_Palette x0 x1 x2 x3 x4 x5 x6 x7 x8 x9 x10 x11 x12 x13 x14 _ x16 x17 x18 x19 x20 x21 x22 x23 x24 := st in
  Build_Palette x0 x1 x2 x3 x4 x5 x6 x7 x8 x9 x10 x11 x12 x13 x14 v x16 x17 x18 x19 x20 x21 x22 x23 x24.
Definition set_searchDebounceTimer (v : option Z) (st : Palette) : Palette :=
  let 'Build_Palette x0 x1 x2 x3 x4 x5 x6 x7 x8 x9 x10 x11 x12 x13 x14 x15 _ x17 x18 x19 x20 x21 x22 x23 x24 := st in
  Build_Palette x0 x1 x2 x3 x4 x5 x6 x7 x8 x9 x10 x11 x12 x13 x14 x15 v x17 x18 x19 x20 x21 x22 x23 x24.
Definition set_activeIframeSource (v : option nat) (st : Palette) : Palette :=
  let 'Build_Palette x0 x1 x2 x3 x4 x5 x6 x7 x8 x9 x10 x11 x12 x13 x14 x15 x16 _ x18 x19 x20 x21 x22 x23 x24 := st in
  Build_Palette x0 x1 x2 x3 x4 x5 x6 x7 x8 x9 x10 x11 x12 x13 x14 x15 x16 v x18 x19 x20 x21 x22 x23 x24.
Definition set_view (v : View) (st : Palette) : Palette :=
  let 'Build_Palette x0 x1 x2 x3 x4 x5 x6 x7 x8 x9 x10 x11 x12 x13 x14 x15 x16 x17 _ x19 x20 x21 x22 x23 x24 := st in
  Build_Palette x0 x1 x2 x3 x4 x5 x6 x7 x8 x9 x10 x11 x12 x13 x14 x15 x16 x17 v x19 x20 x21 x22 x23 x24.
Definition set_loadingShown (v : bool) (st : Palette) : Palette :=
  let 'Build_Palette x0 x1 x2 x3 x4 x5 x6 x7 x8 x9 x10 x11 x12 x13 x14 x15 x16 x17 x18 _ x20 x21 x22 x23 x24 := st in
  Build_Palette x0 x1 x2 x3 x4 x5 x6 x7 x8 x9 x10 x11 x12 x13 x14 x15 x16 x17 x18 v x20 x21 x22 x23 x24.
Definition set_window (v : Channel.Window) (st : Palette) : Palette :=
  let 'Build_Palette x0 x1 x2 x3 x4 x5 x6 x7 x8 x9 x10 x11 x12 x13 x14 x15 x16 x17 x18 x19 _ x21 x22 x23 x24 := st in
  Build_Palette x0 x1 x2 x3 x4 x5 x6 x7 x8 x9 x10 x11 x12 x13 x14 x15 x16 x17 x18 x19 v x21 x22 x23 x24.
Definition set_alerts (v : list Text) (st : Palette) : Palette :=
  let 'Build_Palette x0 x1 x2 x3 x4 x5 x6 x7 x8 x9 x10 x11 x12 x13 x14 x15 x16 x17 x18 x19 x20 _ x22 x23 x24 := st in
  Build_Palette x0 x1 x2 x3 x4 x5 x6 x7 x8 x9 x10 x11 x12 x13 x14 x15 x16 x17 x18 x19 x20 v x22 x23 x24.
Definition set_confirms (v : list Text) (st : Palette) : Palette :=
  let 'Build_Palette x0 x1 x2 x3 x4 x5 x6 x7 x8 x9 x10 x11 x12 x13 x14 x15 x16 x17 x18 x19 x20 x21 _ x23 x24 := st in
  Build_Palette x0 x1 x2 x3 x4 x5 x6 x7 x8 x9 x10 x11 x12 x13 x14 x15 x16 x17 x18 x19 x20 x21 v x23 x24.
Definition set_invoked (v : list (Command * option KubeResource)) (st : Palette) : Palette :=
  let 'Build_Palette x0 x1 x2 x3 x4 x5 x6 x7 x8 x9 x10 x11 x12 x13 x14 x15 x16 x17 x18 x19 x20 x21 x22 _ x24 := st in
  Build_Palette x0 x1 x2 x3 x4 x5 x6 x7 x8 x9 x10 x11 x12 x13 x14 x15 x16 x17 x18 x19 x20 x21 x22 v x24.
Definition set_hostCalls (v : list HostCall) (st : Palette) : Palette :=
  let 'Build_Palette x0 x1 x2 x3 x4 x5 x6 x7 x8 x9 x10 x11 x12 x13 x14 x15 x16 x17 x18 x19 x20 x21 x22 x23 _ := st in
  Build_Palette x0 x1 x2 x3 x4 x5 x6 x7 x8 x9 x10 x11 x12 x13 x14 x15 x16 x17 x18 x19 x20 x21 x22 x23 v.

(** [arr[i]] for a JavaScript index, which may be negative. *)
Definition item {A} (l : list A) (i : Z) : option A :=
  if (i <? 0)%Z then None else l !! Z.to_nat i.

Definition isEmpty (s : string) : bool := String.eqb s "".

(** [Math.min(i + 1, n - 1)] and [Math.max(i - 1, 0)]. *)
Definition stepDown (i : Z) (n : nat) : Z := Z.min (i + 1) (Z.of_nat n - 1).
Definition stepUp (i : Z) : Z := Z.max (i - 1) 0.

(** *** Filters *)

(** The predicate a filter gives to [Array.prototype.filter]. *)
Definition passes (f : Filter) (r : KubeResource) : bool :=
  match ftype f with
  | FKind => String.eqb (toLowerCase (kind r)) (toLowerCase (fvalue f))
  | FNamespace =>
      match namespace r with
      | Some ns => String.eqb (toLowerCase ns) (toLowerCase (fvalue f))
      | None => false
      end
  | FNode =>
      String.eqb (kind r) "Node"
      && String.eqb (toLowerCase (name r)) (toLowerCase (fvalue f))
  end.

(** [this.activeFilters.forEach(filter => ...)]: each filter narrows
    [filteredResources] in turn.  [performSearch] and
    [renderCommandResourceList] both start with this loop. *)
Definition applyActiveFilters (filters : list Filter)
    (resources : list KubeResource) : list KubeResource :=
  foldl (fun filteredResources f => List.filter (passes f) filteredResources)
        resources filters.

(** *** Ranking *)

Definition Qlt_bool (a b : Q) : bool := negb (Qle_bool b a).

(** The [for (const term of searchTerms)] loop of [performSearch];
    [None] is the early [return] with [matchScore: 0]. *)
Fixpoint scoreTerms (displayTextLower nameLower kindLower namespaceLower : string)
    (searchTerms : list string) (totalScore : Q) : option Q :=
  match searchTerms with
  | [] => Some totalScore
  | term :: rest =>
      let continue s :=
        scoreTerms displayTextLower nameLower kindLower namespaceLower rest s in
      if includes displayTextLower term then continue (totalScore + 10)%Q
      else if includes nameLower term then continue (totalScore + 8)%Q
      else if includes kindLower term then continue (totalScore + 6)%Q
      else if includes namespaceLower term then continue (totalScore + 5)%Q
      else
        let fuzzyScore := fuzzyMatch displayTextLower term in
        if Qlt_bool 0 fuzzyScore then continue (totalScore + fuzzyScore * 2)%Q
        else None
  end.

(** The function mapped over [filteredResources]. *)
Definition scoreResource (searchTerms : list string) (r : KubeResource) : SearchResult :=
  let displayText := getDisplayText r in
  let displayTextLower := toLowerCase displayText in
  let nameLower := toLowerCase (name r) in
  let kindLower := toLowerCase (kind r) in
  let namespaceLower :=
    match namespace r with Some ns => toLowerCase ns | None => "" end in
  {| resource := r; displayText := displayText;
     matchScore :=
       match scoreTerms displayTextLower nameLower kindLower namespaceLower
                        searchTerms 0%Q with
       | Some totalScore => totalScore
       | None => 0%Q
       end |}.

(** [.sort((a, b) => b.matchScore - a.matchScore)]: descending, stable. *)
Fixpoint insertByScore (x : SearchResult) (l : list SearchResult) : list SearchResult :=
  match l with
  | [] => [x]
  | y :: l' =>
      if Qle_bool (matchScore y) (matchScore x) then x :: l
      else y :: insertByScore x l'
  end.

Definition sortByScore (l : list SearchResult) : list SearchResult :=
  foldr insertByScore [] l.

Definition unranked (r : KubeResource) : SearchResult :=
  {| resource := r; displayText := getDisplayText r; matchScore := 1%Q |}.

(** The items that match, before sorting and cutting. *)
Definition matching (searchTerms : list string)
    (filteredResources : list KubeResource) : list SearchResult :=
  List.filter (fun result => Qlt_bool 0 (matchScore result))
              (map (scoreResource searchTerms) filteredResources).

(** The value assigned to [this.results] by [performSearch]. *)
Definition rank (query : string) (filteredResources : list KubeResource)
    : list SearchResult :=
  if isEmpty query then map unranked (take 50 filteredResources)
  else
    let searchTerms := searchTermsOf (toLowerCase query) in
    take 50 (sortByScore (matching searchTerms filteredResources)).

(** [renderResults]. *)
Definition renderResults (st : Palette) : Palette :=
  match results st with
  | [] =>
      set_view (VEmpty (match allResources st with
                        | [] => "Loading resources..."
                        | _ => "No resources found"
                        end)) st
  | _ => set_view (VResults (results st) (selectedIndex st)) st
  end.

(** [performSearch]. *)
Definition performSearch (st : Palette) : Palette :=
  if isCommandMode st then st
  else
    let query := inputValue st in
    let filteredResources :=
      applyActiveFilters (activeFilters st) (allResources st) in
    let st := set_results (rank query filteredResources) st in
    let st := set_selectedIndex 0 st in
    renderResults st.

(** *** Parsing the input *)

Definition dropChars (n : nat) (s : string) : string :=
  String.substring n (String.length s - n) s.

Definition lastChar (s : string) : string :=
  String.substring (String.length s - 1) 1 s.

Definition noLineTerminator (s : string) : bool :=
  allChars (fun c => negb (isLineTerminator c)) s.

(** [s.match(...)] for the pattern that reads, ignoring case, one of
    [kind], [namespace], [node], then a colon, then any run of characters
    other than line terminators up to the end: the filter type, already
    in lower case, and the text after the colon. *)
Definition matchFilterPattern (s : string) : option (FilterType * string) :=
  let lower := toLowerCase s in
  let found :=
    if startsWith lower "kind:" then Some (FKind, dropChars 5 s)
    else if startsWith lower "namespace:" then Some (FNamespace, dropChars 10 s)
    else if startsWith lower "node:" then Some (FNode, dropChars 5 s)
    else None in
  match found with
  | Some (t, rest) => if noLineTerminator rest then Some (t, rest) else None
  | None => None
  end.

(** [query.match(/^\/(\w+)(?:\s+(.+))?$/)]: the command word and the
    text after the white space, when there is one.  When only white
    space follows the word, [\s+] gives back its last character to
    [(.+)]. *)
Definition matchCommandPattern (query : string) : option (string * option string) :=
  match query with
  | String "/" afterSlash =>
      let word := takeWhile isWord afterSlash in
      let rest := dropWhile isWord afterSlash in
      if isEmpty word then None
      else if isEmpty rest then Some (word, None)
      else
        let text := dropWhile isSpace rest in
        if String.length text =? String.length rest then None
        else if isEmpty text then
          if (2 <=? String.length rest) && noLineTerminator (lastChar rest)
          then Some (word, Some (lastChar rest))
          else None
        else if noLineTerminator text then Some (word, Some text)
        else None
  | _ => None
  end.

(** [this.input.value.match(/^\/(\w+)/)]: the command word. *)
Definition matchCommandWord (value : string) : option string :=
  match value with
  | String "/" afterSlash =>
      let word := takeWhile isWord afterSlash in
      if isEmpty word then None else Some word
  | _ => None
  end.

(** *** Command list *)

(** [this.input.value.substring(1).toLowerCase()]. *)
Definition commandQuery (st : Palette) : string :=
  toLowerCase (dropChars 1 (inputValue st)).

(** The commands whose label or description contains every term; written
    out in [renderCommandList], [autocompleteCommand] and
    [executeCommand]. *)
Definition filterCommands (query : string) (commands : list Command) : list Command :=
  let searchTerms := searchTermsOf query in
  List.filter
    (fun cmd =>
       forallb (fun term => includes (toLowerCase (label cmd)) term
                            || includes (toLowerCase (description cmd)) term)
               searchTerms)
    commands.

Definition renderCommandList (st : Palette) : Palette :=
  let filteredCommands := filterCommands (commandQuery st) (availableCommands st) in
  match filteredCommands with
  | [] => set_view (VEmpty "No commands found") st
  | _ => set_view (VCommands filteredCommands (selectedCommandIndex st)) st
  end.

(** [resourceTypes?.join(sep) || fallback]. *)
Definition typesOr (sep fallback : string) (types : option (list string)) : string :=
  match types with
  | Some ts => if isEmpty (join sep ts) then fallback else join sep ts
  | None => fallback
  end.

Definition quoteMark : string := String (ascii_of_nat 34) EmptyString.

(** The last filter of [renderCommandResourceList]. *)
Definition matchesCommandQuery (searchQuery : string) (r : KubeResource) : bool :=
  includes (toLowerCase (name r)) searchQuery
  || match namespace r with
     | Some ns => includes (toLowerCase ns) searchQuery
     | None => false
     end
  || includes (toLowerCase (kind r)) searchQuery.

Definition commandResources (cmd : Command) (st : Palette) : list KubeResource :=
  let filteredResources :=
    applyActiveFilters (activeFilters st) (allResources st) in
  let filteredResources :=
    match resourceTypes cmd with
    | Some types => List.filter (fun r => arrayIncludes types (kind r)) filteredResources
    | None => filteredResources
    end in
  let filteredResources :=
    if isEmpty (commandSearchQuery st) then filteredResources
    else List.filter (matchesCommandQuery (toLowerCase (commandSearchQuery st)))
                     filteredResources in
  take 50 filteredResources.

Definition renderCommandResourceList (st : Palette) : Palette :=
  match activeCommand st with
  | None => st
  | Some cmd =>
      match commandResources cmd st with
      | [] =>
          set_view (VEmpty ("No " +:+ typesOr ", " "resources" (resourceTypes cmd)
                            +:+ " found matching " +:+ quoteMark
                            +:+ commandSearchQuery st +:+ quoteMark)) st
      | filteredResources =>
          let header :=
            "/" +:+ toLowerCase (label cmd) +:+ " - Select a "
            +:+ typesOr " or " "resource" (resourceTypes cmd) in
          let st :=
            set_view (VCommandResources header filteredResources (selectedIndex st)) st in
          let st := set_results (map unranked filteredResources) st in
          set_selectedIndex 0 st
      end
  end.

(** *** Suggestions *)

(** [Array.from(new Set(...))] over the field an attribute names:
    every kind, every truthy namespace, the name of every Node. *)
Definition fieldValues (t : FilterType) (resources : list KubeResource) : list string :=
  match t with
  | FKind => unique (map kind resources)
  | FNamespace =>
      unique (omap (fun r => match namespace r with
                             | Some ns => if isEmpty ns then None else Some ns
                             | None => None
                             end) resources)
  | FNode =>
      unique (map name (List.filter (fun r => String.eqb (kind r) "Node") resources))
  end.

(** [.filter(v => v.toLowerCase().includes(filterValue.toLowerCase()))]. *)
Definition narrowTo (filterValue : string) (values : list string) : list string :=
  List.filter (fun v => includes (toLowerCase v) (toLowerCase filterValue)) values.

(** The end of every suggestion branch: store the suggestions and select
    the first one when none is selected. *)
Definition showSuggestions (suggestions : list string) (st : Palette) : Palette :=
  let st := set_autocompleteSuggestions suggestions st in
  if (autocompleteSelectedIndex st =? -1)%Z && (0 <? length suggestions)
  then set_autocompleteSelectedIndex 0 st
  else st.

Definition resetAutocomplete (st : Palette) : Palette :=
  set_autocompleteSelectedIndex (-1)
    (set_autocompleteSuggestions [] (set_autocompleteFilterType None st)).

(** [availableCommands.find(...)] in [updateAutocompleteHint]. *)
Definition commandNamed (commandName : string) (cmd : Command) : bool :=
  String.eqb (id cmd) commandName
  || startsWith (toLowerCase (label cmd)) commandName.

Definition withResourceTypes (types : list string) (cmd : Command) : Command :=
  {| id := id cmd; label := label cmd; description := description cmd;
     requiresResource := requiresResource cmd;
     resourceTypes := Some types; execute := execute cmd |}.

(** [resourceTypes.sort()] sorts the array held by the command object,
    which [availableCommands] and [activeCommand] share. *)
Fixpoint sortTypesOfFirst (p : Command -> bool) (l : list Command) : list Command :=
  match l with
  | [] => []
  | c :: l' =>
      if p c then
        match resourceTypes c with
        | Some types => withResourceTypes (sort types) c :: l'
        | None => l
        end
      else c :: sortTypesOfFirst p l'
  end.

(** The tail shared by the branches of command mode that end in the
    command list. *)
Definition showCommandList (st : Palette) : Palette :=
  let st := set_activeCommand None st in
  let st := set_commandSearchQuery "" st in
  renderCommandList (resetAutocomplete st).

(** Suggestions in command mode, for the command found under
    [commandName]. *)
Definition suggestForCommand (commandName : string) (matchingCommand : Command)
    (filterType : FilterType) (filterValue : string) (st : Palette) : Palette :=
  if isEmpty filterValue then
    match filterType, resourceTypes matchingCommand with
    | FKind, Some types =>
        let st := set_availableCommands
                    (sortTypesOfFirst (commandNamed commandName)
                                      (availableCommands st)) st in
        let st := set_activeCommand
                    (Some (withResourceTypes (sort types) matchingCommand)) st in
        showSuggestions (sort types) st
    | _, _ =>
        showSuggestions (take 10 (sort (fieldValues filterType (allResources st)))) st
    end
  else
    let allValues :=
      match filterType, resourceTypes matchingCommand with
      | FKind, Some types => types
      | _, _ => fieldValues filterType (allResources st)
      end in
    showSuggestions (take 10 (sort (narrowTo filterValue allValues))) st.

(** Suggestions outside command mode. *)
Definition suggestPlain (filterType : FilterType) (filterValue : string)
    (st : Palette) : Palette :=
  if isEmpty filterValue then
    showSuggestions (take 10 (sort (fieldValues filterType (allResources st)))) st
  else
    showSuggestions
      (take 8 (sort (narrowTo filterValue (fieldValues filterType (allResources st)))))
      st.

(** [updateAutocompleteHint]. *)
Definition updateAutocompleteHint (st : Palette) : Palette :=
  let query := inputValue st in
  if startsWith query "/" then
    let st := set_isCommandMode true st in
    match matchCommandPattern query with
    | Some (word, trailing) =>
        let commandName := toLowerCase word in
        let searchQuery := default "" trailing in
        match List.find (commandNamed commandName) (availableCommands st) with
        | Some matchingCommand =>
            let st := set_activeCommand (Some matchingCommand) st in
            match matchFilterPattern searchQuery with
            | Some (filterType, rest) =>
                let filterValue := trim rest in
                let st := set_autocompleteFilterType (Some filterType) st in
                suggestForCommand commandName matchingCommand filterType filterValue st
            | None =>
                if isEmpty searchQuery then showCommandList st
                else if negb (requiresResource matchingCommand) then showCommandList st
                else
                  let st := set_commandSearchQuery searchQuery st in
                  renderCommandResourceList (resetAutocomplete st)
            end
        | None => showCommandList st
        end
    | None => showCommandList st
    end
  else
    let st := set_isCommandMode false st in
    let st := set_activeCommand None st in
    let st := set_commandSearchQuery "" st in
    match matchFilterPattern query with
    | Some (filterType, rest) =>
        let filterValue := trim rest in
        let st := set_autocompleteFilterType (Some filterType) st in
        suggestPlain filterType filterValue st
    | None => resetAutocomplete st
    end.

Definition DEBOUNCE_DELAY : Z := 150.

(** [handleInput]: the hint is updated at once, the search is put off;
    a timer that was pending is replaced. *)
Definition handleInput (st : Palette) : Palette :=
  let st := updateAutocompleteHint st in
  set_searchDebounceTimer
    (Some (Channel.clock (window st) + DEBOUNCE_DELAY)%Z) st.

(** The callback of the debounce timer. *)
Definition debounceFired (st : Palette) : Palette :=
  set_searchDebounceTimer None (performSearch st).

(** [close]. *)
Definition close (st : Palette) : Palette :=
  let st := set_searchDebounceTimer None st in
  let st := set_isOpen false st in
  let st := set_inputValue "" st in
  let st := set_results [] st in
  let st := set_selectedIndex 0 st in
  set_activeFilters [] st.

(** *** Filters held by the palette *)

Definition sameFilter (type : FilterType) (value : string) (f : Filter) : bool :=
  bool_decide (ftype f = type) && String.eqb (fvalue f) value.

(** [addFilter]. *)
Definition addFilter (type : FilterType) (value : string) (st : Palette) : Palette :=
  if existsb (sameFilter type value) (activeFilters st) then st
  else
    let st := set_activeFilters
                (activeFilters st ++ [{| ftype := type; fvalue := value |}]) st in
    let st := set_inputValue "" st in
    let st := set_autocompleteSuggestions [] st in
    let st := set_autocompleteSelectedIndex (-1) st in
    let st := set_autocompleteFilterType None st in
    let st := performSearch st in
    updateAutocompleteHint st.

(** [removeFilter]. *)
Definition removeFilter (type : FilterType) (value : string) (st : Palette) : Palette :=
  let st := set_activeFilters
              (List.filter (fun f => negb (sameFilter type value f)) (activeFilters st))
              st in
  performSearch st.

(** *** Loading resources

    An [async] method is split where it awaits.  The function that bears
    the name of the method runs it up to its first [await], or to its end
    when it meets none; a function named [_resumed] or [_settled] runs it
    from an [await] on, given how the awaited promise settled. *)

Definition postTo (iframe : nat) (m : Channel.Outgoing) (st : Palette) : Palette :=
  set_window (Channel.post iframe m (window st)) st.

Definition requestFrom (k : Channel.RequestKind) (requestId : string) (iframe : nat)
    (target : option KubeResource) (st : Palette) : Palette :=
  set_window (Channel.request k requestId iframe target (window st)) st.

(** [this.currentClusterId] where the code tests it for truthiness: the
    empty string counts as absent. *)
Definition clusterIdOf (st : Palette) : option string :=
  match currentClusterId st with
  | Some clusterId => if isEmpty clusterId then None else Some clusterId
  | None => None
  end.

(** The statements of [loadResourcesViaIPC] after the resources are
    known: store them, cache them under the current cluster, refresh the
    input; then the [finally] block. *)
Definition resourcesLoaded (resources : list KubeResource) (st : Palette) : Palette :=
  let st := set_allResources resources st in
  let st :=
    match clusterIdOf st with
    | Some clusterId =>
        set_resourceCache (<[clusterId := allResources st]> (resourceCache st)) st
    | None => st
    end in
  let st := handleInput st in
  set_loadingShown false st.

(** The [catch] block of [loadResourcesViaIPC], then [finally]. *)
Definition resourcesFailed (st : Palette) : Palette :=
  let st := set_allResources [] st in
  let st := handleInput st in
  set_loadingShown false st.

(** [loadResourcesViaIPC(showLoading)] up to its [await]: with a frame it
    posts the request and awaits the reply, without one it runs to its
    end. *)
Definition loadResourcesViaIPC (showLoading : bool) (requestId : string)
    (st : Palette) : Palette :=
  let st := if showLoading then set_loadingShown true st else st in
  match activeIframeSource st with
  | Some iframe => requestFrom Channel.GetResources requestId iframe None st
  | None => resourcesLoaded [] st
  end.

(** [loadResourcesViaIPC] from the point where
    [requestResourcesFromIframe] settles. *)
Definition loadResourcesViaIPC_settled (outcome : Channel.Settlement)
    (st : Palette) : Palette :=
  match outcome with
  | Channel.Resolved resources => resourcesLoaded resources st
  | Channel.Rejected _ => resourcesFailed st
  | Channel.Pending => st
  end.

(** [loadResources], up to its [await]; nothing follows the [await]. *)
Definition loadResources (requestId : string) (st : Palette) : Palette :=
  match activeIframeSource st, clusterIdOf st with
  | None, None =>
      handleInput (set_allResources [] st)
  | _, _ =>
      match clusterIdOf st with
      | Some clusterId =>
          match resourceCache st !! clusterId with
          | Some cached =>
              let st := set_allResources cached st in
              let st := renderResults st in
              loadResourcesViaIPC false requestId st
          | None => loadResourcesViaIPC true requestId st
          end
      | None => loadResourcesViaIPC true requestId st
      end
  end.

(** [refreshResources], up to its [await]. *)
Definition refreshResources (requestId : string) (st : Palette) : Palette :=
  match clusterIdOf st with
  | Some clusterId =>
      let st := set_resourceCache (delete clusterId (resourceCache st)) st in
      loadResources requestId st
  | None => st
  end.

(** [refreshResources] after [loadResources] has returned, when the
    [await] was reached. *)
Definition refreshResources_resumed (st : Palette) : Palette := renderResults st.

(** *** Commands *)

(** The fixed commands of [initializeCommands]. *)
Definition logsCommand : Command :=
  {| id := "logs"; label := "logs"; description := "View pod logs";
     requiresResource := true; resourceTypes := Some ["Pod"];
     execute := ViewLogs |}.

Definition describeCommand : Command :=
  {| id := "describe"; label := "describe";
     description := "Show detailed resource information";
     requiresResource := true; resourceTypes := None;
     execute := Describe |}.

Definition deleteCommand : Command :=
  {| id := "delete"; label := "delete";
     description := "Delete the selected resource (requires confirmation)";
     requiresResource := true; resourceTypes := None;
     execute := Delete |}.

Definition refreshCommand : Command :=
  {| id := "refresh"; label := "refresh";
     description := "Reload all resources from the cluster";
     requiresResource := false; resourceTypes := None;
     execute := Refresh |}.

(** One command of [buildNavigationCommands]. *)
Definition clusterCommand (clusterId clusterName : string) : Command :=
  {| id := "cluster-" +:+ clusterId; label := "cluster " +:+ clusterName;
     description := "Switch to cluster: " +:+ clusterName;
     requiresResource := false; resourceTypes := None;
     execute := SwitchCluster clusterId clusterName |}.

(** [initializeCommands]; [navigationCommands] is what
    [buildNavigationCommands] found in the catalog. *)
Definition initializeCommands (navigationCommands : list Command)
    (st : Palette) : Palette :=
  set_availableCommands
    (navigationCommands ++
     [logsCommand; describeCommand; deleteCommand; refreshCommand]) st.

(** The name shown by the delete command. *)
Definition resourceName (r : KubeResource) : string :=
  match namespace r with
  | Some ns =>
      if isEmpty ns then kind r +:+ "/" +:+ name r
      else kind r +:+ "/" +:+ ns +:+ "/" +:+ name r
  | None => kind r +:+ "/" +:+ name r
  end.

Definition newline : string := String (ascii_of_nat 10) EmptyString.

(** The text given to [confirm] by the delete command. *)
Definition confirmText (r : KubeResource) : Text :=
  marked WarningSign
    (" Are you sure you want to delete " +:+ resourceName r +:+ "?"
     +:+ newline +:+ newline +:+ "This action cannot be undone.").

Definition alert (text : Text) (st : Palette) : Palette :=
  set_alerts (alerts st ++ [text]) st.

Definition callHost (c : HostCall) (st : Palette) : Palette :=
  set_hostCalls (hostCalls st ++ [c]) st.

(** [deleteResource] and [openPodLogs], up to their [await]: with a
    frame they post the request; without one they throw, which rejects
    their promise with [noFrame] and leaves the palette as it is. *)
Definition noFrame : string := "No active cluster iframe".

Definition deleteResource (requestId : string) (r : KubeResource)
    (st : Palette) : Palette :=
  match activeIframeSource st with
  | None => st
  | Some iframe => requestFrom Channel.DeleteResource requestId iframe (Some r) st
  end.

Definition openPodLogs (requestId : string) (r : KubeResource)
    (st : Palette) : Palette :=
  match activeIframeSource st with
  | None => st
  | Some iframe => requestFrom Channel.OpenLogs requestId iframe (Some r) st
  end.

(** The body of a command's [execute], up to its first [await]. *)
Definition runEffect (env : Env) (e : Effect) (arg : option KubeResource)
    (st : Palette) : Palette :=
  match e with
  | SwitchCluster clusterId _ =>
      if bool_decide (hostCluster env = Some clusterId) then st
      else callHost (NavigateToCluster clusterId) st
  | ViewLogs =>
      match arg with
      | Some r =>
          if String.eqb (kind r) "Pod" then openPodLogs (freshId env) r st else st
      | None => st
      end
  | Describe =>
      match arg with
      | Some r =>
          match clusterIdOf st with
          | Some clusterId => callHost (NavigateToResource clusterId r) st
          | None => st
          end
      | None => st
      end
  | Delete =>
      match arg with
      | Some r =>
          let st := set_confirms (confirms st ++ [confirmText r]) st in
          if confirmed env then deleteResource (freshId env) r st else st
      | None => st
      end
  | Refresh =>
      let st := set_loadingShown true st in
      refreshResources (freshId env) st
  end.

(** [command.execute(arg)]: the call is noted, then the body runs. *)
Definition invoke (env : Env) (cmd : Command) (arg : option KubeResource)
    (st : Palette) : Palette :=
  let st := set_invoked (invoked st ++ [(cmd, arg)]) st in
  runEffect env (execute cmd) arg st.

(** An [Error] with the given message, as a template literal prints it:
    the name alone when the message is empty. *)
Definition errorText (message : string) : string :=
  if isEmpty message then "Error" else "Error: " +:+ message.

(** The delete command from the point where [deleteResource] settles:
    on success it alerts and starts a refresh, on failure it alerts. *)
Definition deleteSettled (env : Env) (r : KubeResource)
    (outcome : Channel.Settlement) (st : Palette) : Palette :=
  match outcome with
  | Channel.Resolved _ =>
      let st :=
        alert (marked CheckMark (" Successfully deleted " +:+ resourceName r)) st in
      refreshResources (freshId env) st
  | Channel.Rejected message =>
      alert (marked CrossMark (" Failed to delete " +:+ resourceName r
                               +:+ ": " +:+ errorText message)) st
  | Channel.Pending => st
  end.

(** The logs command from the point where [openPodLogs] settles. *)
Definition logsSettled (outcome : Channel.Settlement) (st : Palette) : Palette :=
  match outcome with
  | Channel.Rejected message => alert ("Failed to open logs: " +:+ message) st
  | _ => st
  end.

(** The refresh command after [refreshResources] has returned, which
    never fails: the alert, then the [finally] block. *)
Definition refreshSettled (st : Palette) : Palette :=
  set_loadingShown false
    (alert (marked CheckMark " Resources refreshed successfully!") st).

Definition onlyWorksWith (types : list string) : Text :=
  "This command only works with " +:+ join ", " types +:+ " resources".

(** [executeCommandOnResource]. *)
Definition executeCommandOnResource (env : Env) (r : KubeResource)
    (st : Palette) : Palette :=
  match activeCommand st with
  | None => st
  | Some cmd =>
      match resourceTypes cmd with
      | Some types =>
          if arrayIncludes types (kind r)
          then close (invoke env cmd (Some r) st)
          else alert (onlyWorksWith types) st
      | None => close (invoke env cmd (Some r) st)
      end
  end.

Definition selectFirst : Text :=
  "Please select a resource first (use up/down arrows and Enter to select)".

(** [executeCommand]. *)
Definition executeCommand (env : Env) (index : Z) (st : Palette) : Palette :=
  let filteredCommands := filterCommands (commandQuery st) (availableCommands st) in
  match item filteredCommands index with
  | None => st
  | Some command =>
      if requiresResource command then
        match item (results st) (selectedIndex st) with
        | None =>
            let st := alert selectFirst st in
            let st := set_inputValue "" st in
            let st := set_isCommandMode false st in
            handleInput st
        | Some selectedResult =>
            match resourceTypes command with
            | Some types =>
                if arrayIncludes types (kind (resource selectedResult))
                then close (invoke env command (Some (resource selectedResult)) st)
                else alert (onlyWorksWith types) st
            | None =>
                close (invoke env command (Some (resource selectedResult)) st)
            end
        end
      else close (invoke env command None st)
  end.

(** [navigateToResource]. *)
Definition navigateToResource (r : KubeResource) (st : Palette) : Palette :=
  match clusterIdOf st, activeIframeSource st with
  | Some clusterId, Some iframe =>
      postTo iframe (Channel.MsgNavigateToResource clusterId r) st
  | _, _ => st
  end.

(** [selectResult]. *)
Definition selectResult (index : Z) (st : Palette) : Palette :=
  match item (results st) index with
  | None => st
  | Some result => close (navigateToResource (resource result) st)
  end.

(** [autocompleteFilterName]. *)
Definition autocompleteFilterName (st : Palette) : Palette :=
  let query := toLowerCase (inputValue st) in
  if includes query ":" then st
  else
    match List.filter (fun name => startsWith (toLowerCase name) query)
                      ["kind:"; "namespace:"; "node:"] with
    | first :: _ => handleInput (set_inputValue first st)
    | [] => st
    end.

(** [autocompleteCommand]. *)
Definition autocompleteCommand (st : Palette) : Palette :=
  let filteredCommands := filterCommands (commandQuery st) (availableCommands st) in
  match item filteredCommands (selectedCommandIndex st) with
  | Some command => handleInput (set_inputValue ("/" +:+ label command) st)
  | None => st
  end.

(** *** Keys *)

(** The end of the three [Escape] cases of command mode. *)
Definition leaveCommandMode (st : Palette) : Palette :=
  let st := set_inputValue "" st in
  set_isCommandMode false st.

(** [Enter] on a suggestion: the guard of the call to [addFilter]. *)
Definition chosenSuggestion (st : Palette) : option (FilterType * string) :=
  if (0 <=? autocompleteSelectedIndex st)%Z then
    match autocompleteFilterType st,
          item (autocompleteSuggestions st) (autocompleteSelectedIndex st) with
    | Some type, Some suggestion =>
        if isEmpty suggestion then None else Some (type, suggestion)
    | _, _ => None
    end
  else None.

(** Command mode while suggestions are shown.  [None]: the [switch] has
    no case for the key and control falls through. *)
Definition keyInCommandSuggestions (key : Key) (st : Palette) : option Palette :=
  match key with
  | Tab | ArrowDown =>
      Some (set_autocompleteSelectedIndex
              (stepDown (autocompleteSelectedIndex st)
                        (length (autocompleteSuggestions st))) st)
  | ArrowUp =>
      Some (set_autocompleteSelectedIndex
              (stepUp (autocompleteSelectedIndex st)) st)
  | Enter =>
      match chosenSuggestion st with
      | Some (type, suggestion) =>
          let st := addFilter type suggestion st in
          match matchCommandWord (inputValue st) with
          | Some word =>
              let st := set_inputValue ("/" +:+ word +:+ " ") st in
              let st := set_commandSearchQuery "" st in
              Some (handleInput (resetAutocomplete st))
          | None => Some st
          end
      | None => Some st
      end
  | Escape =>
      let st := leaveCommandMode st in
      let st := set_activeCommand None st in
      let st := set_commandSearchQuery "" st in
      Some (handleInput (resetAutocomplete st))
  | OtherKey => None
  end.

(** Command mode with an active command and a search text. *)
Definition keyInCommandResources (env : Env) (key : Key) (st : Palette)
    : option Palette :=
  match key with
  | Escape =>
      let st := leaveCommandMode st in
      let st := set_activeCommand None st in
      let st := set_commandSearchQuery "" st in
      Some (handleInput st)
  | ArrowDown =>
      let st := set_selectedIndex
                  (stepDown (selectedIndex st) (length (results st))) st in
      Some (renderCommandResourceList st)
  | ArrowUp =>
      let st := set_selectedIndex (stepUp (selectedIndex st)) st in
      Some (renderCommandResourceList st)
  | Enter =>
      match item (results st) (selectedIndex st) with
      | Some result => Some (executeCommandOnResource env (resource result) st)
      | None => Some st
      end
  | Tab | OtherKey => None
  end.

(** Command mode, moving through the command list. *)
Definition keyInCommandList (env : Env) (key : Key) (st : Palette)
    : option Palette :=
  match key with
  | Tab => Some (autocompleteCommand st)
  | Escape => Some (handleInput (leaveCommandMode st))
  | ArrowDown =>
      let st := set_selectedCommandIndex
                  (stepDown (selectedCommandIndex st)
                            (length (availableCommands st))) st in
      Some (renderCommandList st)
  | ArrowUp =>
      let st := set_selectedCommandIndex (stepUp (selectedCommandIndex st)) st in
      Some (renderCommandList st)
  | Enter => Some (executeCommand env (selectedCommandIndex st) st)
  | OtherKey => None
  end.

(** Suggestions shown outside command mode. *)
Definition keyInSuggestions (key : Key) (st : Palette) : option Palette :=
  match key with
  | Tab =>
      Some (set_autocompleteSelectedIndex
              (Z.rem (autocompleteSelectedIndex st + 1)
                     (Z.of_nat (length (autocompleteSuggestions st)))) st)
  | Enter =>
      match chosenSuggestion st with
      | Some (type, suggestion) => Some (addFilter type suggestion st)
      | None => Some st
      end
  | Escape => Some (close st)
  | ArrowDown | ArrowUp | OtherKey => None
  end.

(** Plain navigation. *)
Definition keyInResults (key : Key) (st : Palette) : Palette :=
  match key with
  | Tab => autocompleteFilterName st
  | Escape => close st
  | ArrowDown =>
      renderResults
        (set_selectedIndex (stepDown (selectedIndex st) (length (results st))) st)
  | ArrowUp =>
      renderResults (set_selectedIndex (stepUp (selectedIndex st)) st)
  | Enter => selectResult (selectedIndex st) st
  | OtherKey => st
  end.

Definition suggestionsShown (st : Palette) : bool :=
  0 <? length (autocompleteSuggestions st).

Definition hasSearchText (st : Palette) : bool :=
  negb (isEmpty (commandSearchQuery st)).

(** [handleKeyDown]: the blocks are tried in the order of the source;
    a block that has a case for the key returns. *)
Definition handleKeyDown (env : Env) (key : Key) (st : Palette) : Palette :=
  let first :=
    if isCommandMode st
         && bool_decide (is_Some (autocompleteFilterType st))
         && suggestionsShown st
    then keyInCommandSuggestions key st else None in
  let second :=
    match first with
    | Some st' => Some st'
    | None =>
        if isCommandMode st then
          if bool_decide (is_Some (activeCommand st)) && hasSearchText st
          then keyInCommandResources env key st
          else keyInCommandList env key st
        else None
    end in
  let third :=
    match second with
    | Some st' => Some st'
    | None => if suggestionsShown st then keyInSuggestions key st else None
    end in
  match third with
  | Some st' => st'
  | None => keyInResults key st
  end.

(** *** Opening *)

(** [open], up to its [await]; outside a cluster it runs to its end. *)
Definition open (navigationCommands : list Command) (requestId : string)
    (st : Palette) : Palette :=
  let st := set_isOpen true st in
  let st := initializeCommands navigationCommands st in
  match activeIframeSource st, currentClusterId st with
  | None, None => renderResults (set_allResources [] st)
  | _, _ => loadResources requestId st
  end.

(** [open] after [loadResources] has returned: at once when the cache was
    hit or no frame is there, after [loadResourcesViaIPC_settled]
    otherwise. *)
Definition open_resumed (st : Palette) : Palette := renderResults st.

(** [toggle]. *)
Definition toggle (navigationCommands : list Command) (requestId : string)
    (st : Palette) : Palette :=
  if isOpen st then close st else open navigationCommands requestId st.

(** The listener of [setupMessageListener] for the toggle message. *)
Definition onToggleMessage (source : nat) (data : Channel.MessageData)
    (navigationCommands : list Command) (requestId : string)
    (st : Palette) : Palette :=
  if String.eqb (Channel.msgType data) "k-menu-toggle" then
    let st := set_activeIframeSource (Some source) st in
    let st :=
      if Channel.truthy (Channel.msgClusterId data)
      then set_currentClusterId (Channel.msgClusterId data) st
      else st in
    toggle navigationCommands requestId st
  else st.

(** A palette as the constructor leaves it. *)
Definition initial : Palette :=
  {| isOpen := false; inputValue := ""; selectedIndex := 0; results := [];
     allResources := []; activeFilters := [];
     autocompleteSuggestions := []; autocompleteSelectedIndex := -1;
     autocompleteFilterType := None;
     isCommandMode := false; availableCommands := [];
     selectedCommandIndex := 0; activeCommand := None;
     commandSearchQuery := "";
     resourceCache := ∅; currentClusterId := None;
     searchDebounceTimer := None; activeIframeSource := None;
     view := VEmpty ""; loadingShown := false;
     window := Channel.emptyWindow;
     alerts := []; confirms := []; invoked := []; hostCalls := [] |}.

(** *** The filters as the specification words them *)

(** Two strings are equal up to case. *)
Definition sameIgnoringCase (a b : string) : Prop :=
  toLowerCase a = toLowerCase b.

(** A resource satisfies a filter: a kind filter names its kind up to
    case, a namespace filter names its namespace up to case, a node filter
    asks for a resource that is itself a Node and carries the name, again
    compared up to case. *)
Definition satisfies (r : KubeResource) (f : Filter) : Prop :=
  match ftype f with
  | FKind => sameIgnoringCase (kind r) (fvalue f)
  | FNamespace =>
      exists ns, namespace r = Some ns /\ sameIgnoringCase ns (fvalue f)
  | FNode => kind r = "Node" /\ sameIgnoringCase (name r) (fvalue f)
  end.

(** A resource passes every filter of a list. *)
Definition passesAll (filters : list Filter) (r : KubeResource) : bool :=
  forallb (fun f => passes f r) filters.

(** *** The ranking as the specification words it *)

(** The ways a term can match an item, in the order they are tried. *)
Inductive Tier := DisplayTier | NameTier | KindTier | NamespaceTier | FuzzyTier.

Definition tierOrder (t : Tier) : nat :=
  match t with
  | DisplayTier => 0
  | NameTier => 1
  | KindTier => 2
  | NamespaceTier => 3
  | FuzzyTier => 4
  end.

(** The namespace in lower case, empty when there is none. *)
Definition namespaceLowerOf (r : KubeResource) : string :=
  match namespace r with Some ns => toLowerCase ns | None => "" end.

Definition tierHolds (r : KubeResource) (term : string) (t : Tier) : Prop :=
  match t with
  | DisplayTier => Substring term (toLowerCase (getDisplayText r))
  | NameTier => Substring term (toLowerCase (name r))
  | KindTier => Substring term (toLowerCase (kind r))
  | NamespaceTier => Substring term (namespaceLowerOf r)
  | FuzzyTier => Subsequence term (toLowerCase (getDisplayText r))
  end.

(** Characters matched in order over the length of the term, once every
    character of the term is matched. *)
Definition fuzzyQuotient (term : string) : Q :=
  (inject_Z (Z.of_nat (String.length term))
   / inject_Z (Z.of_nat (String.length term)))%Q.

Definition tierScore (term : string) (t : Tier) : Q :=
  match t with
  | DisplayTier => 10%Q
  | NameTier => 8%Q
  | KindTier => 6%Q
  | NamespaceTier => 5%Q
  | FuzzyTier => (fuzzyQuotient term * 2)%Q
  end.

(** A term matches an item through tier [t]: [t] holds and no earlier
    tier does. *)
Definition matchesThrough (r : KubeResource) (term : string) (t : Tier) : Prop :=
  tierHolds r term t
  /\ forall t', tierOrder t' < tierOrder t -> ~ tierHolds r term t'.

Definition termMatches (r : KubeResource) (term : string) : Prop :=
  exists t, tierHolds r term t.

(** [Scores r terms total]: [total] is the sum, over the terms, of the
    score of the tier each term matches through. *)
Inductive Scores (r : KubeResource) : list string -> Q -> Prop :=
| scores_none : Scores r [] 0%Q
| scores_term term rest t total :
    matchesThrough r term t -> Scores r rest total ->
    Scores r (term :: rest) (tierScore term t + total)%Q.

(** Results in descending order of score. *)
Definition descending (l : list SearchResult) : Prop :=
  Sorted (fun a b => (matchScore b <= matchScore a)%Q) l.

(** [n] pods named [a] that differ in their uid. *)
Definition numbered (i : nat) : KubeResource :=
  {| kind := "Pod"; name := "a"; namespace := None;
     uid := string_of_list_ascii (repeat "x"%char i); apiVersion := "v1" |}.

Definition crowd (n : nat) : list KubeResource := map numbered (seq 0 n).

(** The resources of the scenario in the specification. *)
Definition podA : KubeResource :=
  {| kind := "Pod"; name := "a"; namespace := Some "ns1";
     uid := "u1"; apiVersion := "v1" |}.

Definition podB : KubeResource :=
  {| kind := "Pod"; name := "b"; namespace := Some "ns2";
     uid := "u2"; apiVersion := "v1" |}.

Definition serviceA : KubeResource :=
  {| kind := "Service"; name := "a"; namespace := Some "ns1";
     uid := "u3"; apiVersion := "v1" |}.

Definition sample : list KubeResource := [podA; podB; serviceA].

(** *** The suggestions as the specification words them *)

(** The value a resource contributes to the suggestions of an attribute:
    its kind; its namespace, when it has one; its name, when it is a
    Node. *)
Definition fieldOf (t : FilterType) (r : KubeResource) : option string :=
  match t with
  | FKind => Some (kind r)
  | FNamespace =>
      match namespace r with
      | Some ns => if isEmpty ns then None else Some ns
      | None => None
      end
  | FNode => if String.eqb (kind r) "Node" then Some (name r) else None
  end.

(** [s] is a value of the field across the resources, and contains the
    partial value, case ignored. *)
Definition candidateOf (t : FilterType) (resources : list KubeResource)
    (partial s : string) : Prop :=
  (exists r, In r resources /\ fieldOf t r = Some s)
  /\ Substring (toLowerCase partial) (toLowerCase s).

(** Lexicographic order, by code unit. *)
Definition lexLe (a b : string) : Prop := String.leb a b = true.

(** A list in lexicographic order without repetition. *)
Definition ordered (l : list string) : Prop := Sorted lexLe l /\ NoDup l.

(** Nine pods in the namespaces n1 to n9. *)
Definition inNamespace (i : nat) : KubeResource :=
  {| kind := "Pod"; name := "p";
     namespace := Some (String "n" (String (ascii_of_nat (48 + i)) EmptyString));
     uid := ""; apiVersion := "v1" |}.

Definition nineNamespaces : list KubeResource := map inNamespace (seq 1 9).

(** A palette that has been opened: the fixed commands are there. *)
Definition opened : Palette :=
  set_isOpen true (initializeCommands [] initial).

(** A host that declines every confirmation. *)
Definition declining : Env :=
  {| confirmed := false; freshId := "r1"; hostCluster := None |}.

(** A host that accepts every confirmation. *)
Definition accepting : Env :=
  {| confirmed := true; freshId := "r1"; hostCluster := None |}.

(** The user has typed [text] into the opened palette showing the sample
    resources. *)
Definition typed (text : string) : Palette :=
  handleInput (set_inputValue text (set_allResources sample opened)).

(** What a rejection leaves: one more alert, and neither a call of an
    effect, nor a message, nor a prompt, nor a call of the host. *)
Definition rejectedWith (text : Text) (st st' : Palette) : Prop :=
  alerts st' = alerts st ++ [text]
  /\ invoked st' = invoked st
  /\ window st' = window st
  /\ confirms st' = confirms st
  /\ hostCalls st' = hostCalls st
  /\ isOpen st' = isOpen st.

(** The delete requests among the messages posted by the palette. *)
Definition isDeleteRequest (m : nat * Channel.Outgoing) : bool :=
  match snd m with
  | Channel.MsgDeleteResource _ _ => true
  | _ => false
  end.

Definition deletesOf (w : Channel.Window) : list (nat * Channel.Outgoing) :=
  List.filter isDeleteRequest (Channel.posted w).

Definition deleteRequests (st : Palette) : list (nat * Channel.Outgoing) :=
  deletesOf (window st).

(** The palette with the delete command chosen for the resources that
    contain [a], in a cluster whose frame is frame 7. *)
Definition deleting : Palette :=
  handleInput
    (set_inputValue "/delete a"
       (set_activeIframeSource (Some 7)
          (set_currentClusterId (Some "c1")
             (set_allResources sample opened)))).

(** *** A cache hit followed by a failed refresh *)

(** A closed palette that has the sample resources cached for cluster
    [c1], whose frame is frame 7. *)
Definition cachedPalette : Palette :=
  set_resourceCache {[ "c1" := sample ]}
    (set_currentClusterId (Some "c1") (set_activeIframeSource (Some 7) initial)).

(** The palette is opened: the cache is hit, the refresh is requested. *)
Definition hit : Palette := open_resumed (open [] "r1" cachedPalette).

(** An input event, 150 ms later the search runs: the cached resources
    are listed. *)
Definition listed : Palette := debounceFired (handleInput hit).

(** The refresh is rejected; 150 ms later the search runs again. *)
Definition refreshFailed : Palette :=
  debounceFired
    (loadResourcesViaIPC_settled (Channel.Rejected "Resource request timeout") listed).

(** *** The shortcut in the main window *)

(** [getClusterIdFromHostname], given [window.location.hostname]. *)
Definition getClusterIdFromHostname (hostname : string) : option string :=
  Shortcut.matchClusterHost hostname.

(** The [keydown] listener of [setupKeyboardListener]. *)
Definition onShortcutKey (preferences : Shortcut.KMenuPreferencesModel)
    (event : Shortcut.KeyboardEvent) (navigationCommands : list Command)
    (requestId : string) (st : Palette) : Palette :=
  if negb (Shortcut.enabled preferences) then st
  else if Shortcut.matchesShortcut event (Shortcut.shortcutOr preferences)
  then toggle navigationCommands requestId st
  else st.

(** *** Fetching with retries *)

(** What a call of [fetchWithRetry] did: the value it returned ([None]
    for [null]), how often it called [fetchFn], and the delays it waited,
    in order. *)
Record Retried (T : Type) := {
  fetched : option T;
  attempts : nat;
  delays : list Z
}.

Arguments fetched {T} _.
Arguments attempts {T} _.
Arguments delays {T} _.

(** The [for] loop of [fetchWithRetry] from [attempt] on.  [fetchFn n]
    is how call number [n] of [fetchFn] ends, [None] standing for a
    promise that rejects.  [maxRetries] is a count; [fuel] bounds the
    iterations, and [S maxRetries] of it is enough. *)
Fixpoint retryLoop {T : Type} (fetchFn : nat -> option T) (maxRetries : nat)
    (initialDelayMs : Z) (fuel attempt : nat) : Retried T :=
  match fuel with
  | 0 => {| fetched := None; attempts := 0; delays := [] |}
  | S fuel' =>
      if attempt <=? maxRetries then
        match fetchFn attempt with
        | Some value => {| fetched := Some value; attempts := 1; delays := [] |}
        | None =>
            if attempt =? maxRetries
            then {| fetched := None; attempts := 1; delays := [] |}
            else
              let delayMs := (initialDelayMs * 2 ^ Z.of_nat attempt)%Z in
              let later :=
                retryLoop fetchFn maxRetries initialDelayMs fuel' (S attempt) in
              {| fetched := fetched later; attempts := S (attempts later);
                 delays := delayMs :: delays later |}
        end
      else {| fetched := None; attempts := 0; delays := [] |}
  end.

(** [fetchWithRetry(fetchFn, resourceKind, maxRetries, initialDelayMs)];
    [resourceKind] is only logged. *)
Definition fetchWithRetry {T : Type} (fetchFn : nat -> option T)
    (maxRetries : nat) (initialDelayMs : Z) : Retried T :=
  retryLoop fetchFn maxRetries initialDelayMs (S maxRetries) 0.

(** The time waited in all. *)
Definition totalDelay {T : Type} (r : Retried T) : Z :=
  foldr Z.add 0%Z (delays r).

(** The text of a filter name, as [autocompleteFilterName] lists them. *)
Definition filterName (t : FilterType) : string :=
  match t with
  | FKind => "kind:"
  | FNamespace => "namespace:"
  | FNode => "node:"
  end.

(** The fields that neither the hint nor the search assigns. *)
Definition durable (st : Palette) :=
  (isOpen st, inputValue st, allResources st, activeFilters st,
   resourceCache st, currentClusterId st, activeIframeSource st,
   loadingShown st, window st, alerts st, confirms st, invoked st,
   hostCalls st).

End Palette.

(** ** The navigation service

    [NavigationService], which the describe command calls in the main
    window and the renderer of a cluster frame calls for a navigation
    request: the link handed to [Navigation.showDetails]. *)

Module Navigation.
Import Str.

(** [pluralize(kind)]. *)
Definition pluralize (kind : string) : string :=
  let lower := toLowerCase kind in
  if String.eqb lower "endpoints" then "endpoints"
  else if String.eqb lower "ingress" then "ingresses"
  else if endsWith lower "class" then lower +:+ "es"
  else if endsWith lower "policy" then dropLast lower +:+ "ies"
  else if endsWith lower "s" then lower +:+ "es"
  else if endsWith lower "y" then dropLast lower +:+ "ies"
  else lower +:+ "s".

(** The pair [[group, version]] of [constructSelfLink]: the first two
    pieces of the split when the version holds a slash, which leaves at
    least two pieces. *)
Definition groupAndVersion (apiVersion : string) : string * string :=
  if includes apiVersion "/" then
    match splitOn "/" apiVersion with
    | group :: version :: _ => (group, version)
    | _ => ("", "")
    end
  else ("", apiVersion).

(** [constructSelfLink(resource)]; an empty group and an empty namespace
    are falsy. *)
Definition constructSelfLink (r : KubeResource) : string :=
  let '(group, version) := groupAndVersion (apiVersion r) in
  let apiBase :=
    if String.eqb group "" then "/api/" +:+ version
    else "/apis/" +:+ group +:+ "/" +:+ version in
  let plural := pluralize (kind r) in
  match namespace r with
  | Some ns =>
      if String.eqb ns "" then apiBase +:+ "/" +:+ plural +:+ "/" +:+ name r
      else apiBase +:+ "/namespaces/" +:+ ns +:+ "/" +:+ plural +:+ "/" +:+ name r
  | None => apiBase +:+ "/" +:+ plural +:+ "/" +:+ name r
  end.

(** What follows the base of the link. *)
Definition pathIn (r : KubeResource) : string :=
  match namespace r with
  | Some ns =>
      if String.eqb ns "" then "/" +:+ pluralize (kind r) +:+ "/" +:+ name r
      else "/namespaces/" +:+ ns +:+ "/" +:+ pluralize (kind r) +:+ "/" +:+ name r
  | None => "/" +:+ pluralize (kind r) +:+ "/" +:+ name r
  end.

End Navigation.

(** ** The renderer of a cluster frame

    [setupIframeKeyboardForwarder] of the renderer entry point, which
    runs inside every cluster frame: a [keydown] listener that forwards
    the shortcut to the parent window, and a [message] listener that
    serves the requests of the palette.  The services the listener
    imports talk to the stores of the host; how a call of a service ends
    is an argument. *)

Module Frame.
Import Str.

(** How a call of a service ends: it returns, or it throws and
    [String(err)] is [text]. *)
Inductive Outcome (A : Type) :=
| Returned (value : A)
| Thrown (text : string).

Arguments Returned {A} _.
Arguments Thrown {A} _.

Record Services := {
  getAllResources : Outcome (list KubeResource);
  deleteResource : KubeResource -> Outcome unit;
  openPodLogs : KubeResource -> Outcome unit
}.

(** The data of a reply. *)
Definition reply (type requestId : string) (error : option string)
    (resources : option (list KubeResource)) : Channel.MessageData :=
  {| Channel.msgType := type; Channel.msgRequestId := Some requestId;
     Channel.msgError := error; Channel.msgResources := resources;
     Channel.msgClusterId := None |}.

(** The end shared by the delete and the logs request: a reply without
    resources, with the error when the service threw. *)
Definition acknowledge (type requestId : string) (o : Outcome unit)
    : Channel.MessageData :=
  match o with
  | Returned _ => reply type requestId None None
  | Thrown text => reply type requestId (Some text) None
  end.

(** The [message] listener: what it posts back to [event.source], the
    parent window.  A navigation request is handed to the navigation
    service and gets no reply, whether the service throws or not. *)
Definition onMessage (services : Services) (m : Channel.Outgoing)
    : option Channel.MessageData :=
  match m with
  | Channel.MsgGetResources requestId =>
      match getAllResources services with
      | Returned resources =>
          Some (reply "k-menu-resources-response" requestId None (Some resources))
      | Thrown text =>
          Some (reply "k-menu-resources-response" requestId (Some text) None)
      end
  | Channel.MsgDeleteResource requestId target =>
      Some (acknowledge "k-menu-delete-response" requestId
                        (deleteResource services target))
  | Channel.MsgNavigateToResource _ _ => None
  | Channel.MsgOpenLogs requestId target =>
      Some (acknowledge "k-menu-logs-response" requestId
                        (openPodLogs services target))
  end.

(** The data of the toggle message. *)
Definition toggleMessage (clusterId : option string) : Channel.MessageData :=
  {| Channel.msgType := "k-menu-toggle"; Channel.msgRequestId := None;
     Channel.msgError := None; Channel.msgResources := None;
     Channel.msgClusterId := clusterId |}.

(** The [keydown] listener: the message posted to [window.parent], when
    the key is the shortcut. *)
Definition onKeyDown (preferences : Shortcut.KMenuPreferencesModel)
    (hostname : string) (event : Shortcut.KeyboardEvent)
    : option Channel.MessageData :=
  if negb (Shortcut.enabled preferences) then None
  else if Shortcut.matchesShortcut event (Shortcut.shortcutOr preferences)
  then Some (toggleMessage (Shortcut.matchClusterHost hostname))
  else None.

(** Services that answer with the same outcome whatever they are asked. *)
Definition answering (resources : Outcome (list KubeResource))
    (other : Outcome unit) : Services :=
  {| getAllResources := resources;
     deleteResource := fun _ => other;
     openPodLogs := fun _ => other |}.

End Frame.


(** * Properties *)

Import Str Search Palette.

(** ** Strings *)

Section StringFacts.

Lemma append_cons (c : ascii) (a b : string) :
  String c a +:+ b = String c (a +:+ b).
Proof. reflexivity. Qed.

Lemma append_empty_l (s : string) : "" +:+ s = s.
Proof. reflexivity. Qed.

Lemma append_empty_r (s : string) : s +:+ "" = s.
Proof.
  induction s as [|c s IH]; [reflexivity | by rewrite append_cons, IH].
Qed.

Lemma append_assoc (a b c : string) : (a +:+ b) +:+ c = a +:+ (b +:+ c).
Proof.
  induction a as [|x a IH]; [reflexivity | by rewrite !append_cons, IH].
Qed.

Lemma startsWith_spec (text pat : string) :
  startsWith text pat = true <-> exists post, text = pat +:+ post.
Proof.
  revert text. induction pat as [|p pat IH]; intros text; cbn.
  - split; [intros _; by exists text | done].
  - destruct text as [|c text].
    + split; [done | intros [post H]; discriminate].
    + destruct (ascii_dec c p) as [->|Hne].
      * rewrite IH. split; intros [post H]; exists post.
        -- by rewrite H.
        -- by injection H.
      * split; [done | intros [post H]; injection H; congruence].
Qed.

Lemma includes_spec (text pat : string) :
  includes text pat = true <-> Substring pat text.
Proof.
  unfold Substring. induction text as [|c text IH].
  - cbn [includes]. rewrite orb_false_r, startsWith_spec. split.
    + intros [post H]. by exists "", post.
    + intros [pre [post H]]. destruct pre; [by exists post | discriminate].
  - cbn [includes]. rewrite orb_true_iff, startsWith_spec, IH. split.
    + intros [[post H] | [pre [post H]]].
      * by exists "", post.
      * exists (String c pre), post. by rewrite H.
    + intros [pre [post H]]. destruct pre as [|x pre].
      * left. by exists post.
      * right. exists pre, post. cbn in H. by injection H.
Qed.

Lemma toLowerCase_length (s : string) :
  String.length (toLowerCase s) = String.length s.
Proof. induction s; cbn; congruence. Qed.

Lemma dropChars_zero (s : string) : dropChars 0 s = s.
Proof.
  unfold dropChars. rewrite Nat.sub_0_r.
  induction s as [|c s IH]; cbn; [reflexivity | by rewrite IH].
Qed.

Lemma dropChars_cons (n : nat) (c : ascii) (s : string) :
  dropChars (S n) (String c s) = dropChars n s.
Proof. reflexivity. Qed.

Lemma dropChars_get (n : nat) (s : string) (c : ascii) :
  String.get n s = Some c -> dropChars n s = String c (dropChars (S n) s).
Proof.
  revert n. induction s as [|x s IH]; intros n H; [by destruct n|].
  destruct n as [|n].
  - cbn in H. injection H as ->. rewrite dropChars_zero.
    by rewrite dropChars_cons, dropChars_zero.
  - rewrite !dropChars_cons. apply IH. exact H.
Qed.

Lemma dropChars_all (n : nat) (s : string) :
  String.length s <= n -> dropChars n s = "".
Proof.
  revert n. induction s as [|x s IH]; intros n H.
  - by destruct n.
  - destruct n as [|n]; cbn in H; [lia|].
    rewrite dropChars_cons. apply IH. lia.
Qed.

Lemma get_in_range (n : nat) (s : string) :
  n < String.length s -> exists c, String.get n s = Some c.
Proof.
  revert n. induction s as [|x s IH]; intros n H; cbn in H; [lia|].
  destruct n as [|n]; [by exists x | apply IH; lia].
Qed.

End StringFacts.

(** ** Subsequences and the fuzzy match *)

Section Fuzzy.

#[local] Hint Constructors Subsequence : core.

Lemma subsequence_of_empty (q : string) : Subsequence q "" -> q = "".
Proof. by inversion 1. Qed.

Lemma subsequence_tail (c : ascii) (q t : string) :
  Subsequence (String c q) t -> Subsequence q t.
Proof.
  induction t as [|d t IH]; inversion 1; subst; auto.
Qed.

Lemma subsequence_same_head (c : ascii) (q t : string) :
  Subsequence (String c q) (String c t) <-> Subsequence q t.
Proof.
  split; [|auto].
  inversion 1; subst; [done | eauto using subsequence_tail].
Qed.

Lemma subsequence_other_head (c d : ascii) (q t : string) :
  c <> d ->
  Subsequence (String d q) (String c t) <-> Subsequence (String d q) t.
Proof.
  intros Hne. split; [|auto]. inversion 1; subst; [done | assumption].
Qed.

(** The loop advances [score] and [queryIndex] together, stays inside the
    query, and reaches its end exactly when what was left of the query is
    a subsequence of the text. *)
Lemma fuzzyLoop_spec (text query : string) (score queryIndex : nat) :
  queryIndex <= String.length query ->
  exists matched,
    fuzzyLoop text query score queryIndex = (score + matched, queryIndex + matched)
    /\ queryIndex + matched <= String.length query
    /\ (queryIndex + matched = String.length query
        <-> Subsequence (dropChars queryIndex query) text).
Proof.
  revert score queryIndex.
  induction text as [|c text IH]; intros score queryIndex Hle; cbn [fuzzyLoop].
  - exists 0. rewrite !Nat.add_0_r. split; [done|]. split; [done|]. split.
    + intros ->. rewrite dropChars_all by lia. auto.
    + intros H%subsequence_of_empty.
      destruct (decide (queryIndex < String.length query)) as [Hlt|]; [|lia].
      destruct (get_in_range _ _ Hlt) as [d Hd].
      rewrite (dropChars_get _ _ _ Hd) in H. discriminate.
  - destruct (queryIndex <? String.length query) eqn:Hlt.
    + apply Nat.ltb_lt in Hlt.
      destruct (get_in_range _ _ Hlt) as [d Hd].
      rewrite (dropChars_get _ _ _ Hd). case_bool_decide as Heq.
      * assert (d = c) as -> by congruence.
        destruct (IH (S score) (S queryIndex)) as (m & -> & Hm & Hiff); [lia|].
        exists (S m). split; [f_equal; lia|]. split; [lia|].
        rewrite subsequence_same_head, <- Hiff. lia.
      * assert (c <> d) by congruence.
        destruct (IH score queryIndex) as (m & -> & Hm & Hiff); [lia|].
        exists m. split; [done|]. split; [done|].
        rewrite subsequence_other_head by done.
        by rewrite <- (dropChars_get _ _ _ Hd).
    + apply Nat.ltb_ge in Hlt. exists 0. rewrite !Nat.add_0_r.
      split; [done|]. split; [done|].
      rewrite dropChars_all by lia. split; [auto | lia].
Qed.

Lemma quotient_self (n : nat) :
  0 < n -> (inject_Z (Z.of_nat n) / inject_Z (Z.of_nat n) == 1)%Q.
Proof.
  intros Hn. apply Qmult_inv_r.
  intros H. unfold Qeq in H. cbn in H. lia.
Qed.

Lemma fuzzyMatch_subsequence (text query : string) :
  query <> "" -> Subsequence query text -> (fuzzyMatch text query == 1)%Q.
Proof.
  intros Hq Hsub. unfold fuzzyMatch.
  destruct (fuzzyLoop_spec text query 0 0) as (m & -> & _ & Hiff); [lia|].
  rewrite dropChars_zero in Hiff. cbn [Nat.add] in *.
  apply Hiff in Hsub as ->. rewrite Nat.eqb_refl.
  apply quotient_self. destruct query; [done | cbn; lia].
Qed.

Lemma fuzzyMatch_no_subsequence (text query : string) :
  ~ Subsequence query text -> fuzzyMatch text query = 0%Q.
Proof.
  intros Hsub. unfold fuzzyMatch.
  destruct (fuzzyLoop_spec text query 0 0) as (m & -> & _ & Hiff); [lia|].
  rewrite dropChars_zero in Hiff. cbn [Nat.add] in *.
  destruct (m =? String.length query) eqn:Hm; [|reflexivity].
  apply Nat.eqb_eq in Hm. by apply Hiff in Hm.
Qed.

Lemma subsequence_dec (query text : string) :
  Subsequence query text \/ ~ Subsequence query text.
Proof.
  destruct (fuzzyLoop_spec text query 0 0) as (m & _ & _ & Hiff); [lia|].
  rewrite dropChars_zero in Hiff. cbn [Nat.add] in Hiff.
  destruct (decide (m = String.length query)); [left | right]; tauto.
Qed.

(** C10.  For a non-empty query, [fuzzyMatch text query] is 1 when the
    characters of the query occur in the text in order and 0 otherwise; it
    is never strictly between 0 and 1, and a match weighs exactly 2 once
    doubled. *)
Theorem fuzzyMatch_is_zero_or_one (text query : string) :
  query <> "" ->
  (Subsequence query text ->
     (fuzzyMatch text query == 1)%Q /\ (fuzzyMatch text query * 2 == 2)%Q)
  /\ (~ Subsequence query text -> fuzzyMatch text query = 0%Q)
  /\ ~ (0 < fuzzyMatch text query /\ fuzzyMatch text query < 1)%Q.
Proof.
  intros Hq. split; [|split].
  - intros Hsub. pose proof (fuzzyMatch_subsequence text query Hq Hsub) as H.
    split; [exact H | by rewrite H].
  - apply fuzzyMatch_no_subsequence.
  - intros [Hpos Hlt]. destruct (subsequence_dec query text) as [Hsub|Hsub].
    + rewrite (fuzzyMatch_subsequence text query Hq Hsub) in Hlt.
      by apply Qlt_irrefl in Hlt.
    + rewrite (fuzzyMatch_no_subsequence text query Hsub) in Hpos.
      by apply Qlt_irrefl in Hpos.
Qed.

Lemma fuzzyMatch_is_zero_or_one_witness :
  (fuzzyMatch "pod/ns1/a" "pna" == 1)%Q
  /\ fuzzyMatch "pod/ns1/a" "pnx" = 0%Q.
Proof.
  split.
  - apply (fuzzyMatch_is_zero_or_one "pod/ns1/a" "pna"); [discriminate|].
    apply subseq_take; do 3 apply subseq_skip; apply subseq_take.
    do 3 apply subseq_skip. apply subseq_take. apply subseq_empty.
  - apply (fuzzyMatch_is_zero_or_one "pod/ns1/a" "pnx"); [discriminate|].
    intros H. repeat (inversion H as [ | ? ? ? H' | ? ? ? H']; subst; clear H;
                      rename H' into H).
Defined.

End Fuzzy.

(** ** What the hint and the search leave alone *)

Create Rewrite HintDb durable.

(** The getters commute with the setters of the other fields. *)
Ltac frame_setter := intros ? st; destruct st; reflexivity.

Lemma durable_set_isCommandMode v st : durable (set_isCommandMode v st) = durable st.
Proof. revert v st. frame_setter. Qed.
Lemma durable_set_activeCommand v st : durable (set_activeCommand v st) = durable st.
Proof. revert v st. frame_setter. Qed.
Lemma durable_set_commandSearchQuery v st :
  durable (set_commandSearchQuery v st) = durable st.
Proof. revert v st. frame_setter. Qed.
Lemma durable_set_autocompleteSuggestions v st :
  durable (set_autocompleteSuggestions v st) = durable st.
Proof. revert v st. frame_setter. Qed.
Lemma durable_set_autocompleteSelectedIndex v st :
  durable (set_autocompleteSelectedIndex v st) = durable st.
Proof. revert v st. frame_setter. Qed.
Lemma durable_set_autocompleteFilterType v st :
  durable (set_autocompleteFilterType v st) = durable st.
Proof. revert v st. frame_setter. Qed.
Lemma durable_set_availableCommands v st :
  durable (set_availableCommands v st) = durable st.
Proof. revert v st. frame_setter. Qed.
Lemma durable_set_view v st : durable (set_view v st) = durable st.
Proof. revert v st. frame_setter. Qed.
Lemma durable_set_results v st : durable (set_results v st) = durable st.
Proof. revert v st. frame_setter. Qed.
Lemma durable_set_selectedIndex v st : durable (set_selectedIndex v st) = durable st.
Proof. revert v st. frame_setter. Qed.
Lemma durable_set_selectedCommandIndex v st :
  durable (set_selectedCommandIndex v st) = durable st.
Proof. revert v st. frame_setter. Qed.
Lemma durable_set_searchDebounceTimer v st :
  durable (set_searchDebounceTimer v st) = durable st.
Proof. revert v st. frame_setter. Qed.

#[global] Hint Rewrite durable_set_isCommandMode durable_set_activeCommand
  durable_set_commandSearchQuery durable_set_autocompleteSuggestions
  durable_set_autocompleteSelectedIndex durable_set_autocompleteFilterType
  durable_set_availableCommands durable_set_view durable_set_results
  durable_set_selectedIndex durable_set_selectedCommandIndex
  durable_set_searchDebounceTimer : durable.

Ltac frame := repeat (autorewrite with durable; try reflexivity; try case_match).

Lemma durable_renderResults st : durable (renderResults st) = durable st.
Proof. unfold renderResults. frame. Qed.

Lemma durable_performSearch st : durable (performSearch st) = durable st.
Proof.
  unfold performSearch. case_match; [reflexivity|].
  rewrite durable_renderResults. frame.
Qed.

Lemma durable_renderCommandList st : durable (renderCommandList st) = durable st.
Proof. unfold renderCommandList. frame. Qed.

Lemma durable_renderCommandResourceList st :
  durable (renderCommandResourceList st) = durable st.
Proof. unfold renderCommandResourceList. frame. Qed.

Lemma durable_resetAutocomplete st : durable (resetAutocomplete st) = durable st.
Proof. unfold resetAutocomplete. frame. Qed.

Lemma durable_showSuggestions l st : durable (showSuggestions l st) = durable st.
Proof. unfold showSuggestions. frame. Qed.

#[global] Hint Rewrite durable_renderResults durable_performSearch durable_renderCommandList
  durable_renderCommandResourceList durable_resetAutocomplete
  durable_showSuggestions : durable.

Lemma durable_showCommandList st : durable (showCommandList st) = durable st.
Proof. unfold showCommandList. frame. Qed.

Lemma durable_suggestPlain t v st : durable (suggestPlain t v st) = durable st.
Proof. unfold suggestPlain. frame. Qed.

Lemma durable_suggestForCommand n c t v st :
  durable (suggestForCommand n c t v st) = durable st.
Proof. unfold suggestForCommand. frame. Qed.

#[global] Hint Rewrite durable_showCommandList durable_suggestPlain
  durable_suggestForCommand : durable.

Lemma durable_updateAutocompleteHint st :
  durable (updateAutocompleteHint st) = durable st.
Proof. unfold updateAutocompleteHint. frame. Qed.

Lemma durable_handleInput st : durable (handleInput st) = durable st.
Proof.
  unfold handleInput. rewrite durable_set_searchDebounceTimer.
  apply durable_updateAutocompleteHint.
Qed.

#[global] Hint Rewrite durable_updateAutocompleteHint durable_handleInput : durable.


(** Two palettes with the same durable part agree on each of its fields. *)
Lemma durable_fields st st' :
  durable st' = durable st ->
  isOpen st' = isOpen st /\ inputValue st' = inputValue st
  /\ allResources st' = allResources st /\ activeFilters st' = activeFilters st
  /\ resourceCache st' = resourceCache st
  /\ currentClusterId st' = currentClusterId st
  /\ activeIframeSource st' = activeIframeSource st
  /\ loadingShown st' = loadingShown st /\ window st' = window st
  /\ alerts st' = alerts st /\ confirms st' = confirms st
  /\ invoked st' = invoked st /\ hostCalls st' = hostCalls st.
Proof. unfold durable. intros H. injection H. intros. repeat split; assumption. Qed.

(** ** Adding a filter *)

Section AddFilter.

Variables (type : FilterType) (value : string).

Let added : Filter := {| ftype := type; fvalue := value |}.

Lemma sameFilter_spec (f : Filter) : sameFilter type value f = true <-> f = added.
Proof.
  unfold sameFilter, added. destruct f as [t v]. cbn.
  rewrite andb_true_iff, bool_decide_eq_true, String.eqb_eq.
  split; [intros [-> ->]; reflexivity | intros H; by injection H].
Qed.

Lemma present_spec (filters : list Filter) :
  existsb (sameFilter type value) filters = true <-> In added filters.
Proof.
  rewrite existsb_exists. split.
  - intros [f [Hin Hf]]. apply sameFilter_spec in Hf. by subst.
  - intros Hin. exists added. split; [done | by apply sameFilter_spec].
Qed.

Lemma addFilter_present (st : Palette) :
  In added (activeFilters st) -> addFilter type value st = st.
Proof. intros H%present_spec. unfold addFilter. by rewrite H. Qed.

Lemma addFilter_absent (st : Palette) :
  ~ In added (activeFilters st) ->
  activeFilters (addFilter type value st) = activeFilters st ++ [added].
Proof.
  intros H. unfold addFilter.
  destruct (existsb _ _) eqn:E; [by apply present_spec in E|].
  match goal with |- activeFilters ?s = _ => assert (durable s = durable
    (set_activeFilters (activeFilters st ++ [added]) (set_inputValue "" st)))
    as Hd end.
  { autorewrite with durable. destruct st; reflexivity. }
  apply durable_fields in Hd as (_ & _ & _ & -> & _). by destruct st.
Qed.

Lemma addFilter_then_present (st : Palette) :
  In added (activeFilters (addFilter type value st)).
Proof.
  destruct (existsb (sameFilter type value) (activeFilters st)) eqn:E.
  - apply present_spec in E. by rewrite addFilter_present.
  - rewrite addFilter_absent.
    + apply in_or_app. right. by left.
    + intros H%present_spec. congruence.
Qed.

(** C9.  Adding a filter that is already there changes nothing, neither
    the filters (their number, contents and order) nor anything else in the
    palette; adding the same filter twice leaves what adding it once
    leaves. *)
Theorem addFilter_idempotent (st : Palette) :
  (In added (activeFilters st) ->
     addFilter type value st = st
     /\ activeFilters (addFilter type value st) = activeFilters st
     /\ length (activeFilters (addFilter type value st))
        = length (activeFilters st))
  /\ addFilter type value (addFilter type value st) = addFilter type value st
  /\ length (activeFilters (addFilter type value (addFilter type value st)))
     = length (activeFilters (addFilter type value st)).
Proof.
  assert (addFilter type value (addFilter type value st) = addFilter type value st)
    as Htwice by apply addFilter_present, addFilter_then_present.
  split; [|split].
  - intros Hin. by rewrite addFilter_present.
  - exact Htwice.
  - by rewrite Htwice.
Qed.

End AddFilter.

Lemma addFilter_idempotent_witness :
  let st := set_activeFilters [{| ftype := FKind; fvalue := "Pod" |}] initial in
  In {| ftype := FKind; fvalue := "Pod" |} (activeFilters st)
  /\ addFilter FKind "Pod" st = st.
Proof.
  intros st.
  assert (In {| ftype := FKind; fvalue := "Pod" |} (activeFilters st)) as Hin
    by (by left).
  split; [exact Hin|].
  destruct (addFilter_idempotent FKind "Pod" st) as [Hpresent _].
  by destruct (Hpresent Hin).
Defined.

(** ** Applying the filters *)

Section Filters.

Lemma passes_spec (f : Filter) (r : KubeResource) :
  passes f r = true <-> satisfies r f.
Proof.
  unfold passes, satisfies, sameIgnoringCase. destruct (ftype f).
  - apply String.eqb_eq.
  - destruct (namespace r) as [ns|].
    + rewrite String.eqb_eq. split; [eauto|].
      intros (ns' & [= <-] & H). exact H.
    + split; [done | by intros (ns' & [=] & _)].
  - by rewrite andb_true_iff, !String.eqb_eq.
Qed.

Lemma passesAll_spec (filters : list Filter) (r : KubeResource) :
  passesAll filters r = true <-> Forall (satisfies r) filters.
Proof.
  unfold passesAll. rewrite forallb_forall, List.Forall_forall.
  split; intros H f Hin; apply passes_spec, H, Hin.
Qed.

(** Narrowing by one filter after the other is narrowing by all of them
    at once. *)
Lemma applyActiveFilters_filter (filters : list Filter) (resources : list KubeResource) :
  applyActiveFilters filters resources = List.filter (passesAll filters) resources.
Proof.
  unfold applyActiveFilters. revert resources.
  induction filters as [|f filters IH]; intros resources; cbn [foldl].
  - unfold passesAll. cbn. induction resources as [|r rs IHr]; cbn; congruence.
  - rewrite IH. clear IH.
    induction resources as [|r rs IHr]; [reflexivity|].
    unfold passesAll in *. cbn [List.filter forallb].
    destruct (passes f r); cbn [List.filter andb]; [|exact IHr].
    destruct (forallb _ filters); by rewrite IHr.
Qed.

(** C6.  Applying the active filters keeps exactly the resources that
    satisfy every filter, in their order: a resource is kept if and only if
    it was there and satisfies all filters, where a kind filter compares the
    kind up to case, a namespace filter compares the namespace up to case,
    and a node filter holds only of a resource whose kind is Node and whose
    name is the filter value (compared up to case, as the other two). *)
Theorem applyActiveFilters_keeps_exactly
    (filters : list Filter) (resources : list KubeResource) :
  applyActiveFilters filters resources = List.filter (passesAll filters) resources
  /\ (forall r, passesAll filters r = true <-> Forall (satisfies r) filters)
  /\ (forall r, In r (applyActiveFilters filters resources)
                <-> In r resources /\ Forall (satisfies r) filters)
  /\ (forall r value,
        satisfies r {| ftype := FKind; fvalue := value |}
        <-> toLowerCase (kind r) = toLowerCase value)
  /\ (forall r value,
        satisfies r {| ftype := FNamespace; fvalue := value |}
        <-> exists ns, namespace r = Some ns /\ toLowerCase ns = toLowerCase value)
  /\ (forall r value,
        satisfies r {| ftype := FNode; fvalue := value |}
        <-> kind r = "Node" /\ toLowerCase (name r) = toLowerCase value).
Proof.
  split; [apply applyActiveFilters_filter|].
  split; [apply passesAll_spec|].
  split;
    [|split; [|split]; intros r value; unfold satisfies, sameIgnoringCase;
      cbn; reflexivity].
  intros r. rewrite applyActiveFilters_filter, filter_In.
  by rewrite passesAll_spec.
Qed.

(** Both places that apply the filters do it this way: the search with an
    empty input shows the first fifty kept resources. *)
Lemma performSearch_applies_filters (st : Palette) :
  isCommandMode st = false -> inputValue st = "" ->
  map resource (results (performSearch st))
  = take 50 (List.filter (passesAll (activeFilters st)) (allResources st)).
Proof.
  intros Hmode Hinput. unfold performSearch. rewrite Hmode.
  assert (forall st', results (renderResults st') = results st') as Hrender.
  { intros st'. unfold renderResults. destruct st'. cbn. by case_match. }
  rewrite Hrender. destruct st. cbn in *. subst. unfold rank. cbn.
  fold (applyActiveFilters activeFilters0 allResources0).
  rewrite applyActiveFilters_filter, map_map. cbn. apply map_id.
Qed.

End Filters.

(** ** Splitting the query *)

Section Terms.

Lemma rev_app_length (a b : string) :
  String.length (String.rev_app a b) = String.length a + String.length b.
Proof.
  revert b. induction a as [|c a IH]; intros b; cbn; [reflexivity|].
  rewrite IH. cbn. lia.
Qed.

Lemma rev_length (s : string) : String.length (String.rev s) = String.length s.
Proof. unfold String.rev. rewrite rev_app_length. cbn. lia. Qed.

(** What the code keeps of the pieces of a split. *)
Let termsFrom (cur : string) (inGap : bool) (s : string) : list string :=
  List.filter (fun term => 0 <? String.length term) (splitGo cur inGap s).

Lemma termsFrom_gap (s : string) :
  termsFrom "" true s = termsFrom "" false s.
Proof.
  unfold termsFrom. destruct s as [|c s]; [reflexivity|].
  cbn [splitGo]. by destruct (isSpace c).
Qed.

Lemma termsFrom_space (c : ascii) (s : string) :
  isSpace c = true -> termsFrom "" false (String c s) = termsFrom "" false s.
Proof.
  intros Hc. rewrite <- (termsFrom_gap s). unfold termsFrom.
  cbn [splitGo]. by rewrite Hc.
Qed.

Lemma termsFrom_letter (c : ascii) (cur : string) (inGap : bool) (s : string) :
  isSpace c = false -> termsFrom cur inGap (String c s) = termsFrom (String c cur) false s.
Proof. intros Hc. unfold termsFrom. cbn [splitGo]. by rewrite Hc. Qed.

Lemma termsFrom_blank (gap s : string) :
  allChars isSpace gap = true ->
  termsFrom "" false (gap +:+ s) = termsFrom "" false s.
Proof.
  induction gap as [|c gap IH]; intros Hgap; [reflexivity|].
  cbn [allChars] in Hgap. apply andb_true_iff in Hgap as [Hc Hgap].
  rewrite append_cons, termsFrom_space by done. by apply IH.
Qed.

Lemma termsFrom_word (word cur : string) (inGap : bool) (c : ascii) (rest : string) :
  allChars (fun c => negb (isSpace c)) (String c word) = true ->
  termsFrom cur inGap (String c word +:+ rest)
  = termsFrom (String.rev_app (String c word) cur) false rest.
Proof.
  revert cur inGap c. induction word as [|x word IH]; intros cur inGap c Hword;
    cbn [allChars] in Hword; apply andb_true_iff in Hword as [Hc Hword];
    apply negb_true_iff in Hc; rewrite append_cons, termsFrom_letter by done.
  - reflexivity.
  - by rewrite IH.
Qed.

Lemma termsFrom_end (cur rest : string) :
  cur <> "" -> endsWord rest = true ->
  termsFrom cur false rest = String.rev cur :: termsFrom "" false rest.
Proof.
  intros Hcur Hrest.
  assert (Hkeep : (0 <? String.length (String.rev cur)) = true).
  { rewrite rev_length. by destruct cur. }
  destruct rest as [|x rest].
  - unfold termsFrom. cbn [splitGo List.filter]. by rewrite Hkeep.
  - cbn [endsWord] in Hrest. rewrite termsFrom_space by done.
    rewrite <- termsFrom_gap. unfold termsFrom. cbn [splitGo]. rewrite Hrest.
    cbn [List.filter]. by rewrite Hkeep.
Qed.

Lemma rev_app_app (a b c : string) :
  String.rev_app a b +:+ c = String.rev_app a (b +:+ c).
Proof.
  revert b. induction a as [|x a IH]; intros b; [reflexivity|].
  cbn [String.rev_app]. by rewrite IH.
Qed.

Lemma rev_app_rev_app (a b c : string) :
  String.rev_app (String.rev_app a b) c = String.rev_app b (a +:+ c).
Proof.
  revert b c. induction a as [|x a IH]; intros b c; [reflexivity|].
  cbn [String.rev_app]. by rewrite IH.
Qed.

Lemma rev_rev (s : string) : String.rev (String.rev s) = s.
Proof.
  unfold String.rev. rewrite rev_app_rev_app. cbn [String.rev_app].
  apply append_empty_r.
Qed.

(** The terms of a text are its words, and nothing else is. *)
Lemma Words_searchTermsOf (s : string) (ws : list string) :
  Words s ws -> searchTermsOf s = ws.
Proof.
  change (searchTermsOf s) with (termsFrom "" false s).
  induction 1 as [gap Hgap | gap word rest ws Hgap Hne Hword Hrest _ IH].
  - rewrite <- (append_empty_r gap), termsFrom_blank by done. reflexivity.
  - rewrite termsFrom_blank by done.
    destruct word as [|c word]; [done|].
    rewrite termsFrom_word by done.
    fold (String.rev (String c word)).
    rewrite termsFrom_end; [|intros Hnone|done].
    + rewrite IH. f_equal. apply rev_rev.
    + apply (f_equal String.length) in Hnone.
      rewrite rev_length in Hnone. discriminate.
Qed.

Lemma Words_space (c : ascii) (s : string) (ws : list string) :
  isSpace c = true -> Words s ws -> Words (String c s) ws.
Proof.
  intros Hc [gap Hgap | gap word rest ws' Hgap Hne Hword Hrest Hws].
  - apply words_none. cbn [allChars]. by rewrite Hc.
  - change (String c (gap +:+ word +:+ rest))
      with (String c gap +:+ word +:+ rest).
    apply words_more; try done. cbn [allChars]. by rewrite Hc.
Qed.

Lemma searchTermsOf_Words (s : string) : Words s (searchTermsOf s).
Proof.
  change (searchTermsOf s) with (termsFrom "" false s).
  cut (Words s (termsFrom "" false s)
       /\ forall c cur,
            exists word rest ws,
              s = word +:+ rest
              /\ allChars (fun c => negb (isSpace c)) word = true
              /\ endsWord rest = true /\ Words rest ws
              /\ termsFrom (String c cur) false s
                 = (String.rev (String c cur) +:+ word) :: ws);
    [by intros [H _]|].
  induction s as [|x s [IHwords IHword]].
  - split; [by apply words_none|].
    intros c cur. exists "", "", []. rewrite !append_empty_r.
    do 3 (split; [reflexivity|]). split; [by apply words_none|].
    by rewrite termsFrom_end.
  - destruct (isSpace x) eqn:Hx.
    + assert (Hall : Words (String x s) (termsFrom "" false s))
        by (by apply Words_space).
      split; [by rewrite termsFrom_space|].
      intros c cur. exists "", (String x s), (termsFrom "" false s).
      rewrite !append_empty_r.
      do 2 (split; [reflexivity|]). split; [exact Hx|]. split; [exact Hall|].
      rewrite termsFrom_end by done. by rewrite termsFrom_space.
    + split.
      * rewrite termsFrom_letter by done.
        destruct (IHword x "") as (word & rest & ws & -> & Hword & Hrest & Hws & ->).
        change (String.rev (String x "") +:+ word) with (String x word).
        change (String x (word +:+ rest)) with ("" +:+ String x word +:+ rest).
        apply words_more; try done. cbn [allChars]. by rewrite Hx.
      * intros c cur. rewrite termsFrom_letter by done.
        destruct (IHword x (String c cur))
          as (word & rest & ws & -> & Hword & Hrest & Hws & ->).
        exists (String x word), rest, ws.
        split; [reflexivity|]. split; [cbn [allChars]; by rewrite Hx|].
        do 2 (split; [done|]). f_equal.
        unfold String.rev. cbn [String.rev_app]. by rewrite !rev_app_app.
Qed.

Lemma searchTermsOf_nonempty (s term : string) :
  In term (searchTermsOf s) -> term <> "".
Proof.
  unfold searchTermsOf. rewrite filter_In. intros [_ H] ->. discriminate.
Qed.

End Terms.

(** ** Ranking *)

Section TermTiers.

Variable r : KubeResource.

Let displayLower := toLowerCase (getDisplayText r).
Let nameLower := toLowerCase (name r).
Let kindLower := toLowerCase (kind r).
Let namespaceLower := namespaceLowerOf r.

Lemma includes_false (text pat : string) :
  includes text pat = false <-> ~ Substring pat text.
Proof. rewrite <- includes_spec. by destruct (includes text pat). Qed.

Lemma Qlt_bool_iff (a b : Q) : Qlt_bool a b = true <-> (a < b)%Q.
Proof.
  unfold Qlt_bool. rewrite negb_true_iff. split.
  - intros H. apply Qnot_le_lt. intros Hle. apply Qle_bool_iff in Hle. congruence.
  - intros H. destruct (Qle_bool b a) eqn:E; [|reflexivity].
    apply Qle_bool_iff in E. by apply Qlt_not_le in H.
Qed.

Lemma fuzzyQuotient_one (term : string) :
  term <> "" -> (fuzzyQuotient term == 1)%Q.
Proof.
  intros H. apply quotient_self. destruct term; [done | cbn; lia].
Qed.

Lemma fuzzy_positive (text term : string) :
  term <> "" ->
  Qlt_bool 0 (fuzzyMatch text term) = true <-> Subsequence term text.
Proof.
  intros Hterm. rewrite Qlt_bool_iff. split.
  - intros Hpos. destruct (subsequence_dec term text) as [|Hno]; [done|].
    rewrite (fuzzyMatch_no_subsequence _ _ Hno) in Hpos.
    by apply Qlt_irrefl in Hpos.
  - intros Hsub. by rewrite (fuzzyMatch_subsequence _ _ Hterm Hsub).
Qed.

(** One turn of the loop over the terms: the branch taken names the tier
    the term matches through, and adds its score. *)
Lemma first_tier (term : string) :
  term <> "" ->
  (exists t added,
     matchesThrough r term t /\ (added == tierScore term t)%Q
     /\ forall rest total,
          scoreTerms displayLower nameLower kindLower namespaceLower
                     (term :: rest) total
          = scoreTerms displayLower nameLower kindLower namespaceLower
                       rest (total + added)%Q)
  \/ (~ termMatches r term
      /\ forall rest total,
           scoreTerms displayLower nameLower kindLower namespaceLower
                      (term :: rest) total = None).
Proof.
  intros Hterm.
  destruct (includes displayLower term) eqn:Hd.
  { left. exists DisplayTier, 10%Q. split; [|split].
    - split; [by apply includes_spec | cbn; intros; lia].
    - reflexivity.
    - intros. cbn [scoreTerms]. by rewrite Hd. }
  destruct (includes nameLower term) eqn:Hn.
  { left. exists NameTier, 8%Q. split; [|split].
    - split; [by apply includes_spec|].
      intros [] Ht'; cbn in Ht'; try lia. by apply includes_false.
    - reflexivity.
    - intros. cbn [scoreTerms]. by rewrite Hd, Hn. }
  destruct (includes kindLower term) eqn:Hk.
  { left. exists KindTier, 6%Q. split; [|split].
    - split; [by apply includes_spec|].
      intros [] Ht'; cbn in Ht'; try lia; by apply includes_false.
    - reflexivity.
    - intros. cbn [scoreTerms]. by rewrite Hd, Hn, Hk. }
  destruct (includes namespaceLower term) eqn:Hs.
  { left. exists NamespaceTier, 5%Q. split; [|split].
    - split; [by apply includes_spec|].
      intros [] Ht'; cbn in Ht'; try lia; by apply includes_false.
    - reflexivity.
    - intros. cbn [scoreTerms]. by rewrite Hd, Hn, Hk, Hs. }
  destruct (Qlt_bool 0 (fuzzyMatch displayLower term)) eqn:Hf.
  - left. exists FuzzyTier, (fuzzyMatch displayLower term * 2)%Q.
    apply fuzzy_positive in Hf; [|done]. split; [|split].
    + split; [exact Hf|].
      intros [] Ht'; cbn in Ht'; try lia; by apply includes_false.
    + cbn. rewrite (fuzzyMatch_subsequence _ _ Hterm Hf).
      by rewrite (fuzzyQuotient_one _ Hterm).
    + intros. cbn [scoreTerms]. rewrite Hd, Hn, Hk, Hs. cbn zeta.
      destruct (Qlt_bool 0 (fuzzyMatch displayLower term)) eqn:Hf'; [done|].
      apply (fuzzy_positive _ _ Hterm) in Hf. congruence.
  - right. split.
    + intros [[] Ht]; cbn in Ht.
      * by apply includes_false in Hd.
      * by apply includes_false in Hn.
      * by apply includes_false in Hk.
      * by apply includes_false in Hs.
      * apply (fuzzy_positive _ _ Hterm) in Ht. unfold displayLower in Hf.
        congruence.
    + intros. cbn [scoreTerms]. by rewrite Hd, Hn, Hk, Hs, Hf.
Qed.

(** The whole loop: it ends with a total exactly when every term matches,
    and the total is the sum of the tier scores. *)
Lemma scoreTerms_spec (terms : list string) :
  Forall (fun term => term <> "") terms ->
  forall start,
    match scoreTerms displayLower nameLower kindLower namespaceLower terms start with
    | Some total => exists sum, Scores r terms sum /\ (total == start + sum)%Q
    | None => ~ Forall (termMatches r) terms
    end.
Proof.
  induction 1 as [|term rest Hterm Hrest IH]; intros start.
  - cbn. exists 0%Q. split; [constructor | by rewrite Qplus_0_r].
  - destruct (first_tier term Hterm) as [(t & added & Hthrough & Hadded & Hstep)
                                        | [Hno Hstep]].
    + rewrite Hstep. specialize (IH (start + added)%Q).
      destruct (scoreTerms _ _ _ _ rest _) as [total|].
      * destruct IH as (sum & Hsum & Htotal).
        exists (tierScore term t + sum)%Q. split; [by constructor|].
        rewrite Htotal, Hadded. ring.
      * intros Hall. apply IH. by inversion Hall.
    + rewrite Hstep. intros Hall. apply Hno. by inversion Hall.
Qed.

Lemma tierScore_positive (term : string) (t : Tier) :
  term <> "" -> (0 < tierScore term t)%Q.
Proof.
  intros Hterm. destruct t; cbn; try reflexivity.
  by rewrite (fuzzyQuotient_one _ Hterm).
Qed.

Lemma Scores_nonnegative (terms : list string) (sum : Q) :
  Forall (fun term => term <> "") terms -> Scores r terms sum -> (0 <= sum)%Q.
Proof.
  intros Hterms Hsum. induction Hsum as [|term rest t total Ht Hrest IH].
  - apply Qle_refl.
  - inversion Hterms; subst.
    apply Qlt_le_weak, (Qlt_le_trans _ (tierScore term t + 0)).
    + rewrite Qplus_0_r. by apply tierScore_positive.
    + apply Qplus_le_r. auto.
Qed.

Lemma Scores_positive (terms : list string) (sum : Q) :
  terms <> [] -> Forall (fun term => term <> "") terms ->
  Scores r terms sum -> (0 < sum)%Q.
Proof.
  intros Hne Hterms Hsum. destruct Hsum as [|term rest t total Ht Hrest]; [done|].
  inversion Hterms; subst.
  apply (Qlt_le_trans _ (tierScore term t + 0)).
  - rewrite Qplus_0_r. by apply tierScore_positive.
  - apply Qplus_le_r. by eapply Scores_nonnegative.
Qed.

Lemma Scores_matches (terms : list string) (sum : Q) :
  Scores r terms sum -> Forall (termMatches r) terms.
Proof.
  induction 1 as [|term rest t total [Ht _] Hrest IH]; constructor; [|done].
  by exists t.
Qed.

(** An item is kept by the filter on the score exactly when every term
    matches it; its score is then the sum over its terms. *)
Lemma scoreResource_spec (terms : list string) :
  terms <> [] -> Forall (fun term => term <> "") terms ->
  (Qlt_bool 0 (matchScore (scoreResource terms r)) = true
   <-> Forall (termMatches r) terms)
  /\ (Qlt_bool 0 (matchScore (scoreResource terms r)) = true ->
      exists sum, Scores r terms sum
                  /\ (matchScore (scoreResource terms r) == sum)%Q).
Proof.
  intros Hne Hterms. pose proof (scoreTerms_spec terms Hterms 0%Q) as Hspec.
  unfold scoreResource. cbn [matchScore].
  fold displayLower nameLower kindLower. fold (namespaceLowerOf r).
  fold namespaceLower.
  destruct (scoreTerms _ _ _ _ terms _) as [total|].
  - destruct Hspec as (sum & Hsum & Htotal). rewrite Qplus_0_l in Htotal.
    split.
    + split; [intros _; by eapply Scores_matches|].
      intros _. apply Qlt_bool_iff. rewrite Htotal.
      by eapply Scores_positive.
    + intros _. by exists sum.
  - split; [split|]; [discriminate | done | discriminate].
Qed.

End TermTiers.

Section SortByScore.

Lemma insertByScore_permutation (x : SearchResult) (l : list SearchResult) :
  Permutation (insertByScore x l) (x :: l).
Proof.
  induction l as [|y l IH]; cbn; [reflexivity|].
  destruct (Qle_bool (matchScore y) (matchScore x)); [reflexivity|].
  rewrite IH. apply perm_swap.
Qed.

Lemma sortByScore_permutation (l : list SearchResult) :
  Permutation (sortByScore l) l.
Proof.
  induction l as [|x l IH]; cbn; [reflexivity|].
  fold (sortByScore l). rewrite insertByScore_permutation. by constructor.
Qed.

Lemma insertByScore_descending (x : SearchResult) (l : list SearchResult) :
  descending l -> descending (insertByScore x l).
Proof.
  unfold descending. induction l as [|y l IH]; intros Hl; cbn.
  - repeat constructor.
  - destruct (Qle_bool (matchScore y) (matchScore x)) eqn:E.
    + constructor; [exact Hl|]. constructor. by apply Qle_bool_iff.
    + assert (matchScore x <= matchScore y)%Q as Hxy.
      { apply Qlt_le_weak, Qnot_le_lt. intros H%Qle_bool_iff. congruence. }
      inversion Hl as [|? ? Hsorted Hhead]; subst.
      constructor; [by apply IH|].
      destruct l as [|z l]; cbn; [by constructor|].
      destruct (Qle_bool (matchScore z) (matchScore x)); constructor;
        [exact Hxy | by inversion Hhead].
Qed.

Lemma sortByScore_descending (l : list SearchResult) : descending (sortByScore l).
Proof.
  induction l as [|x l IH]; cbn; [constructor|].
  by apply insertByScore_descending.
Qed.

End SortByScore.

Section Ranking.

Variables (resources : list KubeResource) (query : string).

Let terms := searchTermsOf (toLowerCase query).

Lemma terms_nonempty : Forall (fun term => term <> "") terms.
Proof.
  apply List.Forall_forall. intros term. apply searchTermsOf_nonempty.
Qed.

Lemma matching_spec (r : KubeResource) :
  terms <> [] ->
  In r (map resource (matching terms resources))
  <-> In r resources /\ Forall (termMatches r) terms.
Proof.
  intros Hne. unfold matching. rewrite in_map_iff. split.
  - intros (res & <- & Hin). apply filter_In in Hin as [Hin Hpos].
    apply in_map_iff in Hin as (r' & <- & Hin). cbn in *.
    split; [exact Hin|].
    by apply (scoreResource_spec r' terms Hne terms_nonempty).
  - intros [Hin Hall]. exists (scoreResource terms r). split; [reflexivity|].
    apply filter_In. split; [by apply in_map|].
    by apply (scoreResource_spec r terms Hne terms_nonempty).
Qed.

Lemma matching_score (res : SearchResult) :
  terms <> [] ->
  In res (matching terms resources) ->
  exists total, Scores (resource res) terms total /\ (matchScore res == total)%Q.
Proof.
  intros Hne Hin. unfold matching in Hin. apply filter_In in Hin as [Hin Hpos].
  apply in_map_iff in Hin as (r & <- & Hin).
  by apply (scoreResource_spec r terms Hne terms_nonempty).
Qed.

Lemma rank_of_terms :
  terms <> [] -> rank query resources = take 50 (sortByScore (matching terms resources)).
Proof.
  intros Hne. unfold rank. destruct query; [done | reflexivity].
Qed.

(** C2, as amended.  For a query with at least one term (the terms being
    the words of the query in lower case, split on white space, and
    nothing else): an item is among the matching items exactly
    when it is in the list and every term matches it through some tier;
    the score of a matching item is the sum, over the terms, of the score of
    the first tier that holds (10, 8, 6, 5, or twice the fuzzy quotient);
    the ranked results are the first 50 matching items in descending order
    of score, hence all of them when at most 50 match. *)
Theorem ranking_by_tiers :
  terms <> [] ->
  (Words (toLowerCase query) terms
   /\ forall ws, Words (toLowerCase query) ws -> ws = terms)
  /\ (forall r, In r (map resource (matching terms resources))
                <-> In r resources /\ Forall (termMatches r) terms)
  /\ (forall res, In res (matching terms resources) ->
        exists total,
          Scores (resource res) terms total /\ (matchScore res == total)%Q)
  /\ (exists sorted,
        Permutation sorted (matching terms resources) /\ descending sorted
        /\ rank query resources = take 50 sorted)
  /\ (length (matching terms resources) <= 50 ->
      forall r, In r (map resource (rank query resources))
                <-> In r resources /\ Forall (termMatches r) terms).
Proof.
  intros Hne. split.
  { split; [apply searchTermsOf_Words|].
    intros ws Hws. symmetry. by apply Words_searchTermsOf. }
  split; [intros r; by apply matching_spec|].
  split; [intros res; by apply matching_score|].
  split.
  - exists (sortByScore (matching terms resources)).
    split; [apply sortByScore_permutation|].
    split; [apply sortByScore_descending | by apply rank_of_terms].
  - intros Hlen r. rewrite rank_of_terms by done.
    rewrite take_ge.
    + rewrite <- (matching_spec r Hne).
      split; apply Permutation_in, Permutation_map;
        [|symmetry]; apply sortByScore_permutation.
    + rewrite (Permutation_length (sortByScore_permutation _)). lia.
Qed.

End Ranking.

Lemma not_in_by_computation (x : KubeResource) (l : list KubeResource) :
  bool_decide (x ∈ l) = false -> ~ In x l.
Proof. rewrite <- list_elem_of_In. apply bool_decide_eq_false_1. Qed.

Lemma ranking_by_tiers_witness :
  searchTermsOf (toLowerCase "a") <> []
  /\ (In podA (map resource (rank "a" sample))
      <-> In podA sample /\ Forall (termMatches podA) (searchTermsOf (toLowerCase "a"))).
Proof.
  assert (searchTermsOf (toLowerCase "a") <> []) as Hne by discriminate.
  split; [exact Hne|].
  destruct (ranking_by_tiers sample "a" Hne) as (_ & _ & _ & _ & Hall).
  apply Hall. vm_compute. lia.
Defined.

(** C2 as stated fails twice.  A query made of white space is not empty
    and has no term, so every term matches every item, yet nothing is
    ranked.  And of 51 items that all contain the term, the last is cut. *)
Lemma ranking_counterexample :
  (let query := " " in
   query <> ""
   /\ In podA sample
   /\ Forall (termMatches podA) (searchTermsOf (toLowerCase query))
   /\ ~ In podA (map resource (rank query sample)))
  /\ (let query := "a" in
      let last := numbered 50 in
      In last (crowd 51)
      /\ Forall (termMatches last) (searchTermsOf (toLowerCase query))
      /\ ~ In last (map resource (rank query (crowd 51)))).
Proof.
  split.
  - cbv zeta. split; [discriminate|]. split; [by left|].
    split; [constructor|]. apply not_in_by_computation.
    vm_compute. reflexivity.
  - cbv zeta. split; [|split].
    + apply in_map, in_seq. lia.
    + constructor; [|constructor]. exists DisplayTier. cbn.
      by exists "pod/", "".
    + apply not_in_by_computation. vm_compute. reflexivity.
Qed.

(** ** Suggestions *)

Section SortStrings.

Lemma insertSorted_permutation (x : string) (l : list string) :
  Permutation (insertSorted x l) (x :: l).
Proof.
  induction l as [|y l IH]; cbn; [reflexivity|].
  destruct (String.leb x y); [reflexivity|].
  rewrite IH. apply perm_swap.
Qed.

Lemma sort_permutation (l : list string) : Permutation (Str.sort l) l.
Proof.
  induction l as [|x l IH]; cbn; [reflexivity|].
  fold (Str.sort l). rewrite insertSorted_permutation. by constructor.
Qed.

Lemma insertSorted_sorted (x : string) (l : list string) :
  Sorted lexLe l -> Sorted lexLe (insertSorted x l).
Proof.
  induction l as [|y l IH]; intros Hl; cbn.
  - repeat constructor.
  - destruct (String.leb x y) eqn:E.
    + constructor; [exact Hl | by constructor].
    + assert (lexLe y x) as Hyx.
      { destruct (String.leb_total x y) as [H|H]; [congruence | exact H]. }
      inversion Hl as [|? ? Hsorted Hhead]; subst.
      constructor; [by apply IH|].
      destruct l as [|z l]; cbn; [by constructor|].
      destruct (String.leb x z); constructor; [exact Hyx | by inversion Hhead].
Qed.

Lemma sort_sorted (l : list string) : Sorted lexLe (Str.sort l).
Proof.
  induction l as [|x l IH]; cbn; [constructor | by apply insertSorted_sorted].
Qed.

Lemma sort_In (l : list string) (x : string) : In x (Str.sort l) <-> In x l.
Proof.
  split; apply Permutation_in; [|symmetry]; apply sort_permutation.
Qed.

Lemma sort_ordered (l : list string) : NoDup l -> ordered (Str.sort l).
Proof.
  intros Hl. split; [apply sort_sorted|].
  by rewrite sort_permutation.
Qed.

End SortStrings.

Section Candidates.

Lemma uniqueGo_In (seen xs : list string) (x : string) :
  In x (uniqueGo seen xs) <-> In x xs /\ ~ In x seen.
Proof.
  revert seen. induction xs as [|y xs IH]; intros seen; cbn; [tauto|].
  case_bool_decide as Hseen; rewrite list_elem_of_In in Hseen.
  - rewrite IH. split; [tauto|].
    intros [[->|Hin] Hnot]; tauto.
  - cbn. rewrite IH. cbn. split.
    + intros [->|[Hin Hnot]]; tauto.
    + intros [[->|Hin] Hnot]; [tauto|].
      destruct (decide (y = x)); tauto.
Qed.

Lemma uniqueGo_NoDup (seen xs : list string) : NoDup (uniqueGo seen xs).
Proof.
  revert seen. induction xs as [|y xs IH]; intros seen; cbn; [constructor|].
  case_bool_decide; [apply IH|].
  constructor; [|apply IH].
  rewrite list_elem_of_In, uniqueGo_In. cbn. tauto.
Qed.

Lemma unique_In (xs : list string) (x : string) : In x (unique xs) <-> In x xs.
Proof. unfold unique. rewrite uniqueGo_In. cbn. tauto. Qed.

Lemma unique_NoDup (xs : list string) : NoDup (unique xs).
Proof. apply uniqueGo_NoDup. Qed.

Lemma fieldValues_NoDup (t : FilterType) (resources : list KubeResource) :
  NoDup (fieldValues t resources).
Proof. destruct t; apply unique_NoDup. Qed.

Lemma fieldValues_In (t : FilterType) (resources : list KubeResource) (s : string) :
  In s (fieldValues t resources)
  <-> exists r, In r resources /\ fieldOf t r = Some s.
Proof.
  destruct t; cbn [fieldValues fieldOf]; rewrite unique_In.
  - rewrite in_map_iff. split; intros (r & H1 & H2); exists r.
    + by subst.
    + split; [congruence | done].
  - rewrite <- list_elem_of_In, list_elem_of_omap.
    setoid_rewrite list_elem_of_In. reflexivity.
  - rewrite in_map_iff. split.
    + intros (r & <- & [Hin Hnode]%filter_In). exists r. by rewrite Hnode.
    + intros (r & Hin & Hr). exists r.
      destruct (String.eqb (kind r) "Node") eqn:E; [|done].
      split; [congruence | by apply filter_In].
Qed.

Lemma narrowTo_In (partial : string) (values : list string) (s : string) :
  In s (narrowTo partial values)
  <-> In s values /\ Substring (toLowerCase partial) (toLowerCase s).
Proof. unfold narrowTo. by rewrite filter_In, includes_spec. Qed.

Lemma narrowTo_NoDup (partial : string) (values : list string) :
  NoDup values -> NoDup (narrowTo partial values).
Proof.
  unfold narrowTo. induction 1 as [|v values Hv Hvalues IH]; cbn; [constructor|].
  case_match; [|exact IH]. constructor; [|exact IH].
  rewrite list_elem_of_In, filter_In, <- list_elem_of_In. tauto.
Qed.

Lemma narrowTo_empty (values : list string) : narrowTo "" values = values.
Proof.
  unfold narrowTo. induction values as [|v values IH]; [reflexivity|].
  cbn [List.filter]. rewrite IH. by destruct (toLowerCase v).
Qed.

(** The full list of candidates computed by the code: ordered, and made of
    exactly the candidates the specification describes. *)
Lemma candidates_spec (t : FilterType) (resources : list KubeResource)
    (partial : string) :
  let full := Str.sort (narrowTo partial (fieldValues t resources)) in
  ordered full /\ forall s, In s full <-> candidateOf t resources partial s.
Proof.
  cbv zeta. split.
  - apply sort_ordered, narrowTo_NoDup, fieldValues_NoDup.
  - intros s. unfold candidateOf.
    by rewrite sort_In, narrowTo_In, fieldValues_In.
Qed.

Lemma suggestions_shown (suggestions : list string) (st : Palette) :
  autocompleteSuggestions (showSuggestions suggestions st) = suggestions.
Proof. unfold showSuggestions. destruct st. cbn. by case_match. Qed.

End Candidates.

Section Suggestions.

Lemma matchCommandPattern_slash (query word : string) (trailing : option string) :
  matchCommandPattern query = Some (word, trailing) -> startsWith query "/" = true.
Proof.
  destruct query as [|c query]; [discriminate|]. cbn.
  destruct (ascii_dec c "/") as [->|Hne]; [done|].
  destruct c as [[] [] [] [] [] [] [] []]; try discriminate. by destruct Hne.
Qed.

Lemma showSuggestions_filterType (suggestions : list string) (st : Palette) :
  autocompleteFilterType (showSuggestions suggestions st) = autocompleteFilterType st.
Proof. unfold showSuggestions. destruct st. cbn. by case_match. Qed.

(** Outside command mode. *)
Lemma suggestions_plain (st : Palette) (t : FilterType) (rest : string) :
  startsWith (inputValue st) "/" = false ->
  matchFilterPattern (inputValue st) = Some (t, rest) ->
  autocompleteFilterType (updateAutocompleteHint st) = Some t
  /\ autocompleteSuggestions (updateAutocompleteHint st)
     = take (if isEmpty (trim rest) then 10 else 8)
            (Str.sort (narrowTo (trim rest) (fieldValues t (allResources st)))).
Proof.
  intros Hslash Hfilter. unfold updateAutocompleteHint.
  rewrite Hslash, Hfilter. unfold suggestPlain.
  destruct (isEmpty (trim rest)) eqn:Hpartial.
  - rewrite suggestions_shown, showSuggestions_filterType.
    apply String.eqb_eq in Hpartial. rewrite Hpartial, narrowTo_empty.
    by destruct st.
  - rewrite suggestions_shown, showSuggestions_filterType. by destruct st.
Qed.

(** Command mode. *)
Lemma suggestions_command (st : Palette) (word trailing : string) (cmd : Command)
    (t : FilterType) (rest : string) :
  matchCommandPattern (inputValue st) = Some (word, Some trailing) ->
  List.find (commandNamed (toLowerCase word)) (availableCommands st) = Some cmd ->
  matchFilterPattern trailing = Some (t, rest) ->
  autocompleteSuggestions (updateAutocompleteHint st)
  = match t, resourceTypes cmd with
    | FKind, Some types =>
        if isEmpty (trim rest) then Str.sort types
        else take 10 (Str.sort (narrowTo (trim rest) types))
    | _, _ =>
        take 10 (Str.sort (narrowTo (trim rest) (fieldValues t (allResources st))))
    end.
Proof.
  intros Hcommand Hfind Hfilter. unfold updateAutocompleteHint.
  rewrite (matchCommandPattern_slash _ _ _ Hcommand), Hcommand.
  assert (forall v, availableCommands (set_isCommandMode v st) = availableCommands st)
    as -> by (intros; by destruct st).
  rewrite Hfind. change (default "" (Some trailing)) with trailing.
  rewrite Hfilter. unfold suggestForCommand.
  destruct (isEmpty (trim rest)) eqn:Hpartial.
  - apply String.eqb_eq in Hpartial.
    destruct t, (resourceTypes cmd) as [types|];
      rewrite suggestions_shown, ?Hpartial, ?narrowTo_empty; try reflexivity;
      by destruct st.
  - destruct t, (resourceTypes cmd) as [types|];
      rewrite suggestions_shown; try reflexivity; by destruct st.
Qed.

(** C7, as amended.  Outside command mode the suggestions are the first
    10 (8 when a non-empty partial value is typed) of the ordered list of
    the distinct values of the attribute's field across all resources that
    contain the partial value, case ignored.  In command mode the same
    list is cut to a prefix, of 10 entries when the partial value is empty,
    unless the attribute is the kind and the command declares accepted
    kinds: then the suggestions are a prefix of those accepted kinds
    themselves, sorted and narrowed by the partial value, and all of them
    when the partial value is empty. *)
Theorem suggestions_derivation (st : Palette) :
  (forall t rest,
     startsWith (inputValue st) "/" = false ->
     matchFilterPattern (inputValue st) = Some (t, rest) ->
     exists full,
       ordered full
       /\ (forall s, In s full <-> candidateOf t (allResources st) (trim rest) s)
       /\ autocompleteFilterType (updateAutocompleteHint st) = Some t
       /\ autocompleteSuggestions (updateAutocompleteHint st)
          = take (if isEmpty (trim rest) then 10 else 8) full)
  /\ (forall word trailing cmd t rest,
        matchCommandPattern (inputValue st) = Some (word, Some trailing) ->
        List.find (commandNamed (toLowerCase word)) (availableCommands st) = Some cmd ->
        matchFilterPattern trailing = Some (t, rest) ->
        match t, resourceTypes cmd with
        | FKind, Some types =>
            exists n,
              autocompleteSuggestions (updateAutocompleteHint st)
              = take n (Str.sort (narrowTo (trim rest) types))
              /\ (trim rest = "" -> length types <= n)
        | _, _ =>
            exists full n,
              ordered full
              /\ (forall s, In s full
                            <-> candidateOf t (allResources st) (trim rest) s)
              /\ autocompleteSuggestions (updateAutocompleteHint st) = take n full
              /\ (trim rest = "" -> n = 10)
        end).
Proof.
  split.
  - intros t rest Hslash Hfilter.
    destruct (suggestions_plain st t rest Hslash Hfilter) as [Htype Hlist].
    destruct (candidates_spec t (allResources st) (trim rest)) as [Hordered Hin].
    eauto 6.
  - intros word trailing cmd t rest Hcommand Hfind Hfilter.
    pose proof (suggestions_command st _ _ _ _ _ Hcommand Hfind Hfilter) as Hlist.
    destruct (candidates_spec t (allResources st) (trim rest)) as [Hordered Hin].
    assert (forall types,
              autocompleteSuggestions (updateAutocompleteHint st)
              = (if isEmpty (trim rest) then Str.sort types
                 else take 10 (Str.sort (narrowTo (trim rest) types))) ->
              exists n,
                autocompleteSuggestions (updateAutocompleteHint st)
                = take n (Str.sort (narrowTo (trim rest) types))
                /\ (trim rest = "" -> length types <= n)) as Htypes.
    { intros types ->. destruct (isEmpty (trim rest)) eqn:Hpartial.
      - apply String.eqb_eq in Hpartial. exists (length types).
        rewrite Hpartial, narrowTo_empty. split; [|done].
        rewrite take_ge; [done|].
        by rewrite (Permutation_length (sort_permutation types)).
      - exists 10. split; [done|]. intros Hempty. rewrite Hempty in Hpartial.
        discriminate. }
    destruct t, (resourceTypes cmd) as [types|]; eauto 8.
Qed.

End Suggestions.

Lemma suggestions_derivation_witness :
  let st := set_inputValue "kind:s" (set_allResources sample opened) in
  startsWith (inputValue st) "/" = false
  /\ matchFilterPattern (inputValue st) = Some (FKind, "s")
  /\ exists full,
       ordered full
       /\ (forall s, In s full <-> candidateOf FKind (allResources st) (trim "s") s)
       /\ autocompleteFilterType (updateAutocompleteHint st) = Some FKind
       /\ autocompleteSuggestions (updateAutocompleteHint st)
          = take (if isEmpty (trim "s") then 10 else 8) full.
Proof.
  intros st.
  assert (startsWith (inputValue st) "/" = false) as Hslash by reflexivity.
  assert (matchFilterPattern (inputValue st) = Some (FKind, "s")) as Hfilter
    by reflexivity.
  split; [exact Hslash|]. split; [exact Hfilter|].
  destruct (suggestions_derivation st) as [Hplain _].
  exact (Hplain FKind "s" Hslash Hfilter).
Defined.

(** C7 as stated fails in command mode.  With no resource loaded, the kind
    suggestions of the logs command are its accepted kinds, which are the
    kind of no resource; and nine namespaces that contain the partial value
    are all suggested for the describe command, one more than eight. *)
Lemma suggestions_counterexample :
  (let st := set_inputValue "/logs kind:" opened in
   allResources st = []
   /\ autocompleteSuggestions (updateAutocompleteHint st) = ["Pod"])
  /\ (let st := set_inputValue "/describe namespace:n"
                  (set_allResources nineNamespaces opened) in
      length (autocompleteSuggestions (updateAutocompleteHint st)) = 9).
Proof. split; cbv zeta; [split|]; reflexivity. Qed.

(** ** Escape *)

Section EscapeKey.

Variable env : Env.

(** With an empty input the hint leaves every nested mode. *)
Lemma updateAutocompleteHint_empty (st : Palette) :
  inputValue st = "" ->
  updateAutocompleteHint st
  = resetAutocomplete
      (set_commandSearchQuery "" (set_activeCommand None (set_isCommandMode false st))).
Proof. intros H. unfold updateAutocompleteHint. by rewrite H. Qed.

(** What the palette looks like after [handleInput] on an empty input. *)
Lemma handleInput_empty (st : Palette) :
  inputValue st = "" ->
  let st' := handleInput st in
  isOpen st' = isOpen st /\ inputValue st' = ""
  /\ isCommandMode st' = false /\ activeCommand st' = None
  /\ commandSearchQuery st' = "" /\ autocompleteSuggestions st' = []
  /\ autocompleteFilterType st' = None
  /\ activeFilters st' = activeFilters st.
Proof.
  intros H. cbv zeta. unfold handleInput.
  rewrite (updateAutocompleteHint_empty st H).
  destruct st. cbn in *. by subst.
Qed.

Lemma escape_in_command_mode (st : Palette) :
  isCommandMode st = true ->
  exists st0, handleKeyDown env Escape st = handleInput st0
              /\ inputValue st0 = "" /\ isOpen st0 = isOpen st
              /\ activeFilters st0 = activeFilters st.
Proof.
  intros Hmode. unfold handleKeyDown. rewrite Hmode. cbn [andb].
  destruct (bool_decide (is_Some (autocompleteFilterType st)) && suggestionsShown st).
  - cbn. eexists. split; [reflexivity|]. by destruct st.
  - destruct (bool_decide (is_Some (activeCommand st)) && hasSearchText st).
    + cbn. eexists. split; [reflexivity|]. by destruct st.
    + cbn. eexists. split; [reflexivity|]. by destruct st.
Qed.

Lemma escape_outside_command_mode (st : Palette) :
  isCommandMode st = false -> handleKeyDown env Escape st = close st.
Proof.
  intros Hmode. unfold handleKeyDown. rewrite Hmode. cbn [andb].
  by destruct (suggestionsShown st).
Qed.

(** C8, as amended.  In command mode, whichever of its three states is
    active, Escape empties the input, leaves every nested mode and keeps
    the palette open; outside command mode, suggestions shown or not,
    Escape closes the palette. *)
Theorem escape_unwinds_command_mode (st : Palette) :
  (isCommandMode st = true ->
   let st' := handleKeyDown env Escape st in
   isOpen st' = isOpen st /\ inputValue st' = ""
   /\ isCommandMode st' = false /\ activeCommand st' = None
   /\ commandSearchQuery st' = "" /\ autocompleteSuggestions st' = []
   /\ autocompleteFilterType st' = None
   /\ activeFilters st' = activeFilters st)
  /\ (isCommandMode st = false ->
      handleKeyDown env Escape st = close st
      /\ isOpen (handleKeyDown env Escape st) = false).
Proof.
  split.
  - intros Hmode. cbv zeta.
    destruct (escape_in_command_mode st Hmode) as (st0 & -> & Hinput & <- & <-).
    by apply handleInput_empty.
  - intros Hmode. rewrite (escape_outside_command_mode st Hmode).
    split; [reflexivity | by destruct st].
Qed.

End EscapeKey.

Lemma escape_unwinds_command_mode_witness :
  let st := typed "/logs a" in
  isCommandMode st = true
  /\ isOpen st = true
  /\ isOpen (handleKeyDown declining Escape st) = true
  /\ inputValue (handleKeyDown declining Escape st) = "".
Proof.
  intros st. assert (isCommandMode st = true) as Hmode by reflexivity.
  split; [exact Hmode|]. split; [reflexivity|].
  destruct (escape_unwinds_command_mode declining st) as [Hcommand _].
  destruct (Hcommand Hmode) as (Hopen & Hinput & _).
  split; [by rewrite Hopen | exact Hinput].
Defined.

(** C8 as stated fails outside command mode: with the suggestions of a
    filter shown, Escape closes the palette instead of unwinding. *)
Lemma escape_counterexample :
  let st := typed "kind:" in
  isOpen st = true
  /\ isCommandMode st = false
  /\ autocompleteFilterType st = Some FKind
  /\ autocompleteSuggestions st = ["Pod"; "Service"]
  /\ isOpen (handleKeyDown declining Escape st) = false.
Proof. cbv zeta. repeat split; reflexivity. Qed.

(** ** The message channel *)

Section ChannelFacts.

Import Channel.

Lemma step_requests (e : Event) (w : Window) :
  requests (step e w) = map (stepRequest e (advance e (clock w))) (requests w)
  /\ clock (step e w) = advance e (clock w)
  /\ posted (step e w) = posted w.
Proof. by destruct e. Qed.

(** The requests of a window go through a run independently. *)
Lemma run_requests (evs : list Event) (w : Window) :
  requests (run evs w) = map (runRequest evs (clock w)) (requests w)
  /\ clock (run evs w) = (clock w + elapsed evs)%Z
  /\ posted (run evs w) = posted w.
Proof.
  unfold run. revert w. induction evs as [|e evs IH]; intros w; cbn [foldl].
  - cbn. rewrite map_id. split; [done | split; [lia | done]].
  - destruct (IH (step e w)) as (Hreq & Hclock & Hposted).
    destruct (step_requests e w) as (Hreq1 & Hclock1 & Hposted1).
    rewrite Hreq, Hclock, Hposted, Hreq1, Hclock1, Hposted1, map_map.
    split; [done|]. split; [|done].
    destruct e; unfold elapsed; cbn [advance foldr]; lia.
Qed.

Lemma elapsed_nonnegative (evs : list Event) : (0 <= elapsed evs)%Z.
Proof.
  induction evs as [|[data|ms] evs IH]; [done | exact IH |].
  unfold elapsed; cbn [foldr]; fold (elapsed evs); lia.
Qed.

Lemma elapsed_app (evs later : list Event) :
  elapsed (evs ++ later) = (elapsed evs + elapsed later)%Z.
Proof.
  induction evs as [|[data|ms] evs IH]; [done | exact IH |].
  unfold elapsed in *; cbn [foldr app]. rewrite IH. lia.
Qed.

Lemma runRequest_app (evs later : list Event) (now : Z) (r : Request) :
  runRequest (evs ++ later) now r
  = runRequest later (now + elapsed evs)%Z (runRequest evs now r).
Proof.
  revert now r. induction evs as [|e evs IH]; intros now r; cbn [app runRequest].
  - unfold elapsed. cbn. by rewrite Z.add_0_r.
  - rewrite IH.
    replace (now + elapsed (e :: evs))%Z with (advance e now + elapsed evs)%Z;
      [reflexivity|].
    destruct e; unfold elapsed; cbn [advance foldr]; fold (elapsed evs); lia.
Qed.

(** A finished request ignores every event. *)
Lemma finished_stays (evs : list Event) (now : Z) (r : Request) :
  finished r -> runRequest evs now r = r.
Proof.
  intros (_ & Hlisten & Htimer & _). revert now.
  induction evs as [|e evs IH]; intros now; [reflexivity|].
  cbn [runRequest]. assert (stepRequest e (advance e now) r = r) as ->; [|apply IH].
  destruct e; cbn; by rewrite ?Hlisten, ?Htimer.
Qed.

Lemma cleanup_settle_finished (o : Settlement) (r : Request) :
  waiting r -> o <> Pending ->
  let r' := settle o (cleanup r) in
  promise r' = o /\ finished r' /\ rkind r' = rkind r /\ requestId r' = requestId r.
Proof.
  intros (Hp & _ & _ & Hc) Ho. unfold settle, cleanup. cbn. rewrite Hp. cbn.
  rewrite Hc. by repeat split.
Qed.

(** One event takes a waiting request to a waiting or a finished one:
    the states in between never occur. *)
Lemma stepRequest_consistent (e : Event) (now : Z) (r : Request) :
  waiting r ->
  let r' := stepRequest e now r in
  (r' = r /\ match e with
             | Message data => matches r data = false
             | Elapse _ => (now < deadline r)%Z
             end)
  \/ (finished r' /\ rkind r' = rkind r /\ requestId r' = requestId r
      /\ match e with
         | Message data =>
             matches r data = true
             /\ exists d, data = Some d
                /\ promise r' = (if truthy (msgError d)
                                 then Rejected (default "" (msgError d))
                                 else Resolved (resolvedValue (rkind r)
                                                              (msgResources d)))
         | Elapse _ => (deadline r <= now)%Z /\ timedOut r'
         end).
Proof.
  intros Hw. pose proof Hw as (Hp & Hl & Ht & Hc). destruct e as [data|ms]; cbn.
  - rewrite Hl. unfold messageHandler. destruct data as [d|]; [|by left].
    destruct (matches r (Some d)) eqn:Hm; [right | by left].
    destruct (truthy (msgError d)) eqn:Herr.
    + destruct (cleanup_settle_finished (Rejected (default "" (msgError d))) r Hw)
        as (? & ? & ? & ?); [done|].
      do 4 (split; [done|]). exists d. by rewrite Herr.
    + destruct (cleanup_settle_finished
                  (Resolved (resolvedValue (rkind r) (msgResources d))) r Hw)
        as (? & ? & ? & ?); [done|].
      do 4 (split; [done|]). exists d. by rewrite Herr.
  - rewrite Ht. cbn [andb]. destruct (deadline r <=? now)%Z eqn:Hd.
    + right. apply Z.leb_le in Hd. unfold onTimeout.
      destruct (cleanup_settle_finished (Rejected (timeoutMessage (rkind r))) r Hw)
        as (Hpr & Hfin & Hk & Hid); [done|].
      repeat split; try done; try apply Hfin. by rewrite Hk.
    + left. apply Z.leb_gt in Hd. done.
Qed.

(** Along any run a request that was waiting is waiting or finished. *)
Lemma runRequest_consistent (evs : list Event) (now : Z) (r : Request) :
  waiting r ->
  let r' := runRequest evs now r in
  (waiting r' \/ finished r')
  /\ rkind r' = rkind r /\ requestId r' = requestId r.
Proof.
  revert now r. induction evs as [|e evs IH]; intros now r Hw; cbn [runRequest].
  - by split; [left|].
  - destruct (stepRequest_consistent e (advance e now) r Hw)
      as [[-> _] | (Hfin & Hk & Hid & _)].
    + by apply IH.
    + rewrite finished_stays by done. by split; [right|].
Qed.

(** A waiting request that no event answers stays as it is until its
    timer is due, and is then timed out. *)
Lemma runRequest_unanswered (evs : list Event) (now : Z) (r : Request) :
  waiting r -> (now < deadline r)%Z -> unanswered r evs ->
  let r' := runRequest evs now r in
  (r' = r /\ (now + elapsed evs < deadline r)%Z)
  \/ (timedOut r' /\ (deadline r <= now + elapsed evs)%Z).
Proof.
  revert now r. induction evs as [|e evs IH]; intros now r Hw Hnow Hun;
    cbn [runRequest].
  - left. cbn. split; [done | lia].
  - inversion Hun as [|? ? He Hrest]; subst.
    pose proof (elapsed_nonnegative evs) as Hpos.
    destruct (stepRequest_consistent e (advance e now) r Hw)
      as [[-> Hstay] | (Hfin & Hk & Hid & Hleave)].
    + destruct e as [data|ms]; unfold elapsed; cbn [advance foldr] in *;
        fold (elapsed evs).
      * by apply IH.
      * destruct (IH (now + Z.max 0 ms)%Z r Hw Hstay Hrest)
          as [[-> Hlt]|[Hout Hdue]].
        -- left. split; [done | lia].
        -- right. split; [done | lia].
    + right. rewrite finished_stays by done.
      destruct e as [data|ms].
      * destruct Hleave as [Hm _]. congruence.
      * destruct Hleave as [Hdue Hout]. split; [exact Hout|].
        unfold elapsed; cbn [advance foldr] in *; fold (elapsed evs). lia.
Qed.

Lemma newRequest_waiting (k : RequestKind) (requestId : string) (now : Z) :
  waiting (newRequest k requestId now)
  /\ (now < deadline (newRequest k requestId now))%Z.
Proof. unfold waiting, TIMEOUT_MS. cbn. unfold TIMEOUT_MS. repeat split; lia. Qed.

End ChannelFacts.

Section Requests.

Import Channel.

Lemma sound_empty : sound emptyWindow.
Proof. constructor. Qed.

Lemma sound_request (k : RequestKind) (requestId : string) (iframe : nat)
    (target : option KubeResource) (w : Window) :
  sound w -> sound (request k requestId iframe target w).
Proof.
  unfold sound. cbn. intros Hw. apply Forall_app. split; [exact Hw|].
  constructor; [|constructor]. left.
  destruct (newRequest_waiting k requestId (clock w)) as [Hwait Hdue].
  split; [exact Hwait|]. split; [exact Hdue | cbn; lia].
Qed.

Lemma sound_requestAll (reqs : list (RequestKind * string)) (iframe : nat)
    (target : option KubeResource) (w : Window) :
  sound w -> sound (requestAll reqs iframe target w).
Proof.
  unfold requestAll. revert w.
  induction reqs as [|[k requestId] reqs IH]; intros w Hw; [exact Hw|].
  cbn [foldl]. by apply IH, sound_request.
Qed.

Lemma sound_step (e : Event) (w : Window) : sound w -> sound (step e w).
Proof.
  unfold sound. destruct (step_requests e w) as (-> & -> & _).
  intros Hw. apply Forall_map. eapply Forall_impl; [exact Hw|].
  intros r [[Hwait Hdue] | Hfin]; unfold compose.
  - destruct (stepRequest_consistent e (advance e (clock w)) r Hwait)
      as [[-> Hstay] | (Hfin & _)]; [left | by right].
    split; [exact Hwait|]. destruct e as [data|ms]; cbn [advance] in *; lia.
  - right. assert (stepRequest e (advance e (clock w)) r = r) as ->; [|exact Hfin].
    destruct Hfin as (_ & Hl & Ht & _). destruct e; cbn; by rewrite ?Hl, ?Ht.
Qed.

(** Every window the palette can be in is sound. *)
Lemma reachable_sound (w : Window) : reachable w -> sound w.
Proof.
  induction 1 as [| ? ? ? ? ? _ IH | ? ? ? _ IH | ? ? _ IH].
  - apply sound_empty.
  - by apply sound_request.
  - exact IH.
  - by apply sound_step.
Qed.

(** The request just made is the last of the window. *)
Lemma request_last (k : RequestKind) (requestId : string) (iframe : nat)
    (target : option KubeResource) (w : Window) (evs : list Event) :
  requests (run evs (request k requestId iframe target w)) !! length (requests w)
  = Some (runRequest evs (clock w) (newRequest k requestId (clock w))).
Proof.
  destruct (run_requests evs (request k requestId iframe target w)) as [-> _].
  cbn [requests request clock]. rewrite list_lookup_fmap, lookup_app_r by lia.
  by rewrite Nat.sub_diag.
Qed.

(** After the timeout without an answer, nothing listens any more. *)
Lemma no_listener_left (w : Window) (evs : list Event) :
  sound w ->
  (forall r, In r (registeredListeners w) -> unanswered r evs) ->
  (TIMEOUT_MS <= elapsed evs)%Z ->
  registeredListeners (run evs w) = [].
Proof.
  intros Hsound Hun Hlong. unfold registeredListeners in *.
  destruct (run_requests evs w) as [-> _].
  unfold sound in Hsound. induction (requests w) as [|r rs IH]; [reflexivity|].
  inversion Hsound as [|? ? Hr Hrs]; subst. cbn [map List.filter].
  assert (listening (runRequest evs (clock w) r) = false) as ->.
  { destruct Hr as [[Hwait Hdue] | Hfin].
    - assert (unanswered r evs) as Hr.
      { apply Hun. cbn [List.filter]. destruct Hwait as (_ & -> & _). by left. }
      destruct (runRequest_unanswered evs (clock w) r Hwait (proj1 Hdue) Hr)
        as [[_ Hlt] | [(_ & _ & Hl & _) _]]; [lia | exact Hl].
    - rewrite finished_stays by done. apply Hfin. }
  apply IH; [exact Hrs|].
  intros r' Hin. apply Hun. cbn [List.filter].
  destruct (listening r); [by right | done].
Qed.

(** C3.  A request that no matching response answers within 10000 ms is
    rejected with the timeout error of its kind, whatever comes later; a
    matching response that arrives in time resolves it, or rejects it with
    the error it carries; whichever way a request is settled its cleanup
    has then run exactly once, and before that not at all; and once the
    timeout has passed without answers, no listener is registered, however
    many requests were made. *)
Theorem request_settles_once (k : RequestKind) (requestId : string) (iframe : nat)
    (target : option KubeResource) (w : Window) :
  let r := newRequest k requestId (clock w) in
  let mine w' := requests w' !! length (requests w) in
  let w1 := request k requestId iframe target w in
  (forall evs later,
     unanswered r evs -> (TIMEOUT_MS <= elapsed evs)%Z ->
     exists r', mine (run (evs ++ later) w1) = Some r'
                /\ promise r' = Rejected (timeoutMessage k)
                /\ listening r' = false /\ timerArmed r' = false
                /\ cleanups r' = 1)
  /\ (forall evs error resources later,
        unanswered r evs -> (elapsed evs < TIMEOUT_MS)%Z ->
        exists r',
          mine (run (evs ++ Message (Some (response r error resources)) :: later) w1)
          = Some r'
          /\ promise r' = (if truthy error then Rejected (default "" error)
                           else Resolved (resolvedValue k resources))
          /\ listening r' = false /\ timerArmed r' = false
          /\ cleanups r' = 1)
  /\ (forall evs,
        exists r', mine (run evs w1) = Some r'
                   /\ ((promise r' = Pending /\ cleanups r' = 0
                        /\ listening r' = true /\ timerArmed r' = true)
                       \/ (promise r' <> Pending /\ cleanups r' = 1
                           /\ listening r' = false /\ timerArmed r' = false)))
  /\ (forall reqs evs,
        sound w ->
        let w2 := requestAll reqs iframe target w in
        (forall r0, In r0 (registeredListeners w2) -> unanswered r0 evs) ->
        (TIMEOUT_MS <= elapsed evs)%Z ->
        registeredListeners (run evs w2) = []).
Proof.
  cbv zeta. destruct (newRequest_waiting k requestId (clock w)) as [Hwait Hdue].
  split; [|split; [|split]].
  - intros evs later Hun Hlong. eexists. split; [apply request_last|].
    rewrite runRequest_app.
    destruct (runRequest_unanswered evs (clock w) _ Hwait Hdue Hun)
      as [[_ Hlt] | [[Hp Hfin] _]].
    { cbn in Hlt. lia. }
    rewrite finished_stays by done.
    destruct (runRequest_consistent evs (clock w) _ Hwait) as (_ & Hk & _).
    rewrite Hk in Hp. destruct Hfin as (_ & ? & ? & ?). done.
  - intros evs error resources later Hun Hshort.
    eexists. split; [apply request_last|]. rewrite runRequest_app.
    destruct (runRequest_unanswered evs (clock w) _ Hwait Hdue Hun)
      as [[-> _] | [_ Hlate]]; [|cbn in Hlate; lia].
    cbn [runRequest].
    set (r := newRequest k requestId (clock w)) in *.
    set (e := Message (Some (response r error resources))).
    destruct (stepRequest_consistent e (advance e (clock w + elapsed evs)) r Hwait)
      as [[_ Hno] | (Hfin & _ & _ & _ & d & [= <-] & Hp)].
    { cbn in Hno. rewrite String.eqb_refl, bool_decide_eq_true_2 in Hno; done. }
    rewrite finished_stays by done.
    destruct Hfin as (_ & ? & ? & ?). done.
  - intros evs. eexists. split; [apply request_last|].
    destruct (runRequest_consistent evs (clock w) _ Hwait)
      as ([(? & ? & ? & ?) | (? & ? & ? & ?)] & _); [left | right]; done.
  - intros reqs evs Hsound Hun Hlong.
    by apply no_listener_left; [apply sound_requestAll|..].
Qed.

End Requests.

Lemma request_settles_once_witness :
  let w := Channel.emptyWindow in
  let evs := [Channel.Message None; Channel.Elapse 10000] in
  Channel.sound w
  /\ (Channel.TIMEOUT_MS <= Channel.elapsed evs)%Z
  /\ Channel.registeredListeners
       (Channel.run evs (Channel.requestAll (Channel.manyRequests 100) 0 None w))
     = [].
Proof.
  intros w evs.
  assert (Channel.sound w) as Hsound by constructor.
  assert (Channel.TIMEOUT_MS <= Channel.elapsed evs)%Z as Hlong by (vm_compute; discriminate).
  split; [exact Hsound|]. split; [exact Hlong|].
  destruct (request_settles_once Channel.GetResources "r" 0 None w)
    as (_ & _ & _ & Hleak).
  apply (Hleak (Channel.manyRequests 100) evs Hsound); [|exact Hlong].
  intros r0 _. repeat constructor.
Defined.

(** ** Executing a command *)

Section Execute.

Variable env : Env.

Lemma arrayIncludes_spec (arr : list string) (x : string) :
  arrayIncludes arr x = true <-> In x arr.
Proof.
  unfold arrayIncludes. rewrite existsb_exists. split.
  - intros (y & Hin & ->%String.eqb_eq). exact Hin.
  - intros Hin. exists x. split; [exact Hin | apply String.eqb_refl].
Qed.

Lemma arrayIncludes_false (arr : list string) (x : string) :
  arrayIncludes arr x = false <-> ~ In x arr.
Proof. rewrite <- arrayIncludes_spec. by destruct (arrayIncludes arr x). Qed.

Lemma alert_rejects (text : string) (st : Palette) :
  rejectedWith text st (alert text st).
Proof. unfold rejectedWith, alert. by destruct st. Qed.

Lemma executeCommand_no_selection (index : Z) (command : Command) (st : Palette) :
  item (filterCommands (commandQuery st) (availableCommands st)) index = Some command ->
  requiresResource command = true ->
  item (results st) (selectedIndex st) = None ->
  rejectedWith selectFirst st (executeCommand env index st).
Proof.
  intros Hcommand Hrequires Hnone. unfold executeCommand.
  rewrite Hcommand, Hrequires, Hnone.
  match goal with |- rejectedWith _ _ (handleInput ?s) =>
    pose proof (durable_fields _ _ (durable_handleInput s)) as Hd end.
  destruct Hd as (Hopen & _ & _ & _ & _ & _ & _ & _ & Hwin & Hal & Hco & Hinv & Hhost).
  unfold rejectedWith. rewrite Hopen, Hwin, Hal, Hco, Hinv, Hhost.
  by destruct st.
Qed.

Lemma executeCommand_wrong_kind (index : Z) (command : Command)
    (selected : SearchResult) (types : list string) (st : Palette) :
  item (filterCommands (commandQuery st) (availableCommands st)) index = Some command ->
  requiresResource command = true ->
  item (results st) (selectedIndex st) = Some selected ->
  resourceTypes command = Some types ->
  ~ In (kind (resource selected)) types ->
  executeCommand env index st = alert (onlyWorksWith types) st.
Proof.
  intros Hcommand Hrequires Hselected Htypes Hkind%arrayIncludes_false.
  unfold executeCommand. by rewrite Hcommand, Hrequires, Hselected, Htypes, Hkind.
Qed.

Lemma executeCommand_valid (index : Z) (command : Command)
    (selected : SearchResult) (st : Palette) :
  item (filterCommands (commandQuery st) (availableCommands st)) index = Some command ->
  requiresResource command = true ->
  item (results st) (selectedIndex st) = Some selected ->
  (forall types, resourceTypes command = Some types ->
                 In (kind (resource selected)) types) ->
  executeCommand env index st
  = close (invoke env command (Some (resource selected)) st).
Proof.
  intros Hcommand Hrequires Hselected Hkind.
  unfold executeCommand. rewrite Hcommand, Hrequires, Hselected.
  destruct (resourceTypes command) as [types|]; [|reflexivity].
  specialize (Hkind types eq_refl). apply arrayIncludes_spec in Hkind.
  by rewrite Hkind.
Qed.

Lemma executeCommandOnResource_wrong_kind (r : KubeResource) (command : Command)
    (types : list string) (st : Palette) :
  activeCommand st = Some command ->
  resourceTypes command = Some types ->
  ~ In (kind r) types ->
  executeCommandOnResource env r st = alert (onlyWorksWith types) st.
Proof.
  intros Hcommand Htypes Hkind%arrayIncludes_false.
  unfold executeCommandOnResource. by rewrite Hcommand, Htypes, Hkind.
Qed.

(** C4.  Executing a command that requires a resource checks, before the
    command's effect is called, that a resource is selected and, when the
    command declares accepted kinds, that the selected kind is one of them.
    Without a selection, or with a kind that is not accepted, the effect is
    not called and the user is told so by an alert; nothing is sent and the
    host is not called.  With a selection of an accepted kind the effect is
    called on the selected resource. *)
Theorem execute_validates_before_effect (st : Palette) :
  (forall index command,
     item (filterCommands (commandQuery st) (availableCommands st)) index
     = Some command ->
     requiresResource command = true ->
     (item (results st) (selectedIndex st) = None ->
      rejectedWith selectFirst st (executeCommand env index st))
     /\ (forall selected types,
           item (results st) (selectedIndex st) = Some selected ->
           resourceTypes command = Some types ->
           ~ In (kind (resource selected)) types ->
           rejectedWith (onlyWorksWith types) st (executeCommand env index st))
     /\ (forall selected,
           item (results st) (selectedIndex st) = Some selected ->
           (forall types, resourceTypes command = Some types ->
                          In (kind (resource selected)) types) ->
           executeCommand env index st
           = close (invoke env command (Some (resource selected)) st)))
  /\ (forall r command types,
        activeCommand st = Some command ->
        resourceTypes command = Some types ->
        ~ In (kind r) types ->
        rejectedWith (onlyWorksWith types) st (executeCommandOnResource env r st)).
Proof.
  split.
  - intros index command Hcommand Hrequires. split; [|split].
    + intros Hnone. by apply (executeCommand_no_selection index command).
    + intros selected types Hselected Htypes Hkind.
      rewrite (executeCommand_wrong_kind index command selected types st) by done.
      apply alert_rejects.
    + intros selected Hselected Hkind. by apply executeCommand_valid.
  - intros r command types Hcommand Htypes Hkind.
    rewrite (executeCommandOnResource_wrong_kind r command types st) by done.
    apply alert_rejects.
Qed.

End Execute.

Lemma execute_validates_before_effect_witness :
  let st := typed "/delete" in
  item (filterCommands (commandQuery st) (availableCommands st)) 0 = Some deleteCommand
  /\ requiresResource deleteCommand = true
  /\ item (results st) (selectedIndex st) = None
  /\ invoked (executeCommand accepting 0 st) = invoked st
  /\ alerts (executeCommand accepting 0 st) = alerts st ++ [selectFirst].
Proof.
  intros st.
  assert (item (filterCommands (commandQuery st) (availableCommands st)) 0
          = Some deleteCommand) as Hcommand by reflexivity.
  assert (requiresResource deleteCommand = true) as Hrequires by reflexivity.
  assert (item (results st) (selectedIndex st) = None) as Hnone by reflexivity.
  do 3 (split; [done|]).
  destruct (execute_validates_before_effect accepting st) as [Hexecute _].
  destruct (Hexecute 0%Z deleteCommand Hcommand Hrequires) as [Hreject _].
  destruct (Hreject Hnone) as (Halerts & Hinvoked & _).
  split; [exact Hinvoked | exact Halerts].
Defined.


(** ** What leaves the palette

    Apart from [requestFrom] and [postTo], no assignment touches the
    window, and with it the messages posted. *)

Create Rewrite HintDb window.

Ltac window_setter := intros ? st; destruct st; reflexivity.

Lemma window_set_isOpen v st : window (set_isOpen v st) = window st.
Proof. revert v st. window_setter. Qed.
Lemma window_set_inputValue v st : window (set_inputValue v st) = window st.
Proof. revert v st. window_setter. Qed.
Lemma window_set_selectedIndex v st : window (set_selectedIndex v st) = window st.
Proof. revert v st. window_setter. Qed.
Lemma window_set_results v st : window (set_results v st) = window st.
Proof. revert v st. window_setter. Qed.
Lemma window_set_allResources v st : window (set_allResources v st) = window st.
Proof. revert v st. window_setter. Qed.
Lemma window_set_activeFilters v st : window (set_activeFilters v st) = window st.
Proof. revert v st. window_setter. Qed.
Lemma window_set_autocompleteSuggestions v st : window (set_autocompleteSuggestions v st) = window st.
Proof. revert v st. window_setter. Qed.
Lemma window_set_autocompleteSelectedIndex v st : window (set_autocompleteSelectedIndex v st) = window st.
Proof. revert v st. window_setter. Qed.
Lemma window_set_autocompleteFilterType v st : window (set_autocompleteFilterType v st) = window st.
Proof. revert v st. window_setter. Qed.
Lemma window_set_isCommandMode v st : window (set_isCommandMode v st) = window st.
Proof. revert v st. window_setter. Qed.
Lemma window_set_availableCommands v st : window (set_availableCommands v st) = window st.
Proof. revert v st. window_setter. Qed.
Lemma window_set_selectedCommandIndex v st : window (set_selectedCommandIndex v st) = window st.
Proof. revert v st. window_setter. Qed.
Lemma window_set_activeCommand v st : window (set_activeCommand v st) = window st.
Proof. revert v st. window_setter. Qed.
Lemma window_set_commandSearchQuery v st : window (set_commandSearchQuery v st) = window st.
Proof. revert v st. window_setter. Qed.
Lemma window_set_resourceCache v st : window (set_resourceCache v st) = window st.
Proof. revert v st. window_setter. Qed.
Lemma window_set_currentClusterId v st : window (set_currentClusterId v st) = window st.
Proof. revert v st. window_setter. Qed.
Lemma window_set_searchDebounceTimer v st : window (set_searchDebounceTimer v st) = window st.
Proof. revert v st. window_setter. Qed.
Lemma window_set_activeIframeSource v st : window (set_activeIframeSource v st) = window st.
Proof. revert v st. window_setter. Qed.
Lemma window_set_view v st : window (set_view v st) = window st.
Proof. revert v st. window_setter. Qed.
Lemma window_set_loadingShown v st : window (set_loadingShown v st) = window st.
Proof. revert v st. window_setter. Qed.
Lemma window_set_alerts v st : window (set_alerts v st) = window st.
Proof. revert v st. window_setter. Qed.
Lemma window_set_confirms v st : window (set_confirms v st) = window st.
Proof. revert v st. window_setter. Qed.
Lemma window_set_invoked v st : window (set_invoked v st) = window st.
Proof. revert v st. window_setter. Qed.
Lemma window_set_hostCalls v st : window (set_hostCalls v st) = window st.
Proof. revert v st. window_setter. Qed.

#[global] Hint Rewrite
  window_set_isOpen window_set_inputValue window_set_selectedIndex
  window_set_results window_set_allResources window_set_activeFilters
  window_set_autocompleteSuggestions window_set_autocompleteSelectedIndex
  window_set_autocompleteFilterType window_set_isCommandMode
  window_set_availableCommands window_set_selectedCommandIndex
  window_set_activeCommand window_set_commandSearchQuery
  window_set_resourceCache window_set_currentClusterId
  window_set_searchDebounceTimer window_set_activeIframeSource
  window_set_view window_set_loadingShown window_set_alerts
  window_set_confirms window_set_invoked window_set_hostCalls : window.

Lemma window_durable st st' : durable st' = durable st -> window st' = window st.
Proof. intros H. by apply durable_fields in H as (_&_&_&_&_&_&_&_&->&_). Qed.

Lemma window_handleInput st : window (handleInput st) = window st.
Proof. apply window_durable, durable_handleInput. Qed.

Lemma window_updateAutocompleteHint st :
  window (updateAutocompleteHint st) = window st.
Proof. apply window_durable, durable_updateAutocompleteHint. Qed.

Lemma window_performSearch st : window (performSearch st) = window st.
Proof. apply window_durable, durable_performSearch. Qed.

Lemma window_renderResults st : window (renderResults st) = window st.
Proof. apply window_durable, durable_renderResults. Qed.

Lemma window_renderCommandList st : window (renderCommandList st) = window st.
Proof. apply window_durable, durable_renderCommandList. Qed.

Lemma window_renderCommandResourceList st :
  window (renderCommandResourceList st) = window st.
Proof. apply window_durable, durable_renderCommandResourceList. Qed.

Lemma window_resetAutocomplete st : window (resetAutocomplete st) = window st.
Proof. apply window_durable, durable_resetAutocomplete. Qed.

Lemma window_requestFrom k requestId iframe target st :
  window (requestFrom k requestId iframe target st)
  = Channel.request k requestId iframe target (window st).
Proof. by destruct st. Qed.

Lemma window_postTo iframe m st :
  window (postTo iframe m st) = Channel.post iframe m (window st).
Proof. by destruct st. Qed.

Lemma deletesOf_request k requestId iframe target w :
  k <> Channel.DeleteResource ->
  deletesOf (Channel.request k requestId iframe target w) = deletesOf w.
Proof.
  intros Hk. unfold deletesOf. cbn. rewrite List.filter_app.
  destruct k, target; cbn; by rewrite ?app_nil_r.
Qed.

Lemma deletesOf_get requestId iframe target w :
  deletesOf (Channel.request Channel.GetResources requestId iframe target w)
  = deletesOf w.
Proof. by apply deletesOf_request. Qed.

Lemma deletesOf_logs requestId iframe target w :
  deletesOf (Channel.request Channel.OpenLogs requestId iframe target w)
  = deletesOf w.
Proof. by apply deletesOf_request. Qed.

Lemma deletesOf_navigate iframe clusterId r w :
  deletesOf (Channel.post iframe (Channel.MsgNavigateToResource clusterId r) w)
  = deletesOf w.
Proof. unfold deletesOf. cbn. rewrite List.filter_app. cbn. by rewrite app_nil_r. Qed.

#[global] Hint Rewrite window_handleInput window_updateAutocompleteHint
  window_performSearch window_renderResults window_renderCommandList
  window_renderCommandResourceList window_resetAutocomplete
  window_requestFrom window_postTo
  deletesOf_get deletesOf_logs deletesOf_navigate : window.

(** Unfold the methods named, split on what they test, and account for
    every assignment. *)
Ltac quiet :=
  unfold deleteRequests; intros;
  repeat (autorewrite with window; try reflexivity; try case_match).

Lemma quiet_close st : deleteRequests (close st) = deleteRequests st.
Proof. unfold close. quiet. Qed.

Lemma window_addFilter type value st :
  window (addFilter type value st) = window st.
Proof.
  unfold addFilter. case_match; [reflexivity|]. by autorewrite with window.
Qed.

#[global] Hint Rewrite window_addFilter : window.

Lemma quiet_selectResult index st :
  deleteRequests (selectResult index st) = deleteRequests st.
Proof.
  unfold selectResult. case_match; [|reflexivity].
  rewrite quiet_close. unfold navigateToResource. quiet.
Qed.

Lemma quiet_autocompleteCommand st :
  deleteRequests (autocompleteCommand st) = deleteRequests st.
Proof. unfold autocompleteCommand. quiet. Qed.

Lemma quiet_autocompleteFilterName st :
  deleteRequests (autocompleteFilterName st) = deleteRequests st.
Proof. unfold autocompleteFilterName. quiet. Qed.

Lemma quiet_loadResources requestId st :
  deleteRequests (loadResources requestId st) = deleteRequests st.
Proof.
  unfold loadResources, loadResourcesViaIPC, resourcesLoaded. quiet.
Qed.

Lemma quiet_refreshResources requestId st :
  deleteRequests (refreshResources requestId st) = deleteRequests st.
Proof.
  unfold refreshResources. case_match; [|reflexivity].
  rewrite quiet_loadResources. quiet.
Qed.

(** While the user declines, no effect of any command posts a delete
    request. *)
Lemma quiet_invoke env command arg st :
  confirmed env = false ->
  deleteRequests (invoke env command arg st) = deleteRequests st.
Proof.
  intros Hno. unfold invoke, runEffect.
  destruct (execute command).
  - unfold callHost. quiet.
  - unfold openPodLogs. quiet.
  - unfold callHost. quiet.
  - rewrite Hno. quiet.
  - rewrite quiet_refreshResources. quiet.
Qed.

Lemma quiet_executeCommandOnResource env r st :
  confirmed env = false ->
  deleteRequests (executeCommandOnResource env r st) = deleteRequests st.
Proof.
  intros Hno. unfold executeCommandOnResource, alert.
  repeat case_match; rewrite ?quiet_close, ?quiet_invoke by done; quiet.
Qed.

Lemma quiet_executeCommand env index st :
  confirmed env = false ->
  deleteRequests (executeCommand env index st) = deleteRequests st.
Proof.
  intros Hno. unfold executeCommand, alert.
  repeat case_match; rewrite ?quiet_close, ?quiet_invoke by done; quiet.
Qed.

(** While the user declines, no key makes the palette post a delete
    request. *)
Lemma quiet_handleKeyDown env key st :
  confirmed env = false ->
  deleteRequests (handleKeyDown env key st) = deleteRequests st.
Proof.
  intros Hno.
  unfold handleKeyDown, keyInCommandSuggestions, keyInCommandResources,
    keyInCommandList, keyInSuggestions, keyInResults, leaveCommandMode.
  destruct key;
    repeat case_match; simplify_eq;
    rewrite ?quiet_close, ?quiet_executeCommand, ?quiet_executeCommandOnResource,
      ?quiet_selectResult, ?quiet_autocompleteCommand,
      ?quiet_autocompleteFilterName by done;
    try reflexivity;
    unfold deleteRequests; autorewrite with window; reflexivity.
Qed.

(** ** Deleting *)

Section DeleteCommand.

Variable env : Env.

(** Declined, the delete command does nothing but ask. *)
Lemma delete_declined (arg : option KubeResource) (st : Palette) :
  confirmed env = false ->
  runEffect env Delete arg st
  = match arg with
    | Some r => set_confirms (confirms st ++ [confirmText r]) st
    | None => st
    end.
Proof. intros Hno. cbn. destruct arg; [by rewrite Hno | done]. Qed.

Lemma window_close (st : Palette) : window (close st) = window st.
Proof. by destruct st. Qed.

Lemma window_invoke_declined (command : Command) (arg : option KubeResource)
    (st : Palette) :
  execute command = Delete -> confirmed env = false ->
  window (invoke env command arg st) = window st.
Proof.
  intros Hdelete Hno. unfold invoke. rewrite Hdelete, delete_declined by done.
  destruct arg; by destruct st.
Qed.

(** Accepted, it posts the request, after having asked. *)
Lemma delete_confirmed (r : KubeResource) (iframe : nat) (st : Palette) :
  confirmed env = true -> activeIframeSource st = Some iframe ->
  let st' := runEffect env Delete (Some r) st in
  confirms st' = confirms st ++ [confirmText r]
  /\ Channel.posted (window st')
     = Channel.posted (window st)
       ++ [(iframe, Channel.MsgDeleteResource (freshId env) r)].
Proof.
  intros Hyes Hframe. cbn. rewrite Hyes. unfold deleteResource.
  assert (forall v, activeIframeSource (set_confirms v st) = activeIframeSource st)
    as -> by (intros; by destruct st).
  rewrite Hframe. by destruct st.
Qed.

(** C5.  When the user declines, the delete command sends no
    delete-resource message and changes nothing but the record of the
    question asked, whichever way the command is executed, and no key
    pressed in the palette makes a delete request leave; a delete request
    leaves only after the question has been asked and answered yes. *)
Theorem delete_needs_confirmation (st : Palette) :
  (confirmed env = false ->
   (forall arg,
      runEffect env Delete arg st
      = match arg with
        | Some r => set_confirms (confirms st ++ [confirmText r]) st
        | None => st
        end)
   /\ (forall command arg,
         execute command = Delete ->
         window (invoke env command arg st) = window st
         /\ deleteRequests (invoke env command arg st) = deleteRequests st)
   /\ (forall r command,
         activeCommand st = Some command -> execute command = Delete ->
         window (executeCommandOnResource env r st) = window st)
   /\ (forall index command,
         item (filterCommands (commandQuery st) (availableCommands st)) index
         = Some command ->
         execute command = Delete ->
         window (executeCommand env index st) = window st)
   /\ (forall key,
         deleteRequests (handleKeyDown env key st) = deleteRequests st))
  /\ (forall key,
        deleteRequests (handleKeyDown env key st) <> deleteRequests st ->
        confirmed env = true)
  /\ (forall r iframe,
        confirmed env = true -> activeIframeSource st = Some iframe ->
        confirms (runEffect env Delete (Some r) st) = confirms st ++ [confirmText r]
        /\ Channel.posted (window (runEffect env Delete (Some r) st))
           = Channel.posted (window st)
             ++ [(iframe, Channel.MsgDeleteResource (freshId env) r)]).
Proof.
  split; [|split].
  - intros Hno. split; [|split; [|split; [|split]]].
    + intros arg. by apply delete_declined.
    + intros command arg Hdelete.
      pose proof (window_invoke_declined command arg st Hdelete Hno) as Hw.
      split; [exact Hw|]. unfold deleteRequests. by rewrite Hw.
    + intros r command Hactive Hdelete. unfold executeCommandOnResource.
      rewrite Hactive.
      destruct (resourceTypes command) as [types|];
        [destruct (arrayIncludes types (kind r))|];
        rewrite ?window_close, ?window_invoke_declined; try done.
      by destruct st.
    + intros index command Hcommand Hdelete. unfold executeCommand.
      rewrite Hcommand.
      destruct (requiresResource command).
      * destruct (item (results st) (selectedIndex st)) as [selected|].
        -- destruct (resourceTypes command) as [types|];
             [destruct (arrayIncludes types (kind (resource selected)))|];
             rewrite ?window_close, ?window_invoke_declined; try done.
           by destruct st.
        -- match goal with |- window (handleInput ?s) = _ =>
             pose proof (durable_fields _ _ (durable_handleInput s)) as Hd end.
           destruct Hd as (_ & _ & _ & _ & _ & _ & _ & _ & -> & _).
           by destruct st.
      * by rewrite window_close, window_invoke_declined.
    + intros key. by apply quiet_handleKeyDown.
  - intros key Hsent. destruct (confirmed env) eqn:Hanswer; [reflexivity|].
    destruct Hsent. by apply quiet_handleKeyDown.
  - intros r iframe Hyes Hframe. by apply delete_confirmed.
Qed.

End DeleteCommand.

Lemma delete_needs_confirmation_witness :
  confirmed declining = false
  /\ item (results deleting) (selectedIndex deleting)
     = Some (unranked podA)
  /\ activeCommand deleting = Some deleteCommand
  /\ window (executeCommandOnResource declining podA deleting) = window deleting
  /\ deleteRequests (executeCommandOnResource accepting podA deleting)
     = [(7, Channel.MsgDeleteResource "r1" podA)].
Proof.
  assert (confirmed declining = false) as Hno by reflexivity.
  assert (activeCommand deleting = Some deleteCommand) as Hactive by reflexivity.
  split; [exact Hno|]. split; [reflexivity|]. split; [exact Hactive|].
  split; [|reflexivity].
  destruct (delete_needs_confirmation declining deleting) as [Hdeclined _].
  destruct (Hdeclined Hno) as (_ & _ & Hresource & _ & _).
  by apply (Hresource podA deleteCommand).
Defined.

(** ** The cache and a failed refresh *)

Section FailedRefresh.

(** A failed load never touches the cache: the entry of every cluster is
    what it was. *)
Lemma failure_keeps_cache (message : string) (st : Palette) :
  resourceCache (loadResourcesViaIPC_settled (Channel.Rejected message) st)
  = resourceCache st.
Proof.
  cbn. unfold resourcesFailed.
  match goal with |- resourceCache (set_loadingShown _ (handleInput ?s)) = _ =>
    pose proof (durable_fields _ _ (durable_handleInput s)) as Hd end.
  destruct Hd as (_ & _ & _ & _ & Hcache & _).
  transitivity (resourceCache (handleInput (set_allResources [] st)));
    [by destruct (handleInput _) | rewrite Hcache; by destruct st].
Qed.

(** It empties the resources the palette works on, whether the load was
    the first one or a refresh behind a cache hit. *)
Lemma failure_empties_resources (message : string) (st : Palette) :
  allResources (loadResourcesViaIPC_settled (Channel.Rejected message) st) = [].
Proof.
  cbn. unfold resourcesFailed.
  match goal with |- allResources (set_loadingShown _ (handleInput ?s)) = _ =>
    pose proof (durable_fields _ _ (durable_handleInput s)) as Hd end.
  destruct Hd as (_ & _ & Hall & _).
  transitivity (allResources (handleInput (set_allResources [] st)));
    [by destruct (handleInput _) | rewrite Hall; by destruct st].
Qed.

Lemma applyActiveFilters_nil (filters : list Filter) :
  applyActiveFilters filters [] = [].
Proof. by rewrite applyActiveFilters_filter. Qed.

Lemma rank_nil (query : string) : rank query [] = [].
Proof. unfold rank. by destruct (isEmpty query). Qed.

(** Once the search has run again, nothing is listed. *)
Lemma search_without_resources (st : Palette) :
  isCommandMode st = false -> allResources st = [] ->
  results (performSearch st) = []
  /\ view (performSearch st) = VEmpty "Loading resources...".
Proof.
  intros Hmode Hall. unfold performSearch.
  rewrite Hmode, Hall, applyActiveFilters_nil, rank_nil.
  destruct st. cbn in *. by subst.
Qed.

(** C1, on the code.  The palette is opened on a cache hit and lists the
    cached snapshot; the background refresh is then rejected.  The cache
    still holds the snapshot, but the resources of the palette are emptied
    and, once the search has run, the list shows none of them. *)
Theorem failed_refresh_empties_the_list :
  resourceCache cachedPalette !! "c1" = Some sample
  /\ allResources hit = sample
  /\ map resource (results listed) = sample
  /\ view listed = VResults (map unranked sample) 0
  /\ resourceCache refreshFailed !! "c1" = Some sample
  /\ allResources refreshFailed = []
  /\ results refreshFailed = []
  /\ view refreshFailed = VEmpty "Loading resources...".
Proof. vm_compute. repeat split; reflexivity. Qed.

End FailedRefresh.

(** ** Scenarios *)

Section Scenarios.

(** [" a  b ".split(/\s+/)] keeps an empty piece at each end. *)
Example split_pieces : splitSpaces " a  b " = [""; "a"; "b"; ""].
Proof. reflexivity. Qed.

Example terms_of_blank : searchTermsOf "   " = [].
Proof. reflexivity. Qed.

(** Only white space after the command word: the pattern gives its last
    character to the second group. *)
Example command_pattern_blank :
  matchCommandPattern "/logs  " = Some ("logs", Some " ")
  /\ matchCommandPattern "/logs " = None
  /\ matchCommandPattern "/logs nginx" = Some ("logs", Some "nginx")
  /\ matchCommandPattern "/logs" = Some ("logs", None).
Proof. repeat split; reflexivity. Qed.

Example filter_pattern :
  matchFilterPattern "Kind:Po" = Some (FKind, "Po")
  /\ matchFilterPattern "nodes:" = None.
Proof. split; reflexivity. Qed.

(** The query [a] over the sample: both resources named [a] match through
    the display text; with the filter on the kind Pod only the pod is
    left. *)
Example search_a :
  map displayText (rank "a" sample) = ["Pod/ns1/a"; "Service/ns1/a"]
  /\ map displayText
       (rank "a" (applyActiveFilters [{| ftype := FKind; fvalue := "Pod" |}] sample))
     = ["Pod/ns1/a"].
Proof. split; reflexivity. Qed.

(** A fuzzy match ranks below a substring match. *)
Example fuzzy_below_substring :
  map (fun res => (displayText res, Qlt_bool 2 (matchScore res)))
      (rank "s1" sample)
  = [("Pod/ns1/a", true); ("Service/ns1/a", true)]
  /\ map (fun res => (displayText res, Qle_bool (matchScore res) 2))
         (rank "pa" sample)
     = [("Pod/ns1/a", true)].
Proof. split; reflexivity. Qed.

(** The logs command over resources without a matching pod: nothing is
    listed, and Enter does nothing. *)
Example logs_without_match :
  let st := typed "/logs nginx" in
  view st = VEmpty ("No Pod found matching " +:+ quoteMark +:+ "nginx" +:+ quoteMark)
  /\ handleKeyDown declining Enter st = st.
Proof. split; reflexivity. Qed.

(** Two requests, the answer to the second comes first: the second is
    resolved, the first still waits. *)
Example second_answer_first :
  let w := Channel.request Channel.GetResources "r2" 7 None
             (Channel.request Channel.GetResources "r1" 7 None Channel.emptyWindow) in
  let answer :=
    {| Channel.msgType := "k-menu-resources-response";
       Channel.msgRequestId := Some "r2"; Channel.msgError := None;
       Channel.msgResources := Some sample; Channel.msgClusterId := None |} in
  map Channel.promise
      (Channel.requests (Channel.step (Channel.Message (Some answer)) w))
  = [Channel.Pending; Channel.Resolved sample].
Proof. reflexivity. Qed.

End Scenarios.

(** ** The keyboard shortcut *)

Section ShortcutFacts.

Import Shortcut.

(** A string without the character [sep]. *)
Let without (sep : ascii) (s : string) : bool :=
  allChars (fun c => negb (Ascii.eqb c sep)) s.

Lemma toLowerCase_app (a b : string) :
  toLowerCase (a +:+ b) = toLowerCase a +:+ toLowerCase b.
Proof.
  induction a as [|c a IH]; [reflexivity|].
  rewrite append_cons. cbn [toLowerCase]. rewrite append_cons, IH. reflexivity.
Qed.











Lemma splitOn_piece (sep : ascii) (a b : string) :
  without sep a = true ->
  splitOn sep (a +:+ String sep b) = a :: splitOn sep b.
Proof.
  induction a as [|c a IH]; intros H.
  - rewrite append_empty_l. cbn. rewrite Ascii.eqb_refl. reflexivity.
  - cbn in H. apply andb_true_iff in H as [Hc Ha].
    apply negb_true_iff in Hc.
    rewrite append_cons. cbn [splitOn]. rewrite Hc, (IH Ha). reflexivity.
Qed.













(** X1.  Which presses a shortcut accepts: the key it names, Alt and Shift
    held exactly when it names them, and for Cmd and Ctrl: named together,
    Ctrl is enough; Cmd named alone wants Meta and does not look at Ctrl;
    Ctrl named alone wants Ctrl without Meta; neither named, neither may
    be held. *)
Theorem matchesShortcut_accepts (event : KeyboardEvent) (shortcut : string) :
  matchesShortcut event shortcut = true
  <-> toLowerCase (key event) = keyOf shortcut
      /\ altKey event = hasAlt shortcut
      /\ shiftKey event = hasShift shortcut
      /\ match hasCmd shortcut, hasCtrl shortcut with
         | true, true => ctrlKey event = true
         | true, false => metaKey event = true
         | false, true => ctrlKey event = true /\ metaKey event = false
         | false, false => metaKey event = false /\ ctrlKey event = false
         end.
Proof.
  unfold matchesShortcut.
  destruct (String.eqb_spec (toLowerCase (key event)) (keyOf shortcut)) as [Hk|Hk];
    cbn [negb].
  - destruct (hasCmd shortcut), (hasCtrl shortcut), (hasAlt shortcut),
      (hasShift shortcut), (metaKey event), (ctrlKey event), (altKey event),
      (shiftKey event); cbn; intuition congruence.
  - split; [discriminate|]. intros [Hk' _]. contradiction.
Qed.


End ShortcutFacts.


(** ** The host name of a cluster frame *)

Section ClusterHost.

Import Shortcut.

Lemma takeWhile_dropWhile (p : ascii -> bool) (s : string) :
  s = takeWhile p s +:+ dropWhile p s /\ allChars p (takeWhile p s) = true.
Proof.
  induction s as [|c s [IH1 IH2]]; cbn; [split; reflexivity|].
  destruct (p c) eqn:Hc.
  - rewrite append_cons, <- IH1. cbn. rewrite Hc, IH2. split; reflexivity.
  - rewrite append_empty_l. split; reflexivity.
Qed.

(** A run of the class followed by a character outside it is taken
    whole, and nothing more. *)
Lemma takeWhile_run (p : ascii -> bool) (a : string) (c : ascii) (b : string) :
  allChars p a = true -> p c = false ->
  takeWhile p (a +:+ String c b) = a /\ dropWhile p (a +:+ String c b) = String c b.
Proof.
  intros Ha Hc. induction a as [|x a IH].
  - rewrite append_empty_l. cbn. rewrite Hc. split; reflexivity.
  - cbn in Ha. apply andb_true_iff in Ha as [Hx Ha].
    destruct (IH Ha) as [IH1 IH2].
    rewrite append_cons. cbn. rewrite Hx, IH1, IH2. split; reflexivity.
Qed.

(** A host name that gives an id is the id followed by the suffix. *)
Lemma matchClusterHost_some (hostname clusterId : string) :
  matchClusterHost hostname = Some clusterId ->
  clusterId <> ""
  /\ allChars isHexDigit clusterId = true
  /\ hostname = clusterId +:+ ".renderer.freelens.app".
Proof.
  unfold matchClusterHost, clusterHostSuffix.
  destruct (takeWhile_dropWhile isHexDigit hostname) as [Hsplit Hall].
  destruct (String.eqb_spec (takeWhile isHexDigit hostname) "") as [|Hne];
    [discriminate|].
  destruct (String.eqb_spec (dropWhile isHexDigit hostname)
                            ".renderer.freelens.app") as [Hrest|];
    [|discriminate].
  intros [= <-]. split; [exact Hne|]. split; [exact Hall|].
  rewrite <- Hrest. exact Hsplit.
Qed.

(** An id followed by the suffix gives the id back. *)
Lemma matchClusterHost_host (clusterId : string) :
  clusterId <> "" -> allChars isHexDigit clusterId = true ->
  matchClusterHost (clusterId +:+ ".renderer.freelens.app") = Some clusterId.
Proof.
  intros Hne Hall. unfold matchClusterHost, clusterHostSuffix.
  destruct (takeWhile_run isHexDigit clusterId "." "renderer.freelens.app"
              Hall eq_refl) as [-> ->].
  destruct (String.eqb_spec clusterId "") as [|_]; [contradiction|].
  reflexivity.
Qed.

(** X3.  The cluster id read from a host name: the host names that give
    an id are exactly those made of a non-empty run of the characters
    [0] to [9] and [a] to [f] followed by [.renderer.freelens.app], and
    the id is that run.  Upper case digits, an empty run, a port or any
    other suffix give no id. *)
Theorem getClusterIdFromHostname_spec (hostname clusterId : string) :
  getClusterIdFromHostname hostname = Some clusterId
  <-> clusterId <> ""
      /\ allChars isHexDigit clusterId = true
      /\ hostname = clusterId +:+ ".renderer.freelens.app".
Proof.
  unfold getClusterIdFromHostname. split.
  - apply matchClusterHost_some.
  - intros (Hne & Hall & ->). by apply matchClusterHost_host.
Qed.

End ClusterHost.

(** ** Fetching with retries *)

Section Retry.

Context {T : Type}.
Variables (fetchFn : nat -> option T) (maxRetries : nat) (initialDelayMs : Z).

(** The delays waited before attempt [attempt + k], from [attempt] on. *)
Let waits (attempt k : nat) : list Z :=
  map (fun j => (initialDelayMs * 2 ^ Z.of_nat j)%Z) (seq attempt k).

Lemma retryLoop_succeeds (k : nat) (value : T) :
  forall fuel attempt,
    attempt + k <= maxRetries -> k < fuel ->
    (forall j, j < k -> fetchFn (attempt + j) = None) ->
    fetchFn (attempt + k) = Some value ->
    retryLoop fetchFn maxRetries initialDelayMs fuel attempt
    = {| fetched := Some value; attempts := S k; delays := waits attempt k |}.
Proof.
  induction k as [|k IH]; intros fuel attempt Hle Hfuel Hfail Hok;
    (destruct fuel as [|fuel]; [lia|]); cbn [retryLoop].
  - rewrite Nat.add_0_r in Hok, Hle.
    apply Nat.leb_le in Hle. rewrite Hle, Hok. reflexivity.
  - assert (Hin : (attempt <=? maxRetries) = true) by (apply Nat.leb_le; lia).
    assert (Hnot : (attempt =? maxRetries) = false) by (apply Nat.eqb_neq; lia).
    rewrite Hin, Hnot.
    specialize (Hfail 0 ltac:(lia)) as H0. rewrite Nat.add_0_r in H0. rewrite H0.
    rewrite (IH fuel (S attempt)); [reflexivity|lia|lia| |].
    + intros j Hj. replace (S attempt + j) with (attempt + S j) by lia.
      apply Hfail. lia.
    + replace (S attempt + k) with (attempt + S k) by lia. exact Hok.
Qed.

Lemma retryLoop_gives_up (k : nat) :
  forall fuel attempt,
    attempt + k = maxRetries -> k < fuel ->
    (forall j, j <= k -> fetchFn (attempt + j) = None) ->
    retryLoop fetchFn maxRetries initialDelayMs fuel attempt
    = {| fetched := None; attempts := S k; delays := waits attempt k |}.
Proof.
  induction k as [|k IH]; intros fuel attempt Hle Hfuel Hfail;
    (destruct fuel as [|fuel]; [lia|]); cbn [retryLoop].
  - rewrite Nat.add_0_r in Hle. subst attempt.
    rewrite Nat.leb_refl, Nat.eqb_refl.
    specialize (Hfail 0 ltac:(lia)) as H0. rewrite Nat.add_0_r in H0. rewrite H0.
    reflexivity.
  - assert (Hin : (attempt <=? maxRetries) = true) by (apply Nat.leb_le; lia).
    assert (Hnot : (attempt =? maxRetries) = false) by (apply Nat.eqb_neq; lia).
    rewrite Hin, Hnot.
    specialize (Hfail 0 ltac:(lia)) as H0. rewrite Nat.add_0_r in H0. rewrite H0.
    rewrite (IH fuel (S attempt)); [reflexivity|lia|lia|].
    intros j Hj. replace (S attempt + j) with (attempt + S j) by lia.
    apply Hfail. lia.
Qed.

(** With fuel for the attempts that are left, the loop calls at least
    once, and waits once before every call but its first. *)
Lemma retryLoop_waits (fuel attempt : nat) :
  attempt <= maxRetries -> maxRetries - attempt < fuel ->
  1 <= attempts (retryLoop fetchFn maxRetries initialDelayMs fuel attempt)
    <= S (maxRetries - attempt)
  /\ delays (retryLoop fetchFn maxRetries initialDelayMs fuel attempt)
     = waits attempt
         (attempts (retryLoop fetchFn maxRetries initialDelayMs fuel attempt) - 1).
Proof.
  revert attempt. induction fuel as [|fuel IH]; intros attempt Hle Hfuel; [lia|].
  cbn [retryLoop].
  assert (Hin : (attempt <=? maxRetries) = true) by (by apply Nat.leb_le).
  rewrite Hin.
  destruct (fetchFn attempt); [cbn; split; [lia|reflexivity]|].
  destruct (Nat.eqb_spec attempt maxRetries) as [Heq|Hne];
    [cbn; split; [lia|reflexivity]|].
  destruct (IH (S attempt)) as [Hcalls Hwaits]; [lia|lia|].
  cbn [attempts delays]. split; [lia|].
  rewrite Hwaits.
  destruct (attempts (retryLoop fetchFn maxRetries initialDelayMs fuel (S attempt)))
    as [|calls]; [lia|].
  cbn [Nat.sub]. rewrite Nat.sub_0_r. reflexivity.
Qed.

(** The delays double: before attempt [k] their sum is
    [initialDelayMs * (2 ^ k - 1)]. *)
Lemma waits_sum (k : nat) :
  foldr Z.add 0%Z (waits 0 k) = (initialDelayMs * (2 ^ Z.of_nat k - 1))%Z.
Proof.
  unfold waits. induction k as [|k IH]; [cbn; lia|].
  rewrite seq_S, map_app, foldr_app. cbn [map foldr Nat.add].
  assert (Hshift : forall (l : list Z) (a : Z),
             foldr Z.add a l = (foldr Z.add 0 l + a)%Z).
  { intros l a. induction l as [|x l IHl]; cbn; [lia|]. rewrite IHl. lia. }
  rewrite Hshift, IH.
  replace (Z.of_nat (S k)) with (Z.of_nat k + 1)%Z by lia.
  rewrite Z.pow_add_r by lia. lia.
Qed.

(** X4.  [fetchWithRetry] returns the value of the first call of
    [fetchFn] that succeeds, provided it is among the first
    [maxRetries + 1]; it has then called [fetchFn] once per attempt and
    waited [initialDelayMs * (2 ^ k - 1)] in all before attempt [k].  When
    all [maxRetries + 1] calls fail it returns [null], having waited
    [initialDelayMs * (2 ^ maxRetries - 1)]: no delay follows the last
    failure.  In every case it calls [fetchFn] at least once and at
    most [maxRetries + 1] times, and it waits once before every call
    but the first, [initialDelayMs * 2 ^ j] before the call that
    follows call [j]. *)
Theorem fetchWithRetry_outcome :
  let r := fetchWithRetry fetchFn maxRetries initialDelayMs in
  (forall k value,
     k <= maxRetries ->
     (forall j, j < k -> fetchFn j = None) ->
     fetchFn k = Some value ->
     fetched r = Some value /\ attempts r = S k
     /\ totalDelay r = (initialDelayMs * (2 ^ Z.of_nat k - 1))%Z)
  /\ ((forall j, j <= maxRetries -> fetchFn j = None) ->
      fetched r = None /\ attempts r = S maxRetries
      /\ totalDelay r = (initialDelayMs * (2 ^ Z.of_nat maxRetries - 1))%Z)
  /\ 1 <= attempts r <= S maxRetries
  /\ delays r
     = map (fun j => (initialDelayMs * 2 ^ Z.of_nat j)%Z)
           (seq 0 (attempts r - 1)).
Proof.
  cbv zeta. unfold fetchWithRetry, totalDelay. split; [|split].
  - intros k value Hk Hfail Hok.
    rewrite (retryLoop_succeeds k value (S maxRetries) 0); cbn [Nat.add];
      try assumption; try lia.
    cbn [fetched attempts delays]. rewrite waits_sum. auto.
  - intros Hfail.
    rewrite (retryLoop_gives_up maxRetries (S maxRetries) 0); cbn [Nat.add];
      try assumption; try lia.
    cbn [fetched attempts delays]. rewrite waits_sum. auto.
  - destruct (retryLoop_waits (S maxRetries) 0) as [Hcalls Hwaits]; [lia|lia|].
    rewrite Nat.sub_0_r in Hcalls. split; [exact Hcalls|exact Hwaits].
Qed.

End Retry.

Lemma fetchWithRetry_outcome_witness :
  let fetchFn := fun n => if n <? 2 then None else Some "pods" in
  let r := fetchWithRetry fetchFn 3 500 in
  2 <= 3
  /\ (forall j, j < 2 -> fetchFn j = None)
  /\ fetchFn 2 = Some "pods"
  /\ fetched r = Some "pods" /\ attempts r = 3 /\ totalDelay r = 1500%Z
  /\ delays r = [500; 1000]%Z.
Proof.
  intros fetchFn r.
  assert (Hfail : forall j, j < 2 -> fetchFn j = None).
  { intros j Hj. unfold fetchFn. destruct j as [|[|j]]; [reflexivity|reflexivity|lia]. }
  destruct (fetchWithRetry_outcome fetchFn 3 500) as (Hfirst & _ & _ & Hwaits).
  destruct (Hfirst 2 "pods" ltac:(lia) Hfail eq_refl) as (H1 & H2 & H3).
  split; [lia|]. split; [exact Hfail|]. split; [reflexivity|].
  split; [exact H1|]. split; [exact H2|]. split; [exact H3|].
  cbv zeta in H2, Hwaits. rewrite H2 in Hwaits. exact Hwaits.
Defined.

(** ** The palette and the renderer of a cluster frame *)

Section FrameFacts.

Import Channel.

(** The settlement a reply of the frame stands for. *)
Let settlementOf {A} (value : A -> list KubeResource) (o : Frame.Outcome A)
    : Settlement :=
  match o with
  | Frame.Returned v => Resolved (value v)
  | Frame.Thrown text => if String.eqb text "" then Resolved [] else Rejected text
  end.

(** A response that arrives in time settles the request and removes its
    listener and its timer. *)
Lemma response_in_time (k : RequestKind) (requestId : string) (iframe : nat)
    (target : option KubeResource) (w : Window) (evs later : list Event)
    (error : option string) (resources : option (list KubeResource)) :
  let r := newRequest k requestId (clock w) in
  unanswered r evs -> (elapsed evs < TIMEOUT_MS)%Z ->
  exists r',
    requests (run (evs ++ Message (Some (response r error resources)) :: later)
                  (request k requestId iframe target w))
      !! length (requests w) = Some r'
    /\ finished r'
    /\ promise r' = (if truthy error then Rejected (default "" error)
                     else Resolved (resolvedValue k resources)).
Proof.
  cbv zeta. intros Hun Hshort.
  destruct (newRequest_waiting k requestId (clock w)) as [Hwait Hdue].
  eexists. split; [apply request_last|]. rewrite runRequest_app.
  destruct (runRequest_unanswered evs (clock w) _ Hwait Hdue Hun)
    as [[-> _] | [_ Hlate]]; [|cbn in Hlate; lia].
  cbn [runRequest].
  set (r := newRequest k requestId (clock w)) in *.
  set (e := Message (Some (response r error resources))).
  destruct (stepRequest_consistent e (advance e (clock w + elapsed evs)) r Hwait)
    as [[_ Hno] | (Hfin & _ & _ & _ & d & [= <-] & Hp)].
  { cbn in Hno. rewrite String.eqb_refl, bool_decide_eq_true_2 in Hno; done. }
  rewrite finished_stays by done. split; [exact Hfin|exact Hp].
Qed.

(** X5.  A request of the palette answered by the listener of the frame.
    The palette posts the request to the frame; the frame calls its
    service and posts its reply; when the reply arrives before the
    timeout, the request is finished, resolved with the resources the
    service returned (with nothing for a deletion or for logs) or rejected
    with the text of what the service threw.  A thrown value whose text
    is empty counts as success. *)
Theorem frame_reply_settles (services : Frame.Services) (k : RequestKind)
    (requestId : string) (iframe : nat) (target : KubeResource) (w : Window)
    (evs later : list Event) :
  let r := newRequest k requestId (clock w) in
  let w1 := request k requestId iframe (Some target) w in
  unanswered r evs -> (elapsed evs < TIMEOUT_MS)%Z ->
  exists m d r',
    posted w1 = posted w ++ [(iframe, m)]
    /\ Frame.onMessage services m = Some d
    /\ requests (run (evs ++ Message (Some d) :: later) w1) !! length (requests w)
       = Some r'
    /\ finished r'
    /\ promise r'
       = match k with
         | GetResources =>
             settlementOf (fun resources => resources)
                          (Frame.getAllResources services)
         | DeleteResource =>
             settlementOf (fun _ => []) (Frame.deleteResource services target)
         | OpenLogs =>
             settlementOf (fun _ => []) (Frame.openPodLogs services target)
         end.
Proof.
  cbv zeta. intros Hun Hshort.
  pose proof (fun error resources =>
    response_in_time k requestId iframe (Some target) w evs later error resources
                     Hun Hshort) as Hsettle.
  cbv zeta in Hsettle.
  destruct k; cbn [request outgoingOf posted Frame.onMessage].
  - destruct (Frame.getAllResources services) as [resources|text] eqn:Hget.
    + destruct (Hsettle None (Some resources)) as (r' & Hr & Hfin & Hp).
      do 3 eexists. split; [reflexivity|]. cbn [Frame.onMessage]. rewrite Hget.
      split; [reflexivity|]. split; [exact Hr|]. split; [exact Hfin|exact Hp].
    + destruct (Hsettle (Some text) None) as (r' & Hr & Hfin & Hp).
      do 3 eexists. split; [reflexivity|]. cbn [Frame.onMessage]. rewrite Hget.
      split; [reflexivity|]. split; [exact Hr|]. split; [exact Hfin|].
      rewrite Hp. cbn. destruct (String.eqb text ""); reflexivity.
  - destruct (Frame.deleteResource services target) as [[]|text] eqn:Hdel.
    + destruct (Hsettle None None) as (r' & Hr & Hfin & Hp).
      do 3 eexists. split; [reflexivity|]. cbn [Frame.onMessage]. rewrite Hdel.
      split; [reflexivity|]. split; [exact Hr|]. split; [exact Hfin|exact Hp].
    + destruct (Hsettle (Some text) None) as (r' & Hr & Hfin & Hp).
      do 3 eexists. split; [reflexivity|]. cbn [Frame.onMessage]. rewrite Hdel.
      split; [reflexivity|]. split; [exact Hr|]. split; [exact Hfin|].
      rewrite Hp. cbn. destruct (String.eqb text ""); reflexivity.
  - destruct (Frame.openPodLogs services target) as [[]|text] eqn:Hlogs.
    + destruct (Hsettle None None) as (r' & Hr & Hfin & Hp).
      do 3 eexists. split; [reflexivity|]. cbn [Frame.onMessage]. rewrite Hlogs.
      split; [reflexivity|]. split; [exact Hr|]. split; [exact Hfin|exact Hp].
    + destruct (Hsettle (Some text) None) as (r' & Hr & Hfin & Hp).
      do 3 eexists. split; [reflexivity|]. cbn [Frame.onMessage]. rewrite Hlogs.
      split; [reflexivity|]. split; [exact Hr|]. split; [exact Hfin|].
      rewrite Hp. cbn. destruct (String.eqb text ""); reflexivity.
Qed.

End FrameFacts.

Lemma frame_reply_settles_witness :
  let services :=
    Frame.answering (Frame.Returned sample)
                    (Frame.Thrown "Error: Store not found for Pod") in
  let r := Channel.newRequest Channel.DeleteResource "r1" 0 in
  let w1 := Channel.request Channel.DeleteResource "r1" 7 (Some podA)
                            Channel.emptyWindow in
  let evs := [Channel.Elapse 3000] in
  Channel.unanswered r evs
  /\ (Channel.elapsed evs < Channel.TIMEOUT_MS)%Z
  /\ exists m d r',
       Channel.posted w1 = [(7, m)]
       /\ Frame.onMessage services m = Some d
       /\ Channel.requests
            (Channel.run (evs ++ [Channel.Message (Some d)]) w1) !! 0
          = Some r'
       /\ Channel.finished r'
       /\ Channel.promise r'
          = Channel.Rejected "Error: Store not found for Pod".
Proof.
  intros services r w1 evs.
  assert (Hun : Channel.unanswered r evs) by (repeat constructor).
  assert (Hshort : (Channel.elapsed evs < Channel.TIMEOUT_MS)%Z) by reflexivity.
  split; [exact Hun|]. split; [exact Hshort|].
  exact (frame_reply_settles services Channel.DeleteResource "r1" 7 podA
           Channel.emptyWindow evs [] Hun Hshort).
Defined.

(** ** The shortcut pressed inside a cluster frame *)

Section ToggleFromFrame.

Lemma matchClusterHost_truthy (hostname clusterId : string) :
  Shortcut.matchClusterHost hostname = Some clusterId ->
  Channel.truthy (Some clusterId) = true /\ isEmpty clusterId = false.
Proof.
  unfold Shortcut.matchClusterHost.
  destruct (String.eqb_spec (takeWhile Shortcut.isHexDigit hostname) "")
    as [|Hne]; [discriminate|].
  destruct (String.eqb _ Shortcut.clusterHostSuffix); [|discriminate].
  intros [= <-]. unfold isEmpty. cbn.
  destruct (String.eqb_spec (takeWhile Shortcut.isHexDigit hostname) "");
    [contradiction|]. split; reflexivity.
Qed.

(** X6.  The shortcut pressed inside a cluster frame while the palette is
    closed.  The frame posts a toggle message that carries the cluster id
    read from its host name; on that message the palette in the main
    window opens, takes the frame that sent the message as the active
    frame and the id as the current cluster, and posts one request for
    resources to that frame.  Resources cached for the cluster are shown
    at once, without the loading indicator; without a cache entry the
    loading indicator is shown. *)
Theorem shortcut_in_frame_opens_palette
    (preferences : Shortcut.KMenuPreferencesModel) (hostname clusterId : string)
    (event : Shortcut.KeyboardEvent) (source : nat)
    (navigationCommands : list Command) (requestId : string) (st : Palette) :
  Shortcut.enabled preferences = true ->
  Shortcut.matchesShortcut event (Shortcut.shortcutOr preferences) = true ->
  Shortcut.matchClusterHost hostname = Some clusterId ->
  isOpen st = false ->
  exists data,
    Frame.onKeyDown preferences hostname event = Some data
    /\ let st' := onToggleMessage source data navigationCommands requestId st in
       isOpen st' = true
       /\ activeIframeSource st' = Some source
       /\ currentClusterId st' = Some clusterId
       /\ Channel.posted (window st')
          = Channel.posted (window st)
            ++ [(source, Channel.MsgGetResources requestId)]
       /\ match resourceCache st !! clusterId with
          | Some cached =>
              allResources st' = cached /\ loadingShown st' = loadingShown st
          | None => loadingShown st' = true
          end.
Proof.
  intros Hon Hkey Hhost Hclosed.
  destruct (matchClusterHost_truthy _ _ Hhost) as [Htruthy Hid].
  unfold Frame.onKeyDown. rewrite Hon, Hkey, Hhost. cbn [negb].
  eexists. split; [reflexivity|].
  unfold onToggleMessage. cbn [Channel.msgType Frame.toggleMessage Channel.msgClusterId].
  rewrite Htruthy. cbn [String.eqb Ascii.eqb Bool.eqb].
  unfold toggle. destruct st; cbn in Hclosed |- *. subst.
  unfold open, initializeCommands. cbn.
  unfold loadResources, clusterIdOf. cbn. rewrite Hid.
  destruct (resourceCache0 !! clusterId) as [cached|] eqn:Hcache.
  - unfold renderResults, loadResourcesViaIPC, requestFrom. cbn.
    destruct results0; cbn; repeat split; reflexivity.
  - unfold loadResourcesViaIPC, requestFrom. cbn. repeat split; reflexivity.
Qed.

End ToggleFromFrame.

Lemma shortcut_in_frame_opens_palette_witness :
  let event := {| Shortcut.key := "K"; Shortcut.metaKey := true;
                  Shortcut.ctrlKey := false; Shortcut.altKey := false;
                  Shortcut.shiftKey := false |} in
  let st' := onToggleMessage 7 (Frame.toggleMessage (Some "c0ffee")) [] "r1"
                             initial in
  Shortcut.matchesShortcut event (Shortcut.shortcutOr Shortcut.defaults) = true
  /\ Shortcut.matchClusterHost "c0ffee.renderer.freelens.app" = Some "c0ffee"
  /\ Frame.onKeyDown Shortcut.defaults "c0ffee.renderer.freelens.app" event
     = Some (Frame.toggleMessage (Some "c0ffee"))
  /\ isOpen st' = true
  /\ currentClusterId st' = Some "c0ffee"
  /\ Channel.posted (window st') = [(7, Channel.MsgGetResources "r1")].
Proof.
  intros event st'.
  destruct (shortcut_in_frame_opens_palette Shortcut.defaults
              "c0ffee.renderer.freelens.app" "c0ffee" event 7 [] "r1" initial
              eq_refl eq_refl eq_refl eq_refl)
    as (data & Hdata & Hopen & _ & Hcluster & Hposted & _).
  assert (Hsame : data = Frame.toggleMessage (Some "c0ffee")).
  { cbv in Hdata. injection Hdata as <-. reflexivity. }
  subst data.
  split; [reflexivity|]. split; [reflexivity|]. split; [reflexivity|].
  split; [exact Hopen|]. split; [exact Hcluster|exact Hposted].
Defined.

(** ** The tiers that never score *)

Section FieldTiers.

Lemma substring_app_l (pat a b : string) :
  Substring pat a -> Substring pat (a +:+ b).
Proof.
  intros (pre & post & ->). exists pre, (post +:+ b).
  by rewrite !append_assoc.
Qed.

Lemma substring_app_r (pat a b : string) :
  Substring pat b -> Substring pat (a +:+ b).
Proof.
  intros (pre & post & ->). exists (a +:+ pre), post.
  by rewrite !append_assoc.
Qed.

Lemma substring_of_empty (pat : string) : Substring pat "" -> pat = "".
Proof.
  intros (pre & post & H). destruct pre; [|discriminate].
  rewrite append_empty_l in H. destruct pat; [reflexivity|discriminate].
Qed.

Lemma substring_empty (text : string) : Substring "" text.
Proof. exists "", text. by rewrite !append_empty_l. Qed.

(** What is found in the name, the kind or the namespace is found in the
    display text, which is made of them. *)
Lemma field_in_display (r : KubeResource) (term : string) :
  Substring term (toLowerCase (name r))
  \/ Substring term (toLowerCase (kind r))
  \/ Substring term (namespaceLowerOf r) ->
  Substring term (toLowerCase (getDisplayText r)).
Proof.
  unfold getDisplayText, namespaceLowerOf.
  destruct (namespace r) as [ns|].
  - destruct (String.eqb_spec ns "") as [->|Hns].
    + rewrite !toLowerCase_app. intros [H|[H|H]].
      * by do 2 apply substring_app_r.
      * by apply substring_app_l.
      * apply substring_of_empty in H as ->. apply substring_empty.
    + rewrite !toLowerCase_app. intros [H|[H|H]].
      * by do 4 apply substring_app_r.
      * by apply substring_app_l.
      * by do 2 apply substring_app_r; apply substring_app_l.
  - rewrite !toLowerCase_app. intros [H|[H|H]].
    + by do 2 apply substring_app_r.
    + by apply substring_app_l.
    + apply substring_of_empty in H as ->. apply substring_empty.
Qed.

Lemma field_hit_is_display_hit (r : KubeResource) (term : string) :
  includes (toLowerCase (getDisplayText r)) term = false ->
  includes (toLowerCase (name r)) term = false
  /\ includes (toLowerCase (kind r)) term = false
  /\ includes (namespaceLowerOf r) term = false.
Proof.
  intros Hno. apply includes_false in Hno.
  repeat split; apply includes_false; intros H; apply Hno, field_in_display; auto.
Qed.

(** The loop over the terms adds 10 for a term found in the display text
    and 2 for a term matched as a subsequence, and nothing else. *)
Lemma scoreTerms_counts (r : KubeResource) (terms : list string) :
  Forall (fun term => term <> "") terms ->
  forall start total,
    scoreTerms (toLowerCase (getDisplayText r)) (toLowerCase (name r))
               (toLowerCase (kind r)) (namespaceLowerOf r) terms start
    = Some total ->
    exists hits fuzzy : nat,
      hits + fuzzy = length terms
      /\ (total == start + inject_Z (10 * Z.of_nat hits + 2 * Z.of_nat fuzzy))%Q.
Proof.
  induction 1 as [|term terms Hterm _ IH]; intros start total; cbn [scoreTerms].
  - intros [= <-]. exists 0, 0. split; [reflexivity|].
    change (inject_Z (10 * Z.of_nat 0 + 2 * Z.of_nat 0)) with 0%Q. ring.
  - destruct (includes (toLowerCase (getDisplayText r)) term) eqn:Hd.
    + intros (hits & fuzzy & Hlen & Htotal)%IH.
      exists (S hits), fuzzy. split; [cbn; lia|]. rewrite Htotal.
      rewrite Nat2Z.inj_succ, !inject_Z_plus, !inject_Z_mult.
      unfold Z.succ. rewrite inject_Z_plus. cbn [inject_Z]. ring.
    + destruct (field_hit_is_display_hit r term Hd) as (-> & -> & ->).
      destruct (Qlt_bool 0 (fuzzyMatch (toLowerCase (getDisplayText r)) term))
        eqn:Hf; [|discriminate].
      apply (fuzzy_positive _ _ Hterm) in Hf.
      pose proof (fuzzyMatch_subsequence _ _ Hterm Hf) as Hone.
      intros (hits & fuzzy & Hlen & Htotal)%IH.
      exists hits, (S fuzzy). split; [cbn; lia|]. rewrite Htotal, Hone.
      rewrite Nat2Z.inj_succ, !inject_Z_plus, !inject_Z_mult.
      unfold Z.succ. rewrite inject_Z_plus. cbn [inject_Z]. ring.
Qed.

Lemma rank_in_matching (query : string) (resources : list KubeResource)
    (res : SearchResult) :
  query <> "" -> In res (rank query resources) ->
  In res (matching (searchTermsOf (toLowerCase query)) resources).
Proof.
  intros Hq. unfold rank, isEmpty.
  destruct (String.eqb_spec query "") as [|_]; [contradiction|].
  intros Hin.
  apply (Permutation_in _ (sortByScore_permutation _)).
  rewrite <- (take_drop 50 (sortByScore _)). apply in_or_app. by left.
Qed.

(** X7.  The branches of the search that add 8, 6 and 5 for a term found
    in the name, the kind or the namespace are never taken: such a term is
    found in the display text, which is tried first and adds 10.  Every
    term of a query therefore adds 10 (found in the display text) or 2
    (matched as a subsequence), and the score of a listed item is
    [10 * hits + 2 * fuzzy] over the terms of the query. *)
Theorem field_tiers_never_score (query : string) (resources : list KubeResource) :
  (forall r term,
     includes (toLowerCase (name r)) term
     || includes (toLowerCase (kind r)) term
     || includes (namespaceLowerOf r) term = true ->
     includes (toLowerCase (getDisplayText r)) term = true)
  /\ (forall r term t,
        matchesThrough r term t -> t = DisplayTier \/ t = FuzzyTier)
  /\ (forall res,
        query <> "" -> In res (rank query resources) ->
        exists hits fuzzy : nat,
          hits + fuzzy = length (searchTermsOf (toLowerCase query))
          /\ (matchScore res
              == inject_Z (10 * Z.of_nat hits + 2 * Z.of_nat fuzzy))%Q).
Proof.
  split; [|split].
  - intros r term H. apply includes_spec, field_in_display.
    rewrite !orb_true_iff, !includes_spec in H. tauto.
  - intros r term t [Hholds Hfirst].
    destruct t; auto; exfalso;
      apply (Hfirst DisplayTier); cbn; try lia;
      apply field_in_display; cbn in Hholds; auto.
  - intros res Hq Hin. apply rank_in_matching in Hin; [|exact Hq].
    unfold matching in Hin. apply filter_In in Hin as [Hin Hpos].
    apply in_map_iff in Hin as (r & <- & _).
    unfold scoreResource in Hpos |- *. cbn [matchScore] in Hpos |- *.
    fold (namespaceLowerOf r) in Hpos |- *.
    destruct (scoreTerms _ _ _ _ _ 0%Q) as [total|] eqn:Hscore; [|discriminate].
    destruct (scoreTerms_counts r _ (terms_nonempty query) _ _ Hscore)
      as (hits & fuzzy & Hlen & Htotal).
    exists hits, fuzzy. split; [exact Hlen|]. rewrite Htotal. ring.
Qed.

End FieldTiers.

Lemma field_tiers_never_score_witness :
  "a" <> ""
  /\ In (scoreResource ["a"] podA) (rank "a" sample)
  /\ exists hits fuzzy : nat,
       hits + fuzzy = 1
       /\ (matchScore (scoreResource ["a"] podA)
           == inject_Z (10 * Z.of_nat hits + 2 * Z.of_nat fuzzy))%Q.
Proof.
  assert (Hq : "a" <> "") by discriminate.
  assert (Hin : In (scoreResource ["a"] podA) (rank "a" sample))
    by (left; reflexivity).
  destruct (field_tiers_never_score "a" sample) as (_ & _ & Hscore).
  split; [exact Hq|]. split; [exact Hin|].
  exact (Hscore _ Hq Hin).
Defined.

(** ** Moving through the lists *)

Section Selection.

Variable env : Env.

Lemma commandResources_selectedIndex (i : Z) (cmd : Command) (st : Palette) :
  commandResources cmd (set_selectedIndex i st) = commandResources cmd st.
Proof. by destruct st. Qed.

(** The key is handled by the block for the resources of a command. *)
Lemma key_in_command_resources (key : Key) (cmd : Command) (st : Palette) :
  isCommandMode st = true -> autocompleteSuggestions st = [] ->
  activeCommand st = Some cmd -> commandSearchQuery st <> "" ->
  key <> Tab -> key <> OtherKey ->
  Some (handleKeyDown env key st) = keyInCommandResources env key st.
Proof.
  intros Hmode Hsugg Hcmd Hquery Htab Hother.
  unfold handleKeyDown, suggestionsShown, hasSearchText, isEmpty.
  rewrite Hmode, Hsugg, Hcmd. cbn [length Nat.ltb Nat.leb andb].
  rewrite andb_false_r.
  rewrite bool_decide_eq_true_2 by (by eexists).
  destruct (String.eqb_spec (commandSearchQuery st) "") as [|_]; [contradiction|].
  cbn [negb andb]. destruct key; try congruence; cbn [keyInCommandResources];
    try reflexivity.
  by destruct (item (results st) (selectedIndex st)).
Qed.

(** X8.  An arrow key in the list of resources of a command.  The list is
    drawn with the item the arrow moved to highlighted, but drawing the
    list resets the selection to the first item: after any arrow key the
    selection is 0, and Enter runs the command on the first resource of
    the list, whichever item is highlighted. *)
Theorem arrows_reset_command_selection (key : Key) (cmd : Command)
    (first : KubeResource) (rest : list KubeResource) (st : Palette) :
  key = ArrowDown \/ key = ArrowUp ->
  isCommandMode st = true -> autocompleteSuggestions st = [] ->
  activeCommand st = Some cmd -> commandSearchQuery st <> "" ->
  commandResources cmd st = first :: rest ->
  let st' := handleKeyDown env key st in
  let moved :=
    match key with
    | ArrowDown => stepDown (selectedIndex st) (length (results st))
    | _ => stepUp (selectedIndex st)
    end in
  (exists header, view st' = VCommandResources header (first :: rest) moved)
  /\ selectedIndex st' = 0%Z
  /\ results st' = map unranked (first :: rest)
  /\ handleKeyDown env Enter st' = executeCommandOnResource env first st'.
Proof.
  intros Hkey Hmode Hsugg Hcmd Hquery Hres. cbv zeta.
  assert (Hstep : handleKeyDown env key st
                  = renderCommandResourceList
                      (set_selectedIndex
                         match key with
                         | ArrowDown =>
                             stepDown (selectedIndex st) (length (results st))
                         | _ => stepUp (selectedIndex st)
                         end st)).
  { assert (Some (handleKeyDown env key st) = keyInCommandResources env key st)
      as H by (apply (key_in_command_resources key cmd); try done;
               destruct Hkey; by subst).
    destruct Hkey; subst key; cbn in H; by injection H. }
  rewrite Hstep. clear Hstep.
  set (moved := match key with
                | ArrowDown => stepDown (selectedIndex st) (length (results st))
                | _ => stepUp (selectedIndex st)
                end).
  assert (Hdrawn : exists header,
             renderCommandResourceList (set_selectedIndex moved st)
             = set_selectedIndex 0
                 (set_results (map unranked (first :: rest))
                    (set_view (VCommandResources header (first :: rest) moved)
                       (set_selectedIndex moved st)))).
  { unfold renderCommandResourceList.
    replace (activeCommand (set_selectedIndex moved st)) with (Some cmd)
      by (by destruct st).
    rewrite commandResources_selectedIndex, Hres.
    eexists. f_equal. f_equal. f_equal. by destruct st. }
  destruct Hdrawn as [header ->].
  split; [exists header; by destruct st|].
  split; [by destruct st|]. split; [by destruct st|].
  match goal with |- handleKeyDown env Enter ?s = _ => set (st' := s) end.
  assert (Some (handleKeyDown env Enter st') = keyInCommandResources env Enter st')
    as H.
  { apply (key_in_command_resources Enter cmd); try done;
      subst st'; destruct st; cbn in *; done. }
  replace (keyInCommandResources env Enter st')
    with (Some (executeCommandOnResource env first st')) in H
    by (subst st'; by destruct st).
  by injection H.
Qed.

(** X9.  The arrow keys over the search results.  With the selection on
    an item of the list, Down moves it one item on and stays on the last
    item, Up moves it one item back and stays on the first; the list is
    redrawn with that item highlighted, the results are untouched.  Over
    an empty list Down leaves the selection at -1, where Enter does
    nothing. *)
Theorem arrows_keep_selection_in_range (st : Palette) :
  isCommandMode st = false ->
  ((0 <= selectedIndex st < Z.of_nat (length (results st)))%Z ->
   let down := handleKeyDown env ArrowDown st in
   let up := handleKeyDown env ArrowUp st in
   results down = results st /\ results up = results st
   /\ selectedIndex down
      = (if (selectedIndex st + 1 =? Z.of_nat (length (results st)))%Z
         then selectedIndex st else selectedIndex st + 1)%Z
   /\ selectedIndex up
      = (if (selectedIndex st =? 0)%Z then 0 else selectedIndex st - 1)%Z
   /\ view down = VResults (results st) (selectedIndex down)
   /\ view up = VResults (results st) (selectedIndex up))
  /\ (results st = [] -> selectedIndex st = 0%Z ->
      autocompleteSuggestions st = [] ->
      let down := handleKeyDown env ArrowDown st in
      selectedIndex down = (-1)%Z /\ handleKeyDown env Enter down = down).
Proof.
  intros Hmode. split.
  - intros Hrange. cbv zeta.
    assert (Hdown : handleKeyDown env ArrowDown st
                    = renderResults
                        (set_selectedIndex
                           (stepDown (selectedIndex st) (length (results st))) st)).
    { unfold handleKeyDown. rewrite Hmode. cbn [andb].
      by destruct (suggestionsShown st). }
    assert (Hup : handleKeyDown env ArrowUp st
                  = renderResults (set_selectedIndex (stepUp (selectedIndex st)) st)).
    { unfold handleKeyDown. rewrite Hmode. cbn [andb].
      by destruct (suggestionsShown st). }
    rewrite Hdown, Hup. unfold renderResults, stepDown, stepUp.
    destruct st; cbn in *.
    destruct results0 as [|res results0]; [cbn in Hrange; lia|].
    cbn -[Z.of_nat Z.add Z.sub Z.min Z.max Z.eqb] in *.
    repeat split; try reflexivity.
    + destruct (Z.eqb_spec (selectedIndex0 + 1) (Z.of_nat (S (length results0))));
        lia.
    + destruct (Z.eqb_spec selectedIndex0 0); lia.
  - intros Hres Hsel Hsugg. cbv zeta.
    unfold handleKeyDown, suggestionsShown. rewrite Hmode, Hsugg. cbn.
    unfold renderResults. destruct st; cbn in *. subst.
    by destruct allResources0.
Qed.

(** X10.  Enter on a search result.  The palette posts one navigation
    message, for the selected resource and the current cluster, to the
    active frame, and closes: the input, the results and the filters are
    cleared.  Without a cluster id or without a frame it closes all the
    same and posts nothing.  It calls nothing else of the host.  With no
    item under the selection nothing happens at all. *)
Theorem enter_navigates_and_closes (st : Palette) :
  isCommandMode st = false -> autocompleteSuggestions st = [] ->
  let st' := handleKeyDown env Enter st in
  match item (results st) (selectedIndex st) with
  | Some result =>
      isOpen st' = false /\ inputValue st' = "" /\ results st' = []
      /\ activeFilters st' = [] /\ searchDebounceTimer st' = None
      /\ Channel.posted (window st')
         = Channel.posted (window st)
           ++ match clusterIdOf st, activeIframeSource st with
              | Some clusterId, Some iframe =>
                  [(iframe, Channel.MsgNavigateToResource clusterId
                                                          (resource result))]
              | _, _ => []
              end
      /\ Channel.requests (window st') = Channel.requests (window st)
      /\ hostCalls st' = hostCalls st /\ invoked st' = invoked st
      /\ alerts st' = alerts st
  | None => st' = st
  end.
Proof.
  intros Hmode Hsugg. cbv zeta.
  unfold handleKeyDown, suggestionsShown. rewrite Hmode, Hsugg. cbn.
  unfold selectResult. destruct (item (results st) (selectedIndex st)) as [result|];
    [|reflexivity].
  unfold navigateToResource.
  destruct (clusterIdOf st) as [clusterId|], (activeIframeSource st) as [iframe|];
    destruct st; cbn; rewrite ?app_nil_r; repeat split; reflexivity.
Qed.

End Selection.

Lemma arrows_reset_command_selection_witness :
  let st' := handleKeyDown accepting ArrowDown deleting in
  isCommandMode deleting = true
  /\ activeCommand deleting = Some deleteCommand
  /\ commandResources deleteCommand deleting = [podA; serviceA]
  /\ (exists header, view st' = VCommandResources header [podA; serviceA] 1)
  /\ selectedIndex st' = 0%Z
  /\ deleteRequests (handleKeyDown accepting Enter st')
     = [(7, Channel.MsgDeleteResource "r1" podA)].
Proof.
  intros st'.
  assert (Hquery : commandSearchQuery deleting <> "") by discriminate.
  destruct (arrows_reset_command_selection accepting ArrowDown deleteCommand
              podA [serviceA] deleting (or_introl eq_refl) eq_refl eq_refl
              eq_refl Hquery eq_refl)
    as (Hview & Hselected & _ & Henter).
  split; [reflexivity|]. split; [reflexivity|]. split; [reflexivity|].
  split; [exact Hview|]. split; [exact Hselected|].
  unfold st'. rewrite Henter. reflexivity.
Defined.

Lemma arrows_keep_selection_in_range_witness :
  let st := debounceFired (typed "a") in
  let down := handleKeyDown declining ArrowDown st in
  isCommandMode st = false
  /\ (0 <= selectedIndex st < Z.of_nat (length (results st)))%Z
  /\ map displayText (results st) = ["Pod/ns1/a"; "Service/ns1/a"]
  /\ selectedIndex down = 1%Z
  /\ selectedIndex (handleKeyDown declining ArrowDown down) = 1%Z.
Proof.
  intros st down.
  assert (Hrange : (0 <= selectedIndex st < Z.of_nat (length (results st)))%Z)
    by (vm_compute; split; [discriminate|reflexivity]).
  assert (Hagain : (0 <= selectedIndex down < Z.of_nat (length (results down)))%Z)
    by (vm_compute; split; [discriminate|reflexivity]).
  destruct (arrows_keep_selection_in_range declining st eq_refl) as [Hin _].
  destruct (Hin Hrange) as (_ & _ & Hdown & _).
  destruct (arrows_keep_selection_in_range declining down eq_refl) as [Hin' _].
  destruct (Hin' Hagain) as (_ & _ & Hdown' & _).
  split; [reflexivity|]. split; [exact Hrange|]. split; [reflexivity|].
  split; [exact Hdown|exact Hdown'].
Defined.

Lemma enter_navigates_and_closes_witness :
  let st :=
    debounceFired
      (handleInput
         (set_inputValue "b"
            (set_activeIframeSource (Some 7)
               (set_currentClusterId (Some "c1")
                  (set_allResources sample opened))))) in
  let st' := handleKeyDown declining Enter st in
  isCommandMode st = false /\ autocompleteSuggestions st = []
  /\ map resource (results st) = [podB]
  /\ isOpen st' = false
  /\ Channel.posted (window st')
     = [(7, Channel.MsgNavigateToResource "c1" podB)].
Proof.
  intros st st'.
  pose proof (enter_navigates_and_closes declining st eq_refl eq_refl) as H.
  destruct H as (Hopen & _ & _ & _ & _ & Hposted & _).
  split; [reflexivity|]. split; [reflexivity|]. split; [reflexivity|].
  split; [exact Hopen|exact Hposted].
Defined.

(** ** Removing a filter *)

Section RemoveFilter.

Variables (type : FilterType) (value : string).

Let added : Filter := {| ftype := type; fvalue := value |}.

Lemma removeFilter_filters (st : Palette) :
  activeFilters (removeFilter type value st)
  = List.filter (fun f => negb (sameFilter type value f)) (activeFilters st).
Proof.
  unfold removeFilter.
  match goal with |- activeFilters (performSearch ?s) = _ =>
    pose proof (durable_performSearch s) as Hd end.
  apply durable_fields in Hd as (_ & _ & _ & -> & _). by destruct st.
Qed.

Lemma filter_out_absent (filters : list Filter) :
  ~ In added filters ->
  List.filter (fun f => negb (sameFilter type value f)) filters = filters.
Proof.
  induction filters as [|f filters IH]; [reflexivity|].
  intros Hno. cbn.
  destruct (sameFilter type value f) eqn:Hf.
  - apply sameFilter_spec in Hf. subst f. exfalso. apply Hno. by left.
  - cbn. rewrite IH; [reflexivity|]. intros H. apply Hno. by right.
Qed.

(** What [addFilter] leaves when the filter is new: an empty input
    outside command mode. *)
Lemma addFilter_new_state (st : Palette) :
  ~ In added (activeFilters st) ->
  inputValue (addFilter type value st) = ""
  /\ isCommandMode (addFilter type value st) = false
  /\ allResources (addFilter type value st) = allResources st
  /\ activeCommand (addFilter type value st) = None
  /\ commandSearchQuery (addFilter type value st) = ""
  /\ autocompleteSuggestions (addFilter type value st) = []
  /\ autocompleteFilterType (addFilter type value st) = None.
Proof.
  intros Hno. unfold addFilter.
  destruct (existsb _ _) eqn:E; [by apply present_spec in E|].
  match goal with |- context [updateAutocompleteHint ?s] => set (searched := s) end.
  assert (Hd : durable searched
               = durable (set_activeFilters (activeFilters st ++ [added])
                                            (set_inputValue "" st))).
  { subst searched. autorewrite with durable. by destruct st. }
  apply durable_fields in Hd as (_ & Hinput & Hall & _).
  replace (inputValue (set_activeFilters _ _)) with "" in Hinput
    by (by destruct st).
  replace (allResources (set_activeFilters _ _)) with (allResources st) in Hall
    by (by destruct st).
  rewrite (updateAutocompleteHint_empty searched Hinput).
  destruct searched; cbn in *. by subst.
Qed.

(** X11.  [removeFilter] takes out every filter of the given type and
    value and keeps the others in their order.  Removing a filter that was
    just added brings back the filters there were before; the input that
    [addFilter] cleared stays empty, and the list is searched again with
    the filters that are left: the first 50 resources that pass them. *)
Theorem removeFilter_undoes_addFilter (st : Palette) :
  activeFilters (removeFilter type value st)
  = List.filter (fun f => negb (bool_decide (f = added))) (activeFilters st)
  /\ ~ In added (activeFilters (removeFilter type value st))
  /\ (~ In added (activeFilters st) ->
      let st' := removeFilter type value (addFilter type value st) in
      activeFilters st' = activeFilters st
      /\ inputValue st' = ""
      /\ map resource (results st')
         = take 50 (List.filter (passesAll (activeFilters st)) (allResources st))).
Proof.
  assert (Hsame : forall f, sameFilter type value f = bool_decide (f = added)).
  { intros f. destruct (sameFilter type value f) eqn:Hf.
    - apply sameFilter_spec in Hf. by rewrite bool_decide_eq_true_2.
    - rewrite bool_decide_eq_false_2; [reflexivity|].
      intros H%sameFilter_spec. congruence. }
  split; [|split].
  - rewrite removeFilter_filters. apply filter_ext. intros f. by rewrite Hsame.
  - rewrite removeFilter_filters. intros [_ H]%filter_In. cbv beta in H.
    rewrite (proj2 (sameFilter_spec type value added)) in H; [discriminate|].
    reflexivity.
  - intros Hno. cbv zeta.
    destruct (addFilter_new_state st Hno) as (Hinput & Hmode & Hall & _).
    assert (Hfilters : activeFilters (removeFilter type value (addFilter type value st))
                       = activeFilters st).
    { rewrite removeFilter_filters, (addFilter_absent type value st Hno).
      rewrite List.filter_app, (filter_out_absent _ Hno). cbn.
      rewrite (proj2 (sameFilter_spec type value _) eq_refl). cbn.
      apply app_nil_r. }
    split; [exact Hfilters|].
    unfold removeFilter in *.
    match goal with |- context [performSearch ?s] => set (narrowed := s) in * end.
    assert (Hin : inputValue narrowed = "")
      by (subst narrowed; destruct (addFilter type value st); exact Hinput).
    assert (Hm : isCommandMode narrowed = false)
      by (subst narrowed; destruct (addFilter type value st); exact Hmode).
    assert (Ha : allResources narrowed = allResources st)
      by (subst narrowed; destruct (addFilter type value st); exact Hall).
    split.
    + pose proof (durable_performSearch narrowed) as Hd.
      apply durable_fields in Hd as (_ & -> & _). exact Hin.
    + rewrite (performSearch_applies_filters narrowed Hm Hin), Ha.
      pose proof (durable_performSearch narrowed) as Hd.
      apply durable_fields in Hd as (_ & _ & _ & Hf & _).
      rewrite <- Hf, Hfilters. reflexivity.
Qed.

End RemoveFilter.

Lemma removeFilter_undoes_addFilter_witness :
  let st := debounceFired (typed "a") in
  let st' := removeFilter FKind "Pod" (addFilter FKind "Pod" st) in
  ~ In {| ftype := FKind; fvalue := "Pod" |} (activeFilters st)
  /\ map resource (results (addFilter FKind "Pod" st)) = [podA; podB]
  /\ activeFilters st' = activeFilters st
  /\ inputValue st' = ""
  /\ map resource (results st') = sample.
Proof.
  intros st st'.
  assert (Hno : ~ In {| ftype := FKind; fvalue := "Pod" |} (activeFilters st))
    by (intros []).
  destruct (removeFilter_undoes_addFilter FKind "Pod" st) as (_ & _ & Hback).
  destruct (Hback Hno) as (Hfilters & Hinput & Hresults).
  split; [exact Hno|]. split; [reflexivity|].
  split; [exact Hfilters|]. split; [exact Hinput|exact Hresults].
Defined.

(** ** The cache of resources *)

Section Cache.

(** X12.  Resources that arrive for a cluster are cached under its id.
    When the palette is closed and opened again for that cluster, it takes
    the cached resources at once, does not show the loading indicator, and
    asks the frame for fresh resources in the background.  What it draws at
    that moment is not the cached resources: [close] emptied the results,
    so the empty list is drawn, with the text for no match when there are
    cached resources. *)
Theorem loaded_resources_are_cached (resources : list KubeResource)
    (clusterId : string) (iframe : nat) (navigationCommands : list Command)
    (requestId : string) (st : Palette) :
  currentClusterId st = Some clusterId -> clusterId <> "" ->
  activeIframeSource st = Some iframe ->
  let loaded := loadResourcesViaIPC_settled (Channel.Resolved resources) st in
  let reopened := open navigationCommands requestId (close loaded) in
  resourceCache loaded = <[clusterId := resources]> (resourceCache st)
  /\ allResources loaded = resources /\ loadingShown loaded = false
  /\ window loaded = window st
  /\ isOpen reopened = true
  /\ allResources reopened = resources
  /\ loadingShown reopened = false
  /\ view reopened = VEmpty (match resources with
                             | [] => "Loading resources..."
                             | _ => "No resources found"
                             end)
  /\ Channel.posted (window reopened)
     = Channel.posted (window st) ++ [(iframe, Channel.MsgGetResources requestId)].
Proof.
  intros Hcluster Hid Hframe. cbv zeta.
  unfold loadResourcesViaIPC_settled, resourcesLoaded.
  assert (Hidt : clusterIdOf (set_allResources resources st) = Some clusterId).
  { unfold clusterIdOf, isEmpty. destruct st; cbn in *. subst.
    by destruct (String.eqb_spec clusterId ""). }
  rewrite Hidt.
  match goal with |- context [handleInput ?s] => set (stored := s) end.
  pose proof (durable_handleInput stored) as Hd.
  apply durable_fields in Hd
    as (_ & _ & Hall & _ & Hcache & Hcur & Hfr & _ & Hwin & _).
  replace (allResources stored) with resources in * by (by destruct st).
  replace (resourceCache stored)
    with (<[clusterId := resources]> (resourceCache st)) in *
    by (by destruct st).
  replace (currentClusterId stored) with (Some clusterId) in *
    by (destruct st; cbn in *; congruence).
  replace (activeIframeSource stored) with (Some iframe) in *
    by (destruct st; cbn in *; congruence).
  replace (window stored) with (window st) in * by (by destruct st).
  destruct (handleInput stored); cbn in *. subst.
  unfold open, initializeCommands, loadResources, clusterIdOf, isEmpty; cbn.
  destruct (String.eqb_spec clusterId "") as [|_]; [contradiction|].
  rewrite lookup_insert_eq.
  cbn. repeat split; reflexivity.
Qed.

(** X13.  What follows a deletion in a cluster.  When the frame reports
    success, the palette says so (a check mark, then [ Successfully
    deleted ] and the name), drops the cached resources of the
    cluster, shows the loading indicator and asks the frame for the
    resources again; the resources it holds stay as they are until the
    answer arrives.  When the frame reports a failure, the palette only
    reports it (a cross, then [ Failed to delete ], the name and the
    error as a template prints it, [Error: ] before its message): the
    cache, the resources and the messages are untouched. *)
Theorem deletion_outcome (env : Env) (r : KubeResource) (clusterId : string)
    (iframe : nat) (st : Palette) :
  currentClusterId st = Some clusterId -> clusterId <> "" ->
  activeIframeSource st = Some iframe ->
  (forall value,
     let st' := deleteSettled env r (Channel.Resolved value) st in
     alerts st'
     = alerts st ++ [marked CheckMark (" Successfully deleted " +:+ resourceName r)]
     /\ resourceCache st' = delete clusterId (resourceCache st)
     /\ resourceCache st' !! clusterId = None
     /\ loadingShown st' = true
     /\ allResources st' = allResources st
     /\ Channel.posted (window st')
        = Channel.posted (window st)
          ++ [(iframe, Channel.MsgGetResources (freshId env))])
  /\ (forall message,
        let st' := deleteSettled env r (Channel.Rejected message) st in
        alerts st'
        = alerts st ++ [marked CrossMark (" Failed to delete " +:+ resourceName r
                                          +:+ ": " +:+ errorText message)]
        /\ (message <> "" -> errorText message = "Error: " +:+ message)
        /\ resourceCache st' = resourceCache st
        /\ allResources st' = allResources st
        /\ window st' = window st).
Proof.
  intros Hcluster Hid Hframe. split.
  - intros value. cbv zeta.
    unfold deleteSettled, refreshResources, alert, clusterIdOf, isEmpty.
    destruct st; cbn in *. subst.
    destruct (String.eqb_spec clusterId "") as [|_]; [contradiction|].
    unfold loadResources, clusterIdOf, isEmpty; cbn.
    destruct (String.eqb_spec clusterId "") as [|_]; [contradiction|].
    rewrite lookup_delete_eq. cbn. repeat split; try reflexivity.
    apply lookup_delete_eq.
  - intros message. cbv zeta. unfold deleteSettled, alert.
    destruct st; cbn. split; [reflexivity|]. split; [|repeat split; reflexivity].
    intros Hmessage. unfold errorText, isEmpty.
    by destruct (String.eqb_spec message "").
Qed.

End Cache.

Lemma loaded_resources_are_cached_witness :
  let st := set_activeIframeSource (Some 7)
              (set_currentClusterId (Some "c1") opened) in
  let loaded := loadResourcesViaIPC_settled (Channel.Resolved sample) st in
  let reopened := open [] "r2" (close loaded) in
  currentClusterId st = Some "c1" /\ "c1" <> ""
  /\ activeIframeSource st = Some 7
  /\ resourceCache loaded !! "c1" = Some sample
  /\ allResources reopened = sample
  /\ view reopened = VEmpty "No resources found"
  /\ Channel.posted (window reopened) = [(7, Channel.MsgGetResources "r2")].
Proof.
  intros st loaded reopened.
  assert (Hid : "c1" <> "") by discriminate.
  destruct (loaded_resources_are_cached sample "c1" 7 [] "r2" st
              eq_refl Hid eq_refl)
    as (Hcache & _ & _ & _ & _ & Hall & _ & Hview & Hposted).
  split; [reflexivity|]. split; [exact Hid|]. split; [reflexivity|].
  split; [fold loaded in Hcache; rewrite Hcache; apply lookup_insert_eq|].
  split; [exact Hall|]. split; [exact Hview|exact Hposted].
Defined.

Lemma deletion_outcome_witness :
  let st' := deleteSettled accepting podA (Channel.Resolved []) cachedPalette in
  currentClusterId cachedPalette = Some "c1" /\ "c1" <> ""
  /\ activeIframeSource cachedPalette = Some 7
  /\ resourceCache cachedPalette !! "c1" = Some sample
  /\ alerts st' = [marked CheckMark " Successfully deleted Pod/ns1/a"]
  /\ resourceCache st' !! "c1" = None
  /\ Channel.posted (window st') = [(7, Channel.MsgGetResources "r1")].
Proof.
  intros st'.
  assert (Hid : "c1" <> "") by discriminate.
  destruct (deletion_outcome accepting podA "c1" 7 cachedPalette
              eq_refl Hid eq_refl) as [Hdone _].
  destruct (Hdone []) as (Halerts & _ & Hgone & _ & _ & Hposted).
  split; [reflexivity|]. split; [exact Hid|]. split; [reflexivity|].
  split; [reflexivity|]. split; [exact Halerts|].
  split; [exact Hgone|exact Hposted].
Defined.

(** ** Typing *)

Section Typing.

Variable env : Env.

Lemma hint_sets_command_mode (st : Palette) :
  isCommandMode (updateAutocompleteHint st) = startsWith (inputValue st) "/"
  /\ (startsWith (inputValue st) "/" = false ->
      activeCommand (updateAutocompleteHint st) = None
      /\ commandSearchQuery (updateAutocompleteHint st) = "").
Proof.
  unfold updateAutocompleteHint, showCommandList, suggestForCommand, suggestPlain,
    renderCommandResourceList, renderCommandList, showSuggestions,
    resetAutocomplete.
  destruct st; cbn [inputValue].
  destruct (startsWith inputValue0 "/"); split; try discriminate;
    repeat case_match; cbn; auto.
Qed.

Lemma handleInput_fields (st : Palette) :
  isCommandMode (handleInput st) = isCommandMode (updateAutocompleteHint st)
  /\ activeCommand (handleInput st) = activeCommand (updateAutocompleteHint st)
  /\ commandSearchQuery (handleInput st)
     = commandSearchQuery (updateAutocompleteHint st)
  /\ autocompleteSuggestions (handleInput st)
     = autocompleteSuggestions (updateAutocompleteHint st)
  /\ autocompleteFilterType (handleInput st)
     = autocompleteFilterType (updateAutocompleteHint st)
  /\ searchDebounceTimer (handleInput st)
     = Some (Channel.clock (window st) + DEBOUNCE_DELAY)%Z.
Proof.
  unfold handleInput. rewrite (window_updateAutocompleteHint st).
  by destruct (updateAutocompleteHint st).
Qed.

(** X14.  Every input event decides the mode anew: the palette is in
    command mode afterwards exactly when the input starts with a slash,
    and outside command mode no command is active and no command search
    text is kept.  The search itself is put off by 150 ms from the moment
    of the event.  The input, the resources, the filters, the cache and
    what was sent to the host are untouched. *)
Theorem typing_sets_command_mode (st : Palette) :
  let st' := handleInput st in
  isCommandMode st' = startsWith (inputValue st) "/"
  /\ (startsWith (inputValue st) "/" = false ->
      activeCommand st' = None /\ commandSearchQuery st' = "")
  /\ searchDebounceTimer st' = Some (Channel.clock (window st) + 150)%Z
  /\ inputValue st' = inputValue st
  /\ allResources st' = allResources st
  /\ activeFilters st' = activeFilters st
  /\ resourceCache st' = resourceCache st
  /\ window st' = window st
  /\ alerts st' = alerts st /\ invoked st' = invoked st.
Proof.
  cbv zeta.
  destruct (handleInput_fields st) as (-> & -> & -> & _ & _ & ->).
  destruct (hint_sets_command_mode st) as [-> Hplain].
  pose proof (durable_handleInput st) as Hd.
  apply durable_fields in Hd
    as (_ & -> & -> & -> & -> & _ & _ & _ & -> & -> & _ & -> & _).
  repeat split; auto; by apply Hplain.
Qed.

(** The completion [autocompleteFilterName] picks: the first filter name
    the text is a prefix of. *)
Let completion (query : string) : option FilterType :=
  List.find (fun t => startsWith (filterName t) query) [FKind; FNamespace; FNode].

Lemma tab_outside_command_mode (st : Palette) :
  isCommandMode st = false -> autocompleteSuggestions st = [] ->
  handleKeyDown env Tab st = autocompleteFilterName st.
Proof.
  intros Hmode Hsugg. unfold handleKeyDown, suggestionsShown.
  by rewrite Hmode, Hsugg.
Qed.

(** X15.  Tab on the start of a filter name.  When the input holds no
    colon and is, case ignored, a prefix of [kind:], [namespace:] or
    [node:], Tab replaces it by the first of the three it is a prefix of
    (the empty input becomes [kind:], [n] becomes [namespace:]) and the
    suggestions for that attribute open at once: the first ten of its
    values across the resources, in order.  Otherwise Tab changes
    nothing. *)
Theorem tab_completes_filter_name (st : Palette) :
  isCommandMode st = false -> autocompleteSuggestions st = [] ->
  let query := toLowerCase (inputValue st) in
  let st' := handleKeyDown env Tab st in
  match (if includes query ":" then None else completion query) with
  | Some t =>
      inputValue st' = filterName t
      /\ isCommandMode st' = false
      /\ autocompleteFilterType st' = Some t
      /\ autocompleteSuggestions st'
         = take 10 (Str.sort (fieldValues t (allResources st)))
  | None => st' = st
  end.
Proof.
  intros Hmode Hsugg. cbv zeta. rewrite (tab_outside_command_mode st Hmode Hsugg).
  unfold autocompleteFilterName, completion.
  destruct (includes (toLowerCase (inputValue st)) ":"); [reflexivity|].
  cbn [List.filter List.find filterName].
  change (toLowerCase "kind:") with "kind:".
  change (toLowerCase "namespace:") with "namespace:".
  change (toLowerCase "node:") with "node:".
  assert (Hdone : forall t,
             let typed := set_inputValue (filterName t) st in
             inputValue (handleInput typed) = filterName t
             /\ isCommandMode (handleInput typed) = false
             /\ autocompleteFilterType (handleInput typed) = Some t
             /\ autocompleteSuggestions (handleInput typed)
                = take 10 (Str.sort (fieldValues t (allResources st)))).
  { intros t. cbv zeta.
    set (typed := set_inputValue (filterName t) st).
    assert (Hin : inputValue typed = filterName t) by (by destruct st).
    assert (Hall : allResources typed = allResources st) by (by destruct st).
    assert (Hslash : startsWith (inputValue typed) "/" = false)
      by (rewrite Hin; by destruct t).
    assert (Hpat : matchFilterPattern (inputValue typed) = Some (t, ""))
      by (rewrite Hin; by destruct t).
    destruct (handleInput_fields typed) as (-> & _ & _ & -> & -> & _).
    destruct (hint_sets_command_mode typed) as [-> _].
    destruct (suggestions_plain typed t "" Hslash Hpat) as [-> ->].
    pose proof (durable_handleInput typed) as Hd.
    apply durable_fields in Hd as (_ & -> & _).
    rewrite Hall. cbn [trim]. change (trim "") with "".
    rewrite narrowTo_empty. by rewrite Hslash. }
  destruct (startsWith "kind:" (toLowerCase (inputValue st)));
    [apply (Hdone FKind)|].
  destruct (startsWith "namespace:" (toLowerCase (inputValue st)));
    [apply (Hdone FNamespace)|].
  destruct (startsWith "node:" (toLowerCase (inputValue st)));
    [apply (Hdone FNode)|reflexivity].
Qed.

End Typing.

Lemma tab_completes_filter_name_witness :
  let st := debounceFired (typed "N") in
  let st' := handleKeyDown declining Tab st in
  isCommandMode st = false /\ autocompleteSuggestions st = []
  /\ inputValue st' = "namespace:"
  /\ autocompleteFilterType st' = Some FNamespace
  /\ autocompleteSuggestions st' = ["ns1"; "ns2"].
Proof.
  intros st st'.
  pose proof (tab_completes_filter_name declining st eq_refl eq_refl) as H.
  destruct H as (Hinput & _ & Htype & Hsuggestions).
  split; [reflexivity|]. split; [reflexivity|].
  split; [exact Hinput|]. split; [exact Htype|exact Hsuggestions].
Defined.

(** ** The command list *)

Section CommandList.

Variable env : Env.

(** A command matches a term: its label or its description holds the
    term, case of the command ignored. *)
Let holds (cmd : Command) (term : string) : Prop :=
  Substring term (toLowerCase (label cmd))
  \/ Substring term (toLowerCase (description cmd)).

(** X16.  A query has words, the runs between its white space.  The
    commands listed for the query are the commands whose label or
    description, in lower case, holds every word of the query; a query
    without a word lists every command.  The commands are listed in the
    order of the available commands. *)
Theorem commands_listed (query : string) (commands : list Command) :
  (exists ws, Words query ws)
  /\ (forall ws,
        Words query ws ->
        (forall cmd,
           In cmd (filterCommands query commands)
           <-> In cmd commands /\ Forall (holds cmd) ws)
        /\ (ws = [] -> filterCommands query commands = commands))
  /\ sublist (filterCommands query commands) commands.
Proof.
  split; [exists (searchTermsOf query); apply searchTermsOf_Words|].
  split.
  - intros ws Hws. apply Words_searchTermsOf in Hws.
    unfold filterCommands. rewrite Hws. split.
    + intros cmd. rewrite filter_In, forallb_forall, List.Forall_forall.
      apply and_iff_compat_l. unfold holds.
      split; intros H term Hin; specialize (H term Hin);
        rewrite orb_true_iff, !includes_spec in *; exact H.
    + intros ->. induction commands as [|cmd commands IH]; [reflexivity|].
      cbn in *. by rewrite IH.
  - unfold filterCommands.
    induction commands as [|cmd commands IH]; [constructor|].
    cbn [List.filter]. case_match; by constructor.
Qed.

(** The block for the command list handles the key. *)
Lemma key_in_command_list (key : Key) (st : Palette) :
  isCommandMode st = true -> autocompleteSuggestions st = [] ->
  commandSearchQuery st = "" -> key <> OtherKey ->
  Some (handleKeyDown env key st) = keyInCommandList env key st.
Proof.
  intros Hmode Hsugg Hquery Hother.
  unfold handleKeyDown, suggestionsShown, hasSearchText, isEmpty.
  rewrite Hmode, Hsugg, Hquery. cbn [length Nat.ltb Nat.leb andb String.eqb negb].
  rewrite !andb_false_r. by destruct key.
Qed.

(** X17.  Down in the command list is bounded by the number of available
    commands, not by the number of commands listed.  When fewer commands
    are listed than are available, Down moves the selection past the end
    of the list; the list is drawn without a highlighted command, and
    Enter does nothing. *)
Theorem command_selection_leaves_the_list (st : Palette) :
  isCommandMode st = true -> autocompleteSuggestions st = [] ->
  commandSearchQuery st = "" ->
  let shown := filterCommands (commandQuery st) (availableCommands st) in
  (Z.of_nat (length shown) <= selectedCommandIndex st + 1
   < Z.of_nat (length (availableCommands st)))%Z ->
  let down := handleKeyDown env ArrowDown st in
  selectedCommandIndex down = (selectedCommandIndex st + 1)%Z
  /\ view down = match shown with
                 | [] => VEmpty "No commands found"
                 | _ => VCommands shown (selectedCommandIndex st + 1)
                 end
  /\ item shown (selectedCommandIndex down) = None
  /\ handleKeyDown env Enter down = down.
Proof.
  intros Hmode Hsugg Hquery shown Hpast. cbv zeta.
  assert (Hdown : handleKeyDown env ArrowDown st
                  = renderCommandList
                      (set_selectedCommandIndex
                         (stepDown (selectedCommandIndex st)
                                   (length (availableCommands st))) st)).
  { assert (Some (handleKeyDown env ArrowDown st)
            = keyInCommandList env ArrowDown st) as H
      by (by apply key_in_command_list).
    cbn in H. by injection H. }
  assert (Hmoved : stepDown (selectedCommandIndex st)
                            (length (availableCommands st))
                   = (selectedCommandIndex st + 1)%Z)
    by (unfold stepDown; lia).
  rewrite Hmoved in Hdown. rewrite Hdown.
  set (moved := set_selectedCommandIndex (selectedCommandIndex st + 1) st).
  assert (Hsame : filterCommands (commandQuery moved) (availableCommands moved)
                  = shown) by (subst moved shown; by destruct st).
  assert (Hindex : selectedCommandIndex moved = (selectedCommandIndex st + 1)%Z)
    by (subst moved; by destruct st).
  assert (Hnone : item shown (selectedCommandIndex st + 1) = None).
  { unfold item. destruct (Z.ltb_spec (selectedCommandIndex st + 1) 0); [done|].
    apply lookup_ge_None. lia. }
  assert (Hdrawn : renderCommandList moved
                   = set_view match shown with
                              | [] => VEmpty "No commands found"
                              | _ => VCommands shown (selectedCommandIndex st + 1)
                              end moved).
  { unfold renderCommandList. rewrite Hsame, Hindex. by destruct shown. }
  rewrite Hdrawn.
  set (drawn := set_view _ moved).
  assert (Hfields : isCommandMode drawn = true /\ autocompleteSuggestions drawn = []
                    /\ commandSearchQuery drawn = ""
                    /\ selectedCommandIndex drawn = (selectedCommandIndex st + 1)%Z
                    /\ filterCommands (commandQuery drawn) (availableCommands drawn)
                       = shown)
    by (subst drawn moved shown; destruct st; cbn in *; done).
  destruct Hfields as (Hm & Hs & Hq & Hi & Hf).
  split; [exact Hi|]. split; [subst drawn moved; by destruct st|].
  rewrite Hi. split; [exact Hnone|].
  assert (Some (handleKeyDown env Enter drawn) = keyInCommandList env Enter drawn)
    as H by (by apply key_in_command_list).
  cbn [keyInCommandList] in H. unfold executeCommand in H.
  rewrite Hf, Hi, Hnone in H. by injection H.
Qed.

(** X18.  Enter on a suggestion while a command is being typed.  When
    the suggested filter is new, [addFilter] clears the input before the
    command word is read back from it: the filter is added, and the
    command is lost, the palette is outside command mode with an empty
    input.  Only when the filter was there already, so that [addFilter]
    leaves the input alone, is the input set back to the command word
    followed by a space. *)
Theorem suggestion_leaves_command_mode (type : FilterType) (suggestion : string)
    (st : Palette) :
  isCommandMode st = true ->
  chosenSuggestion st = Some (type, suggestion) ->
  let chosen := {| ftype := type; fvalue := suggestion |} in
  let st' := handleKeyDown env Enter st in
  (~ In chosen (activeFilters st) ->
   activeFilters st' = activeFilters st ++ [chosen]
   /\ inputValue st' = "" /\ isCommandMode st' = false
   /\ activeCommand st' = None /\ commandSearchQuery st' = ""
   /\ autocompleteSuggestions st' = [])
  /\ (In chosen (activeFilters st) ->
      forall word, matchCommandWord (inputValue st) = Some word ->
      activeFilters st' = activeFilters st
      /\ inputValue st' = "/" +:+ word +:+ " ").
Proof.
  intros Hmode Hchosen. cbv zeta.
  assert (Hblock : handleKeyDown env Enter st
                   = match matchCommandWord
                             (inputValue (addFilter type suggestion st)) with
                     | Some word =>
                         handleInput
                           (resetAutocomplete
                              (set_commandSearchQuery ""
                                 (set_inputValue ("/" +:+ word +:+ " ")
                                    (addFilter type suggestion st))))
                     | None => addFilter type suggestion st
                     end).
  { unfold handleKeyDown, suggestionsShown. rewrite Hmode.
    pose proof Hchosen as Hc. unfold chosenSuggestion, item in Hc.
    destruct (0 <=? autocompleteSelectedIndex st)%Z; [|discriminate].
    destruct (autocompleteFilterType st) as [t|]; [|discriminate].
    destruct (autocompleteSelectedIndex st <? 0)%Z; [discriminate|].
    destruct (autocompleteSuggestions st) as [|s l] eqn:Hl;
      [by rewrite lookup_nil in Hc|].
    rewrite bool_decide_eq_true_2 by (by eexists).
    cbn [length Nat.ltb Nat.leb andb keyInCommandSuggestions].
    rewrite Hchosen. by destruct (matchCommandWord _). }
  rewrite Hblock. split.
  - intros Hnew.
    destruct (addFilter_new_state type suggestion st Hnew)
      as (Hin & Hm & _ & Hc & Hq & Hs & _).
    rewrite Hin. cbn [matchCommandWord].
    by rewrite (addFilter_absent type suggestion st Hnew).
  - intros Hold word Hword.
    rewrite (addFilter_present type suggestion st Hold), Hword.
    match goal with |- context [handleInput ?s] =>
      pose proof (durable_handleInput s) as Hd end.
    apply durable_fields in Hd as (_ & -> & _ & -> & _).
    by destruct st.
Qed.

(** X19.  [close] does not leave command mode, and [open] does not
    either: a palette closed in command mode, as it is after a command has
    run, is in command mode when it is opened again, over an empty input,
    both outside a cluster and while the request to a cluster frame is
    pending.  The first Escape then does not close it, and Enter runs the
    command under the command selection, which was kept as well. *)
Theorem reopened_palette_keeps_command_mode (navigationCommands : list Command)
    (requestId : string) (st : Palette) :
  isCommandMode st = true ->
  (activeIframeSource st = None -> currentClusterId st = None) ->
  let reopened := toggle navigationCommands requestId (close st) in
  isOpen reopened = true /\ inputValue reopened = ""
  /\ isCommandMode reopened = true
  /\ selectedCommandIndex reopened = selectedCommandIndex st
  /\ isOpen (handleKeyDown env Escape reopened) = true
  /\ (autocompleteSuggestions st = [] -> commandSearchQuery st = "" ->
      handleKeyDown env Enter reopened
      = executeCommand env (selectedCommandIndex st) reopened).
Proof.
  intros Hmode Hcluster. cbv zeta.
  set (reopened := toggle navigationCommands requestId (close st)).
  assert (Hfields : isOpen reopened = true /\ inputValue reopened = ""
                    /\ isCommandMode reopened = true
                    /\ selectedCommandIndex reopened = selectedCommandIndex st
                    /\ autocompleteSuggestions reopened = autocompleteSuggestions st
                    /\ commandSearchQuery reopened = commandSearchQuery st).
  { subst reopened. unfold toggle, close, open, initializeCommands.
    destruct st; cbn in *. subst.
    destruct activeIframeSource0 as [iframe|].
    - unfold loadResources, clusterIdOf, loadResourcesViaIPC, requestFrom,
        renderResults; cbn.
      repeat case_match; cbn; done.
    - rewrite Hcluster by reflexivity. unfold renderResults; cbn. done. }
  destruct Hfields as (Hopen & Hinput & Hm & Hindex & Hs & Hq).
  repeat split; try assumption.
  - destruct (escape_in_command_mode env reopened Hm) as (st0 & -> & _ & Ho & _).
    pose proof (durable_handleInput st0) as Hd.
    apply durable_fields in Hd as (-> & _). congruence.
  - intros Hsugg Hquery. rewrite Hsugg in Hs. rewrite Hquery in Hq.
    assert (Some (handleKeyDown env Enter reopened)
            = keyInCommandList env Enter reopened) as H
      by (by apply key_in_command_list).
    cbn in H. rewrite Hindex in H. by injection H.
Qed.

End CommandList.

Lemma command_selection_leaves_the_list_witness :
  let st := typed "/ref" in
  let down := handleKeyDown declining ArrowDown st in
  isCommandMode st = true /\ autocompleteSuggestions st = []
  /\ commandSearchQuery st = ""
  /\ filterCommands (commandQuery st) (availableCommands st) = [refreshCommand]
  /\ length (availableCommands st) = 4
  /\ view down = VCommands [refreshCommand] 1
  /\ handleKeyDown declining Enter down = down.
Proof.
  intros st down.
  assert (Hpast : (Z.of_nat (length (filterCommands (commandQuery st)
                                                    (availableCommands st)))
                   <= selectedCommandIndex st + 1
                   < Z.of_nat (length (availableCommands st)))%Z)
    by (vm_compute; split; [discriminate|reflexivity]).
  destruct (command_selection_leaves_the_list declining st eq_refl eq_refl
              eq_refl Hpast) as (_ & Hview & _ & Henter).
  split; [reflexivity|]. split; [reflexivity|]. split; [reflexivity|].
  split; [reflexivity|]. split; [reflexivity|].
  split; [exact Hview|exact Henter].
Defined.

Lemma suggestion_leaves_command_mode_witness :
  let st := typed "/logs kind:" in
  let st' := handleKeyDown declining Enter st in
  isCommandMode st = true
  /\ activeCommand st = Some logsCommand
  /\ chosenSuggestion st = Some (FKind, "Pod")
  /\ ~ In {| ftype := FKind; fvalue := "Pod" |} (activeFilters st)
  /\ activeFilters st' = [{| ftype := FKind; fvalue := "Pod" |}]
  /\ inputValue st' = "" /\ isCommandMode st' = false
  /\ activeCommand st' = None.
Proof.
  intros st st'.
  assert (Hnew : ~ In {| ftype := FKind; fvalue := "Pod" |} (activeFilters st))
    by (intros []).
  destruct (suggestion_leaves_command_mode declining FKind "Pod" st
              eq_refl eq_refl) as [Hlost _].
  destruct (Hlost Hnew) as (Hfilters & Hinput & Hmode & Hcommand & _).
  split; [reflexivity|]. split; [reflexivity|]. split; [reflexivity|].
  split; [exact Hnew|]. split; [exact Hfilters|].
  split; [exact Hinput|]. split; [exact Hmode|exact Hcommand].
Defined.

Lemma reopened_palette_keeps_command_mode_witness :
  let st := typed "/refresh" in
  let reopened := toggle [] "r1" (close st) in
  isCommandMode st = true
  /\ (activeIframeSource st = None -> currentClusterId st = None)
  /\ inputValue reopened = ""
  /\ isCommandMode reopened = true
  /\ isOpen (handleKeyDown declining Escape reopened) = true
  /\ alerts (handleKeyDown declining Enter reopened) = [selectFirst].
Proof.
  intros st reopened.
  assert (Hglobal : activeIframeSource st = None -> currentClusterId st = None)
    by reflexivity.
  destruct (reopened_palette_keeps_command_mode declining [] "r1" st
              eq_refl Hglobal)
    as (_ & Hinput & Hmode & _ & Hescape & Henter).
  split; [reflexivity|]. split; [exact Hglobal|]. split; [exact Hinput|].
  split; [exact Hmode|]. split; [exact Hescape|].
  fold st reopened in Henter. rewrite (Henter eq_refl eq_refl). reflexivity.
Defined.

(** ** What a search lists *)

Section Listed.

Lemma rank_sound (query : string) (resources : list KubeResource)
    (res : SearchResult) :
  In res (rank query resources) ->
  In (resource res) resources
  /\ displayText res = getDisplayText (resource res)
  /\ (0 < matchScore res)%Q.
Proof.
  unfold rank. destruct (isEmpty query).
  - intros Hin. apply in_map_iff in Hin as (r & <- & Hin).
    split; [|by split].
    rewrite <- (take_drop 50 resources). apply in_or_app. by left.
  - intros Hin.
    assert (Hm : In res (matching (searchTermsOf (toLowerCase query)) resources)).
    { apply (Permutation_in _ (sortByScore_permutation _)).
      rewrite <- (take_drop 50 (sortByScore _)). apply in_or_app. by left. }
    unfold matching in Hm. apply filter_In in Hm as [Hm Hpos].
    apply in_map_iff in Hm as (r & <- & Hr).
    split; [exact Hr|]. split; [reflexivity|]. by apply Qlt_bool_iff.
Qed.

Lemma rank_length (query : string) (resources : list KubeResource) :
  length (rank query resources) <= 50.
Proof.
  unfold rank. destruct (isEmpty query).
  - rewrite length_map, length_take. lia.
  - rewrite length_take. lia.
Qed.

(** X20.  What a search leaves, whatever the query and the filters: at
    most 50 results, with the selection on the first; every result is a
    resource of the palette that satisfies every active filter, shown
    under its display text, with a positive score; and what is drawn is
    this list, or the empty text when the list is empty. *)
Theorem listed_results_are_sound (st : Palette) :
  isCommandMode st = false ->
  let st' := performSearch st in
  length (results st') <= 50
  /\ selectedIndex st' = 0%Z
  /\ (forall res,
        In res (results st') ->
        In (resource res) (allResources st)
        /\ Forall (satisfies (resource res)) (activeFilters st)
        /\ displayText res = getDisplayText (resource res)
        /\ (0 < matchScore res)%Q)
  /\ view st' = match results st' with
                | [] => VEmpty (match allResources st with
                                | [] => "Loading resources..."
                                | _ => "No resources found"
                                end)
                | listed => VResults listed 0
                end.
Proof.
  intros Hmode. cbv zeta. unfold performSearch. rewrite Hmode.
  set (found := rank (inputValue st)
                     (applyActiveFilters (activeFilters st) (allResources st))).
  assert (Hresults : results (renderResults
                                (set_selectedIndex 0 (set_results found st)))
                     = found).
  { unfold renderResults. destruct st; cbn. by destruct found. }
  rewrite Hresults. split; [apply rank_length|].
  split; [unfold renderResults; destruct st; cbn; by destruct found|].
  split.
  - intros res Hin. apply rank_sound in Hin as (Hin & Htext & Hpos).
    rewrite applyActiveFilters_filter in Hin.
    apply filter_In in Hin as [Hin Hpass]. apply passesAll_spec in Hpass.
    by repeat split.
  - unfold renderResults. destruct st; cbn. by destruct found.
Qed.

End Listed.

Lemma listed_results_are_sound_witness :
  let st := addFilter FKind "Pod" (typed "") in
  isCommandMode st = false
  /\ map displayText (results (performSearch st)) = ["Pod/ns1/a"; "Pod/ns2/b"]
  /\ length (results (performSearch st)) <= 50
  /\ forall res,
       In res (results (performSearch st)) ->
       Forall (satisfies (resource res)) [{| ftype := FKind; fvalue := "Pod" |}].
Proof.
  intros st.
  destruct (listed_results_are_sound st eq_refl) as (Hlength & _ & Hsound & _).
  split; [reflexivity|]. split; [reflexivity|]. split; [exact Hlength|].
  intros res Hin. by destruct (Hsound res Hin) as (_ & Hfilters & _).
Defined.

(** ** The link of a resource *)

Section SelfLink.

Import Navigation.

Let noSlash (c : ascii) : bool := negb (Ascii.eqb c "/").

Lemma includes_char (c : ascii) (s : string) :
  includes s (String c "") = negb (allChars (fun x => negb (Ascii.eqb x c)) s).
Proof.
  induction s as [|x s IH]; [reflexivity|].
  cbn [includes startsWith allChars]. rewrite IH.
  destruct (ascii_dec x c) as [->|Hne].
  - rewrite Ascii.eqb_refl. reflexivity.
  - apply Ascii.eqb_neq in Hne. rewrite Hne. reflexivity.
Qed.

(** The first piece of a split is what precedes the first separator. *)
Lemma splitOn_head (sep : ascii) (s : string) :
  exists rest,
    splitOn sep s = takeWhile (fun x => negb (Ascii.eqb x sep)) s :: rest.
Proof.
  induction s as [|x s [rest IH]]; cbn; [by eexists|].
  destruct (Ascii.eqb x sep); cbn; [by eexists|].
  rewrite IH. by eexists.
Qed.

Lemma allChars_app (p : ascii -> bool) (a b : string) :
  allChars p (a +:+ b) = allChars p a && allChars p b.
Proof.
  induction a as [|x a IH]; [by rewrite append_empty_l|].
  rewrite append_cons. cbn. rewrite IH. apply andb_assoc.
Qed.

Lemma groupAndVersion_split (group rest : string) :
  allChars noSlash group = true ->
  groupAndVersion (group +:+ "/" +:+ rest) = (group, takeWhile noSlash rest).
Proof.
  intros Hg. unfold groupAndVersion.
  rewrite includes_char, allChars_app. cbn [allChars Ascii.eqb Bool.eqb negb].
  rewrite andb_false_r. cbn [negb].
  change ("/" +:+ rest) with (String "/" rest).
  rewrite (splitOn_piece "/" group rest Hg).
  destruct (splitOn_head "/" rest) as [more ->]. reflexivity.
Qed.

Lemma rev_app_append (a b c : string) :
  String.rev_app (a +:+ b) c = String.rev_app b (String.rev_app a c).
Proof.
  revert c. induction a as [|x a IH]; intros c.
  - by rewrite append_empty_l.
  - rewrite append_cons. cbn. apply IH.
Qed.

Lemma endsWith_append (a b : string) : endsWith (a +:+ b) b = true.
Proof.
  unfold endsWith, String.rev. rewrite rev_app_append.
  remember (String.rev_app a "") as tail. clear.
  assert (H : forall b back : string,
             String.rev_app b back = String.rev_app b "" +:+ back).
  { clear. induction b as [|x b IH]; intros back; cbn.
    - by rewrite append_empty_l.
    - rewrite (IH (String x back)), (IH (String x "")).
      rewrite append_assoc, append_cons, append_empty_l. reflexivity. }
  rewrite (H b tail). apply startsWith_spec. by exists tail.
Qed.

(** X21.  The link built for a resource.  An API version without a slash
    is the version of the core group: the link starts with [/api/] and
    that version.  Otherwise the text before the first slash is the group
    and the text between the first and the second slash the version,
    whatever follows a second slash is dropped; an empty group gives the
    core form again.  The plural of the kind is in lower case and always
    ends in [s]. *)
Theorem selfLink_shape (r : KubeResource) :
  (allChars noSlash (apiVersion r) = true ->
   constructSelfLink r = "/api/" +:+ apiVersion r +:+ pathIn r)
  /\ (forall group rest,
        apiVersion r = group +:+ "/" +:+ rest ->
        allChars noSlash group = true ->
        constructSelfLink r
        = (if String.eqb group "" then "/api/" else "/apis/" +:+ group +:+ "/")
          +:+ takeWhile noSlash rest +:+ pathIn r)
  /\ endsWith (pluralize (kind r)) "s" = true.
Proof.
  split; [|split].
  - intros Hcore. unfold constructSelfLink, groupAndVersion, pathIn.
    rewrite includes_char. fold noSlash. rewrite Hcore. cbn [negb String.eqb].
    destruct (namespace r) as [ns|]; [destruct (String.eqb ns "")|];
      by rewrite !append_assoc.
  - intros group rest Hsplit Hgroup.
    unfold constructSelfLink, pathIn. rewrite Hsplit.
    rewrite (groupAndVersion_split group rest Hgroup).
    destruct (String.eqb group "");
      (destruct (namespace r) as [ns|]; [destruct (String.eqb ns "")|]);
      by rewrite !append_assoc.
  - assert (Hsuffix : forall a b c, endsWith (a +:+ (b +:+ c)) c = true)
      by (intros a b c; rewrite <- append_assoc; apply endsWith_append).
    unfold pluralize. set (lower := toLowerCase (kind r)).
    destruct (String.eqb lower "endpoints"); [reflexivity|].
    destruct (String.eqb lower "ingress"); [reflexivity|].
    destruct (endsWith lower "class"); [apply (Hsuffix _ "e" "s")|].
    destruct (endsWith lower "policy"); [apply (Hsuffix _ "ie" "s")|].
    destruct (endsWith lower "s"); [apply (Hsuffix _ "e" "s")|].
    destruct (endsWith lower "y"); [apply (Hsuffix _ "ie" "s")|].
    apply endsWith_append.
Qed.

End SelfLink.

Lemma selfLink_shape_witness :
  let policy :=
    {| kind := "NetworkPolicy"; name := "deny-all"; namespace := Some "prod";
       uid := "u9"; apiVersion := "networking.k8s.io/v1/extra" |} in
  apiVersion policy = "networking.k8s.io" +:+ "/" +:+ "v1/extra"
  /\ allChars (fun c => negb (Ascii.eqb c "/")) "networking.k8s.io" = true
  /\ Navigation.constructSelfLink policy
     = "/apis/networking.k8s.io/v1/namespaces/prod/networkpolicies/deny-all".
Proof.
  intros policy.
  destruct (selfLink_shape policy) as (_ & Hgroup & _).
  split; [reflexivity|]. split; [reflexivity|].
  exact (Hgroup "networking.k8s.io" "v1/extra" eq_refl eq_refl).
Defined.

(** ** Responses and the requests they belong to *)

Section Responses.

Import Channel.

Lemma responseType_injective (k k' : RequestKind) :
  String.eqb (responseType k) (responseType k') = true -> k = k'.
Proof. by destruct k, k'. Qed.

(** X22.  A response belongs to the requests of its kind and its id, and
    to no other.  A message that carries the response type of kind [k]
    and the id [requestId] leaves every request of another kind or
    another id exactly as it was, and every request that no longer
    listens; it settles every waiting request of that kind and id, also
    when several carry the same id.  It posts nothing and the clock does
    not move. *)
Theorem response_settles_only_its_requests (k : RequestKind) (requestId : string)
    (error : option string) (resources : option (list KubeResource)) (w : Window) :
  let data :=
    {| msgType := responseType k; msgRequestId := Some requestId;
       msgError := error; msgResources := resources; msgClusterId := None |} in
  let w' := step (Message (Some data)) w in
  length (requests w') = length (requests w)
  /\ posted w' = posted w /\ clock w' = clock w
  /\ forall i r,
       requests w !! i = Some r ->
       (rkind r <> k \/ Channel.requestId r <> requestId \/ listening r = false ->
        requests w' !! i = Some r)
       /\ (rkind r = k -> Channel.requestId r = requestId -> waiting r ->
           exists r',
             requests w' !! i = Some r' /\ finished r'
             /\ promise r'
                = (if truthy error then Rejected (default "" error)
                   else Resolved (resolvedValue k resources))).
Proof.
  cbv zeta. cbn [step dispatchMessage requests posted clock].
  split; [by rewrite length_map|]. split; [reflexivity|]. split; [reflexivity|].
  intros i r Hr. rewrite list_lookup_fmap, Hr. cbn [fmap option_fmap option_map].
  split.
  - intros Hother. f_equal.
    destruct (listening r) eqn:Hl; [|reflexivity].
    unfold messageHandler, matches. cbn [msgType msgRequestId].
    destruct (String.eqb (responseType k) (responseType (rkind r))) eqn:Hk;
      [|reflexivity].
    apply responseType_injective in Hk.
    rewrite bool_decide_eq_false_2; [reflexivity|].
    intros [= Hid]. destruct Hother as [H|[H|H]]; congruence.
  - intros Hk Hid Hwait. eexists. split; [reflexivity|].
    destruct Hwait as (Hp & Hl & Ht & Hc). rewrite Hl.
    unfold messageHandler, matches. cbn [msgType msgRequestId msgError msgResources].
    rewrite Hk, Hid, String.eqb_refl, bool_decide_eq_true_2 by reflexivity.
    cbn [andb].
    assert (Hw : waiting r) by done.
    destruct (truthy error).
    + destruct (cleanup_settle_finished (Rejected (default "" error)) r Hw)
        as (Hpr & Hfin & _); [discriminate|]. by split.
    + destruct (cleanup_settle_finished (Resolved (resolvedValue k resources)) r Hw)
        as (Hpr & Hfin & _); [discriminate|]. by split.
Qed.

End Responses.

Lemma response_settles_only_its_requests_witness :
  let w := Channel.request Channel.DeleteResource "r1" 7 (Some podA)
             (Channel.request Channel.GetResources "r1" 7 None
                Channel.emptyWindow) in
  let data :=
    {| Channel.msgType := "k-menu-delete-response";
       Channel.msgRequestId := Some "r1"; Channel.msgError := None;
       Channel.msgResources := None; Channel.msgClusterId := None |} in
  let w' := Channel.step (Channel.Message (Some data)) w in
  Channel.requests w !! 0 = Some (Channel.newRequest Channel.GetResources "r1" 0)
  /\ Channel.requests w' !! 0
     = Some (Channel.newRequest Channel.GetResources "r1" 0)
  /\ map Channel.promise (Channel.requests w')
     = [Channel.Pending; Channel.Resolved []].
Proof.
  intros w data w'.
  destruct (response_settles_only_its_requests Channel.DeleteResource "r1"
              None None w) as (_ & _ & _ & Heach).
  destruct (Heach 0 _ eq_refl) as [Hkept _].
  split; [reflexivity|].
  split; [apply Hkept; left; discriminate|reflexivity].
Defined.

(** ** From typing to the list *)

Section Debounce.

Lemma results_renderResults (st : Palette) :
  results (renderResults st) = results st
  /\ selectedIndex (renderResults st) = selectedIndex st
  /\ isCommandMode (renderResults st) = isCommandMode st.
Proof. unfold renderResults. destruct st; cbn. by case_match. Qed.

(** X23.  What the list holds once the debounce timer of an input event
    has fired.  For an input that does not start with a slash it is the
    ranking of that input over the resources that pass the active filters,
    with the selection on the first result.  For an input that starts with
    a slash the search does not run: the results, the selection and what
    is drawn are what the input event itself left.  Either way no timer is
    pending afterwards. *)
Theorem search_follows_typing (st : Palette) :
  let typed := handleInput st in
  let st' := debounceFired typed in
  searchDebounceTimer st' = None
  /\ inputValue st' = inputValue st
  /\ (startsWith (inputValue st) "/" = false ->
      results st'
      = rank (inputValue st)
             (applyActiveFilters (activeFilters st) (allResources st))
      /\ selectedIndex st' = 0%Z
      /\ isCommandMode st' = false)
  /\ (startsWith (inputValue st) "/" = true ->
      results st' = results typed /\ selectedIndex st' = selectedIndex typed
      /\ view st' = view typed /\ isCommandMode st' = true).
Proof.
  cbv zeta. unfold debounceFired.
  set (typed := handleInput st).
  assert (Hmode : isCommandMode typed = startsWith (inputValue st) "/").
  { subst typed. destruct (handleInput_fields st) as (-> & _).
    apply hint_sets_command_mode. }
  pose proof (durable_handleInput st) as Hd. fold typed in Hd.
  apply durable_fields in Hd as (_ & Hin & Hall & Hfil & _).
  split; [by destruct (performSearch typed)|].
  split.
  { pose proof (durable_performSearch typed) as Hd.
    apply durable_fields in Hd as (_ & Hin' & _).
    rewrite <- Hin, <- Hin'. by destruct (performSearch typed). }
  split; intros Hslash; rewrite Hslash in Hmode.
  - unfold performSearch. rewrite Hmode, Hin, Hall, Hfil.
    match goal with |- context [renderResults ?s] =>
      destruct (results_renderResults s) as (Hr & Hs & Hm);
      set (searched := renderResults s) in * end.
    replace (results (set_searchDebounceTimer None searched))
      with (results searched) by (by destruct searched).
    replace (selectedIndex (set_searchDebounceTimer None searched))
      with (selectedIndex searched) by (by destruct searched).
    replace (isCommandMode (set_searchDebounceTimer None searched))
      with (isCommandMode searched) by (by destruct searched).
    rewrite Hr, Hs, Hm. destruct typed; cbn in *. by subst.
  - unfold performSearch. rewrite Hmode. by destruct typed.
Qed.

(** X24.  Outside a cluster the palette always reads that resources are
    loading.  Opened without a frame and without a cluster id, it holds no
    resources, asks nobody for any, and draws the empty list with the text
    for resources that are loading; every search for a text that does not
    start with a slash draws that text again. *)
Theorem global_mode_reads_loading (navigationCommands : list Command)
    (requestId : string) (st : Palette) :
  activeIframeSource st = None -> currentClusterId st = None ->
  isOpen st = false -> results st = [] ->
  let opened := toggle navigationCommands requestId st in
  isOpen opened = true /\ allResources opened = []
  /\ view opened = VEmpty "Loading resources..."
  /\ window opened = window st /\ loadingShown opened = loadingShown st
  /\ forall text,
       startsWith text "/" = false ->
       let searched := debounceFired (handleInput (set_inputValue text opened)) in
       results searched = []
       /\ view searched = VEmpty "Loading resources...".
Proof.
  intros Hframe Hcluster Hclosed Hresults. cbv zeta.
  set (opened := toggle navigationCommands requestId st).
  assert (Hfields : isOpen opened = true /\ allResources opened = []
                    /\ view opened = VEmpty "Loading resources..."
                    /\ window opened = window st
                    /\ loadingShown opened = loadingShown st).
  { subst opened. unfold toggle, open, initializeCommands, renderResults.
    destruct st; cbn in *. by subst. }
  destruct Hfields as (Hopen & Hall & Hview & Hwin & Hload).
  repeat split; try assumption.
  - set (typed := handleInput (set_inputValue text opened)).
    unfold debounceFired.
    assert (Hmode : isCommandMode typed = false).
    { subst typed. destruct (handleInput_fields (set_inputValue text opened))
        as (-> & _).
      destruct (hint_sets_command_mode (set_inputValue text opened)) as [-> _].
      by destruct opened. }
    assert (Hnone : allResources typed = []).
    { subst typed. pose proof (durable_handleInput (set_inputValue text opened)) as Hd.
      apply durable_fields in Hd as (_ & _ & -> & _). by destruct opened. }
    destruct (search_without_resources typed Hmode Hnone) as [Hr _].
    by destruct (performSearch typed).
  - set (typed := handleInput (set_inputValue text opened)).
    unfold debounceFired.
    assert (Hmode : isCommandMode typed = false).
    { subst typed. destruct (handleInput_fields (set_inputValue text opened))
        as (-> & _).
      destruct (hint_sets_command_mode (set_inputValue text opened)) as [-> _].
      by destruct opened. }
    assert (Hnone : allResources typed = []).
    { subst typed. pose proof (durable_handleInput (set_inputValue text opened)) as Hd.
      apply durable_fields in Hd as (_ & _ & -> & _). by destruct opened. }
    destruct (search_without_resources typed Hmode Hnone) as [_ Hv].
    by destruct (performSearch typed).
Qed.

End Debounce.

Lemma search_follows_typing_witness :
  let st := set_inputValue "a" (set_allResources sample opened) in
  let st' := debounceFired (handleInput st) in
  startsWith (inputValue st) "/" = false
  /\ map displayText (results st') = ["Pod/ns1/a"; "Service/ns1/a"]
  /\ results st' = rank "a" sample
  /\ selectedIndex st' = 0%Z.
Proof.
  intros st st'.
  destruct (search_follows_typing st) as (_ & _ & Hplain & _).
  destruct (Hplain eq_refl) as (Hresults & Hselected & _).
  split; [reflexivity|]. split; [reflexivity|].
  split; [exact Hresults|exact Hselected].
Defined.

Lemma global_mode_reads_loading_witness :
  let st := toggle [] "r1" initial in
  activeIframeSource initial = None /\ currentClusterId initial = None
  /\ isOpen initial = false /\ results initial = []
  /\ view st = VEmpty "Loading resources..."
  /\ view (debounceFired (handleInput (set_inputValue "pod" st)))
     = VEmpty "Loading resources...".
Proof.
  intros st.
  destruct (global_mode_reads_loading [] "r1" initial eq_refl eq_refl eq_refl
              eq_refl) as (_ & _ & Hview & _ & _ & Hsearch).
  destruct (Hsearch "pod" eq_refl) as [_ Hagain].
  do 4 (split; [reflexivity|]). split; [exact Hview|exact Hagain].
Defined.

(** ** Switching clusters *)

Section SwitchCluster.

Variable env : Env.

(** X25.  A command that switches to a cluster.  Chosen from the command
    list it is called without a resource and the palette closes.  It asks
    the navigation service for the cluster unless the id read from the
    host name of the window is the id of that cluster: it is skipped
    exactly when the cluster id is a non-empty run of [0] to [9] and [a]
    to [f] and the host name is that id followed by
    [.renderer.freelens.app].  It sends no message. *)
Theorem cluster_command_switches (hostname clusterId clusterName : string)
    (index : Z) (st : Palette) :
  hostCluster env = getClusterIdFromHostname hostname ->
  item (filterCommands (commandQuery st) (availableCommands st)) index
  = Some (clusterCommand clusterId clusterName) ->
  let st' := executeCommand env index st in
  let there :=
    clusterId <> "" /\ allChars Shortcut.isHexDigit clusterId = true
    /\ hostname = clusterId +:+ ".renderer.freelens.app" in
  isOpen st' = false
  /\ invoked st' = invoked st ++ [(clusterCommand clusterId clusterName, None)]
  /\ window st' = window st /\ alerts st' = alerts st
  /\ (there -> hostCalls st' = hostCalls st)
  /\ (~ there -> hostCalls st' = hostCalls st ++ [NavigateToCluster clusterId]).
Proof.
  intros Hhost Hitem. cbv zeta. unfold executeCommand. rewrite Hitem.
  cbn [requiresResource clusterCommand].
  unfold invoke. cbn [execute clusterCommand runEffect].
  rewrite Hhost. unfold getClusterIdFromHostname.
  destruct (bool_decide_reflect
              (Shortcut.matchClusterHost hostname = Some clusterId)) as [Hthere|Hnot].
  - destruct st; cbn. repeat split; try reflexivity.
    intros Hno. exfalso. by apply Hno, matchClusterHost_some.
  - destruct st; cbn. repeat split; try reflexivity.
    intros (Hne & Hall & ->). exfalso. by apply Hnot, matchClusterHost_host.
Qed.

End SwitchCluster.

Lemma cluster_command_switches_witness :
  let env := {| confirmed := false; freshId := "r1";
                hostCluster := getClusterIdFromHostname "localhost" |} in
  let st := handleInput
              (set_inputValue "/cluster"
                 (set_isOpen true
                    (initializeCommands [clusterCommand "c0ffee" "staging"]
                                        initial))) in
  hostCluster env = getClusterIdFromHostname "localhost"
  /\ item (filterCommands (commandQuery st) (availableCommands st)) 0
     = Some (clusterCommand "c0ffee" "staging")
  /\ isOpen (executeCommand env 0 st) = false
  /\ hostCalls (executeCommand env 0 st) = [NavigateToCluster "c0ffee"].
Proof.
  intros env st.
  destruct (cluster_command_switches env "localhost" "c0ffee" "staging" 0 st
              eq_refl eq_refl) as (Hclosed & _ & _ & _ & _ & Hcalls).
  split; [reflexivity|]. split; [reflexivity|]. split; [exact Hclosed|].
  apply Hcalls. intros (_ & _ & Hname). discriminate Hname.
Defined.

(** ** A load that fails *)

Section FailedLoad.

(** X26.  A load that fails is silent.  When the request for resources
    is rejected, by the frame or by the timeout, the palette drops the
    resources it held, hides the loading indicator and tells the user
    nothing: no alert is raised, and the cache, the input and the open
    state are untouched.  Once the search has run again, for an input that
    does not start with a slash, nothing is listed and the text drawn is
    the one for resources that are loading. *)
Theorem failed_load_is_silent (message : string) (st : Palette) :
  let failed := loadResourcesViaIPC_settled (Channel.Rejected message) st in
  allResources failed = [] /\ loadingShown failed = false
  /\ alerts failed = alerts st /\ resourceCache failed = resourceCache st
  /\ window failed = window st /\ isOpen failed = isOpen st
  /\ inputValue failed = inputValue st
  /\ (startsWith (inputValue st) "/" = false ->
      results (debounceFired failed) = []
      /\ view (debounceFired failed) = VEmpty "Loading resources...").
Proof.
  cbv zeta. cbn [loadResourcesViaIPC_settled]. unfold resourcesFailed.
  set (emptied := set_allResources [] st).
  pose proof (durable_handleInput emptied) as Hd.
  apply durable_fields in Hd
    as (Hopen & Hin & Hall & _ & Hcache & _ & _ & _ & Hwin & Halerts & _).
  destruct (handleInput_fields emptied) as (Hmode & _).
  destruct (hint_sets_command_mode emptied) as [Hslash _].
  rewrite Hslash in Hmode.
  replace (inputValue emptied) with (inputValue st) in * by (by destruct st).
  replace (allResources emptied) with (@nil KubeResource) in *
    by (by destruct st).
  replace (resourceCache emptied) with (resourceCache st) in *
    by (by destruct st).
  replace (window emptied) with (window st) in * by (by destruct st).
  replace (alerts emptied) with (alerts st) in * by (by destruct st).
  replace (isOpen emptied) with (isOpen st) in * by (by destruct st).
  set (typed := handleInput emptied) in *.
  assert (Hsame : forall s,
             allResources (set_loadingShown false s) = allResources s
             /\ isCommandMode (set_loadingShown false s) = isCommandMode s)
    by (by intros []).
  clearbody typed. clear Hslash emptied.
  do 7 (split; [destruct typed; cbn in *; congruence|]).
  intros Hplain. unfold debounceFired.
  destruct (Hsame typed) as [Ha Hm].
  destruct (search_without_resources (set_loadingShown false typed)) as [Hr Hv];
    [congruence|congruence|].
  by destruct (performSearch _).
Qed.

End FailedLoad.

Lemma failed_load_is_silent_witness :
  let st := debounceFired (typed "a") in
  let failed :=
    loadResourcesViaIPC_settled (Channel.Rejected "Resource request timeout") st in
  startsWith (inputValue st) "/" = false
  /\ map displayText (results st) = ["Pod/ns1/a"; "Service/ns1/a"]
  /\ alerts failed = []
  /\ view (debounceFired failed) = VEmpty "Loading resources...".
Proof.
  intros st failed.
  destruct (failed_load_is_silent "Resource request timeout" st)
    as (_ & _ & Halerts & _ & _ & _ & _ & Hsearch).
  destruct (Hsearch eq_refl) as [_ Hview].
  split; [reflexivity|]. split; [reflexivity|].
  split; [exact Halerts|exact Hview].
Defined.

(** ** Completing a command *)

Section CompleteCommand.

Variable env : Env.

(** Every piece of a split at white space is a piece of the text. *)
Lemma splitGo_substring (s cur : string) (inGap : bool) (piece : string) :
  (inGap = true -> cur = "") ->
  In piece (splitGo cur inGap s) -> Substring piece (String.rev cur +:+ s).
Proof.
  revert cur inGap. induction s as [|c s IH]; intros cur inGap Hgap; cbn.
  - intros [<-|[]]. exists "", "". by rewrite append_empty_l.
  - assert (Hrev : forall x, String.rev (String c x) +:+ s
                             = String.rev x +:+ String c s).
    { intros x. unfold String.rev. cbn.
      assert (H : forall a b : string,
                 String.rev_app a b = String.rev_app a "" +:+ b).
      { clear. induction a as [|y a IHa]; intros b; cbn.
        - by rewrite append_empty_l.
        - rewrite (IHa (String y b)), (IHa (String y "")).
          by rewrite append_assoc, append_cons, append_empty_l. }
      rewrite (H x (String c "")), append_assoc.
      by rewrite append_cons, append_empty_l. }
    destruct (isSpace c).
    + destruct inGap.
      * rewrite (Hgap eq_refl). intros Hin.
        apply (IH "" true) in Hin; [|done].
        change (String.rev "") with "" in *. rewrite append_empty_l in *.
        destruct Hin as (pre & post & ->).
        exists (String c pre), post. by rewrite append_cons.
      * intros [<-|Hin].
        -- exists "", (String c s). by rewrite append_empty_l.
        -- apply (IH "" true) in Hin; [|done].
           change (String.rev "") with "" in Hin. rewrite append_empty_l in Hin.
           destruct Hin as (pre & post & ->).
           exists (String.rev cur +:+ String c pre), post.
           by rewrite !append_assoc, append_cons.
    + intros Hin. apply (IH (String c cur) false) in Hin; [|done].
      by rewrite Hrev in Hin.
Qed.

Lemma searchTermsOf_substring (s term : string) :
  In term (searchTermsOf s) -> Substring term s.
Proof.
  unfold searchTermsOf, splitSpaces. intros [Hin _]%filter_In.
  apply splitGo_substring in Hin; [|done].
  change (String.rev "") with "" in Hin. by rewrite append_empty_l in Hin.
Qed.

(** X27.  Tab in the command list writes the label of the command under
    the selection into the input, after a slash.  The palette stays in
    command mode, and the query the completion leaves still selects that
    command: every word of a label is found in the label. *)
Theorem tab_completes_command (cmd : Command) (st : Palette) :
  isCommandMode st = true -> autocompleteSuggestions st = [] ->
  commandSearchQuery st = "" ->
  item (filterCommands (commandQuery st) (availableCommands st))
       (selectedCommandIndex st) = Some cmd ->
  let st' := handleKeyDown env Tab st in
  inputValue st' = "/" +:+ label cmd
  /\ isCommandMode st' = true
  /\ commandQuery st' = toLowerCase (label cmd)
  /\ In cmd (filterCommands (commandQuery st') (availableCommands st)).
Proof.
  intros Hmode Hsugg Hquery Hitem. cbv zeta.
  assert (Htab : handleKeyDown env Tab st
                 = handleInput (set_inputValue ("/" +:+ label cmd) st)).
  { assert (Some (handleKeyDown env Tab st) = keyInCommandList env Tab st) as H
      by (by apply key_in_command_list).
    cbn in H. unfold autocompleteCommand in H. rewrite Hitem in H.
    by injection H. }
  rewrite Htab. set (written := set_inputValue ("/" +:+ label cmd) st).
  assert (Hwritten : inputValue written = String "/" (label cmd)).
  { subst written. destruct st; cbn. by rewrite append_cons, append_empty_l. }
  pose proof (durable_handleInput written) as Hd.
  apply durable_fields in Hd as (_ & Hin & _).
  assert (Hq : commandQuery (handleInput written) = toLowerCase (label cmd)).
  { unfold commandQuery. rewrite Hin, Hwritten.
    by rewrite dropChars_cons, dropChars_zero. }
  split; [rewrite Hin, Hwritten; by rewrite append_cons, append_empty_l|].
  split.
  { destruct (handleInput_fields written) as (-> & _).
    destruct (hint_sets_command_mode written) as [-> _].
    by rewrite Hwritten. }
  split; [exact Hq|]. rewrite Hq.
  assert (Hcmd : In cmd (availableCommands st)).
  { unfold item in Hitem. destruct (selectedCommandIndex st <? 0)%Z; [done|].
    apply list_elem_of_lookup_2, list_elem_of_In in Hitem.
    unfold filterCommands in Hitem. by apply filter_In in Hitem as [? _]. }
  unfold filterCommands. apply filter_In. split; [exact Hcmd|].
  apply forallb_forall. intros term Hterm.
  apply searchTermsOf_substring, includes_spec in Hterm.
  by rewrite Hterm.
Qed.

End CompleteCommand.

Lemma tab_completes_command_witness :
  let st := typed "/de" in
  let st' := handleKeyDown declining Tab st in
  isCommandMode st = true /\ autocompleteSuggestions st = []
  /\ commandSearchQuery st = ""
  /\ item (filterCommands (commandQuery st) (availableCommands st))
          (selectedCommandIndex st) = Some describeCommand
  /\ inputValue st' = "/describe"
  /\ isCommandMode st' = true.
Proof.
  intros st st'.
  destruct (tab_completes_command declining describeCommand st
              eq_refl eq_refl eq_refl eq_refl) as (Hinput & Hmode & _).
  do 4 (split; [reflexivity|]). split; [exact Hinput|exact Hmode].
Defined.

(** ** The shortcut as it is shipped *)

Section DefaultShortcut.

Import Shortcut.

(** X28.  The listeners for the shortcut, with the shortcut as it is
    shipped.  With no shortcut stored, or with the default [Cmd+K], the
    palette is toggled exactly by the key K, in either case, pressed with
    Meta held and without Alt and Shift, provided the palette is enabled.
    Ctrl is not looked at: Ctrl with K and without Meta does nothing, on
    every platform.  The listener of the main window toggles the palette
    itself; the listener of a cluster frame posts the toggle message, with
    the cluster id of its host name. *)
Theorem default_shortcut_wants_meta (preferences : KMenuPreferencesModel)
    (event : KeyboardEvent) (hostname : string)
    (navigationCommands : list Command) (requestId : string) (st : Palette) :
  keyboardShortcut preferences = "" \/ keyboardShortcut preferences = "Cmd+K" ->
  let fires :=
    enabled preferences
    && String.eqb (toLowerCase (key event)) "k"
    && metaKey event && negb (altKey event) && negb (shiftKey event) in
  onShortcutKey preferences event navigationCommands requestId st
  = (if fires then toggle navigationCommands requestId st else st)
  /\ Frame.onKeyDown preferences hostname event
     = (if fires then Some (Frame.toggleMessage (matchClusterHost hostname))
        else None).
Proof.
  intros Hdefault. cbv zeta.
  assert (Hshortcut : shortcutOr preferences = "Cmd+K")
    by (unfold shortcutOr; destruct Hdefault as [-> | ->]; reflexivity).
  unfold onShortcutKey, Frame.onKeyDown. rewrite Hshortcut.
  unfold matchesShortcut.
  change (keyOf "Cmd+K") with "k". change (hasCmd "Cmd+K") with true.
  change (hasCtrl "Cmd+K") with false. change (hasAlt "Cmd+K") with false.
  change (hasShift "Cmd+K") with false.
  destruct (enabled preferences), (String.eqb (toLowerCase (key event)) "k"),
    (metaKey event), (ctrlKey event), (altKey event), (shiftKey event);
    split; reflexivity.
Qed.

End DefaultShortcut.

Lemma default_shortcut_wants_meta_witness :
  let ctrlK := {| Shortcut.key := "k"; Shortcut.metaKey := false;
                  Shortcut.ctrlKey := true; Shortcut.altKey := false;
                  Shortcut.shiftKey := false |} in
  let metaK := {| Shortcut.key := "K"; Shortcut.metaKey := true;
                  Shortcut.ctrlKey := false; Shortcut.altKey := false;
                  Shortcut.shiftKey := false |} in
  Shortcut.keyboardShortcut Shortcut.defaults = "Cmd+K"
  /\ onShortcutKey Shortcut.defaults ctrlK [] "r1" initial = initial
  /\ isOpen (onShortcutKey Shortcut.defaults metaK [] "r1" initial) = true.
Proof.
  intros ctrlK metaK.
  destruct (default_shortcut_wants_meta Shortcut.defaults ctrlK "localhost" []
              "r1" initial (or_intror eq_refl)) as [Hctrl _].
  destruct (default_shortcut_wants_meta Shortcut.defaults metaK "localhost" []
              "r1" initial (or_intror eq_refl)) as [Hmeta _].
  split; [reflexivity|]. split; [exact Hctrl|].
  rewrite Hmeta. reflexivity.
Defined.

(** ** A toggle message without a cluster id *)

Section StaleCluster.

(** X29.  The toggle message replaces the active frame always and the
    cluster id only when it carries one.  A message without a cluster id,
    as a frame sends it when its host name is not that of a cluster,
    leaves the palette with the new frame and the cluster id it had: the
    resources cached for the old cluster are taken for the new frame, the
    request for resources goes to the new frame, and what that frame
    answers is stored under the id of the old cluster. *)
Theorem toggle_without_cluster_id (source : nat) (clusterId : string)
    (cached answered : list KubeResource) (navigationCommands : list Command)
    (requestId : string) (st : Palette) :
  isOpen st = false ->
  currentClusterId st = Some clusterId -> clusterId <> "" ->
  resourceCache st !! clusterId = Some cached ->
  let st' := onToggleMessage source (Frame.toggleMessage None)
                             navigationCommands requestId st in
  let loaded := loadResourcesViaIPC_settled (Channel.Resolved answered) st' in
  isOpen st' = true
  /\ activeIframeSource st' = Some source
  /\ currentClusterId st' = Some clusterId
  /\ allResources st' = cached
  /\ Channel.posted (window st')
     = Channel.posted (window st)
       ++ [(source, Channel.MsgGetResources requestId)]
  /\ resourceCache loaded !! clusterId = Some answered.
Proof.
  intros Hclosed Hcluster Hid Hcache. cbv zeta.
  set (st' := onToggleMessage source (Frame.toggleMessage None)
                              navigationCommands requestId st).
  assert (Hfields : isOpen st' = true /\ activeIframeSource st' = Some source
                    /\ currentClusterId st' = Some clusterId
                    /\ allResources st' = cached
                    /\ Channel.posted (window st')
                       = Channel.posted (window st)
                         ++ [(source, Channel.MsgGetResources requestId)]).
  { subst st'. unfold onToggleMessage, toggle, open, initializeCommands.
    destruct st; cbn in *. subst.
    unfold loadResources, clusterIdOf, isEmpty; cbn.
    destruct (String.eqb_spec clusterId "") as [|_]; [contradiction|].
    rewrite Hcache. unfold renderResults, loadResourcesViaIPC, requestFrom; cbn.
    by destruct results0. }
  destruct Hfields as (Hopen & Hframe & Hcur & Hall & Hposted).
  do 5 (split; [assumption|]).
  unfold loadResourcesViaIPC_settled, resourcesLoaded.
  assert (Hidt : clusterIdOf (set_allResources answered st') = Some clusterId).
  { unfold clusterIdOf, isEmpty. destruct st'; cbn in *. subst.
    by destruct (String.eqb_spec clusterId ""). }
  rewrite Hidt.
  match goal with |- context [handleInput ?s] => set (stored := s) end.
  pose proof (durable_handleInput stored) as Hd.
  apply durable_fields in Hd as (_ & _ & _ & _ & Hc & _).
  replace (resourceCache stored)
    with (<[clusterId := answered]> (resourceCache st')) in Hc
    by (subst stored; by destruct st').
  replace (resourceCache (set_loadingShown false (handleInput stored)))
    with (resourceCache (handleInput stored))
    by (by destruct (handleInput stored)).
  rewrite Hc. apply lookup_insert_eq.
Qed.

End StaleCluster.

Lemma toggle_without_cluster_id_witness :
  let st' := onToggleMessage 9 (Frame.toggleMessage None) [] "r2" cachedPalette in
  let loaded := loadResourcesViaIPC_settled (Channel.Resolved [podB]) st' in
  isOpen cachedPalette = false
  /\ currentClusterId cachedPalette = Some "c1" /\ "c1" <> ""
  /\ resourceCache cachedPalette !! "c1" = Some sample
  /\ activeIframeSource cachedPalette = Some 7
  /\ activeIframeSource st' = Some 9
  /\ allResources st' = sample
  /\ Channel.posted (window st') = [(9, Channel.MsgGetResources "r2")]
  /\ resourceCache loaded !! "c1" = Some [podB].
Proof.
  intros st' loaded.
  assert (Hid : "c1" <> "") by discriminate.
  destruct (toggle_without_cluster_id 9 "c1" sample [podB] [] "r2" cachedPalette
              eq_refl eq_refl Hid eq_refl)
    as (_ & Hframe & _ & Hall & Hposted & Hstored).
  split; [reflexivity|]. split; [reflexivity|]. split; [exact Hid|].
  split; [reflexivity|]. split; [reflexivity|]. split; [exact Hframe|].
  split; [exact Hall|]. split; [exact Hposted|exact Hstored].
Defined.

(** ** Instances *)

Lemma typing_sets_command_mode_witness :
  let plain := set_inputValue "pod" (typed "/logs a") in
  isCommandMode (typed "/logs a") = true
  /\ activeCommand (typed "/logs a") = Some logsCommand
  /\ startsWith (inputValue plain) "/" = false
  /\ isCommandMode (handleInput plain) = false
  /\ activeCommand (handleInput plain) = None.
Proof.
  intros plain.
  destruct (typing_sets_command_mode plain) as (Hmode & Hplain & _).
  destruct (Hplain eq_refl) as [Hcommand _].
  split; [reflexivity|]. split; [reflexivity|]. split; [reflexivity|].
  split; [exact Hmode|exact Hcommand].
Defined.

Lemma commands_listed_witness :
  let commands := availableCommands opened in
  Words "   " []
  /\ filterCommands "   " commands = commands
  /\ Words "pod logs" ["pod"; "logs"]
  /\ filterCommands "pod logs" commands = [logsCommand]
  /\ Forall (fun term => Substring term "logs" \/ Substring term "view pod logs")
            ["pod"; "logs"].
Proof.
  intros commands.
  assert (Hblank : Words "   " []) by (by apply words_none).
  assert (Hwords : Words "pod logs" ["pod"; "logs"]).
  { apply (words_more "" "pod" " logs" ["logs"]); try done.
    apply (words_more " " "logs" "" []); try done.
    by apply words_none. }
  assert (Hlisted : In logsCommand (filterCommands "pod logs" commands))
    by (left; reflexivity).
  destruct (commands_listed "   " commands) as (_ & Hall & _).
  destruct (Hall [] Hblank) as [_ Hevery].
  destruct (commands_listed "pod logs" commands) as (_ & Hin & _).
  destruct (Hin ["pod"; "logs"] Hwords) as [Hexact _].
  destruct (proj1 (Hexact logsCommand) Hlisted) as [_ Hholds].
  split; [exact Hblank|]. split; [exact (Hevery eq_refl)|].
  split; [exact Hwords|]. split; [reflexivity|exact Hholds].
Defined.
